(** * Reconstitute.py: recovery of an EC2 instance from grouped EBS snapshots

    A shallow embedding of [Extras/Reconstitute.py].  The script is a
    sequence of calls against one boto3 EC2 client, interleaved with
    prints, sleeps and process exits.  Every function of the script is a
    computation in a small monad that threads the state of the outside
    world, records what the script did (requests, prints, sleeps) and ends
    in a return value, a [sys.exit], an uncaught exception or, for the
    unbounded polling loops, exhaustion of the iteration budget. *)

From Stdlib Require Import List String Ascii ZArith Bool Arith Lia.
From Stdlib Require Import DecimalString.
Import ListNotations.
Open Scope string_scope.
Open Scope Z_scope.

Set Implicit Arguments.

(** ** Python values and strings *)

Definition nl : string := String "010"%char "".
Definition tab : string := String "009"%char "".
Definition dquote : string := String (ascii_of_nat 34) "".

(** [str(n)] for a Python int. *)
Definition str_of_int (n : Z) : string := NilZero.string_of_int (Z.to_int n).

(** Python's [len] on a [str] counts code points.  A string of the model
    holds text as the bytes of its UTF-8 encoding, the form in which the
    command line and the provider deliver it.  [utf8_width c rest] is the
    number of bytes of the code point that the byte [c] begins in front of
    [rest]: 1 for an ASCII byte, 2 to 4 for the lead byte of a well-formed
    sequence (no overlong form, no surrogate, nothing above U+10FFFF), and
    1 for any other byte, which Python reads as one lone surrogate. *)
Definition utf8_width (c : ascii) (rest : string) : nat :=
  let byte k := match String.get k rest with
                | Some b => nat_of_ascii b
                | None => 0%nat
                end in
  let continues k := ((128 <=? byte k) && (byte k <=? 191))%nat in
  let n := nat_of_ascii c in
  (if n <? 194 then 1
   else if n <? 224 then (if continues 0 then 2 else 1)
   else if n <? 240 then
     (if (if n =? 224 then 160 <=? byte 0 else true)
         && (if n =? 237 then byte 0 <=? 159 else true)
         && continues 0 && continues 1
      then 3 else 1)
   else if n <? 245 then
     (if (if n =? 240 then 144 <=? byte 0 else true)
         && (if n =? 244 then byte 0 <=? 143 else true)
         && continues 0 && continues 1 && continues 2
      then 4 else 1)
   else 1)%nat.

(** The code points of [s], of which the first [pending] bytes belong to
    a code point that is already counted. *)
Fixpoint code_points (pending : nat) (s : string) : nat :=
  match s with
  | EmptyString => 0
  | String c rest =>
      match pending with
      | S pending' => code_points pending' rest
      | O => S (code_points (utf8_width c rest - 1) rest)
      end
  end.

Definition len (s : string) : Z := Z.of_nat (code_points 0 s).

(** The values a snapshot-attribute record holds: the provider's
    ["VolumeSize"] is an int, every tag value is a str. *)
Inductive attr_val : Type :=
| VInt (n : Z)
| VStr (s : string).

(** ** Insertion-ordered dictionaries

    Python dicts iterate in insertion order and assignment to an existing
    key keeps the key's position. *)

Definition dict (V : Type) : Type := list (string * V).

Fixpoint dict_get {V} (k : string) (d : dict V) : option V :=
  match d with
  | [] => None
  | (k', v) :: d' => if String.eqb k k' then Some v else dict_get k d'
  end.

Fixpoint dict_set {V} (k : string) (v : V) (d : dict V) : dict V :=
  match d with
  | [] => [(k, v)]
  | (k', v') :: d' =>
      if String.eqb k k' then (k', v) :: d' else (k', v') :: dict_set k v d'
  end.

Definition dict_keys {V} (d : dict V) : list string := map fst d.

(** ** [str.split(",")] *)

Fixpoint split_on (sep : ascii) (s : string) : list string :=
  match s with
  | EmptyString => [""]
  | String c s' =>
      if Ascii.eqb c sep then "" :: split_on sep s'
      else match split_on sep s' with
           | h :: t => String c h :: t
           | [] => [String c ""]
           end
  end.

(** ** The two regular expressions

    [re.match(r"(<prefix>)([a-f0-9]{n})", s)] anchors at the start of [s]
    only; on success [match.group(0)] is the matched prefix of [s]. *)

Definition is_lower_hex (c : ascii) : bool :=
  let n := nat_of_ascii c in
  ((48 <=? n) && (n <=? 57) || (97 <=? n) && (n <=? 102))%nat.

Fixpoint match_literal (lit s : string) : option string :=
  match lit with
  | EmptyString => Some s
  | String c lit' =>
      match s with
      | String d s' => if Ascii.eqb c d then match_literal lit' s' else None
      | EmptyString => None
      end
  end.

Fixpoint match_hex (n : nat) (s : string) : option string :=
  match n with
  | O => Some ""
  | S n' =>
      match s with
      | String c s' =>
          if is_lower_hex c then
            match match_hex n' s' with
            | Some m => Some (String c m)
            | None => None
            end
          else None
      | EmptyString => None
      end
  end.

(** Returns [group(0)] of the match, or [None]. *)
Definition re_match_id (prefix : string) (n : nat) (s : string) : option string :=
  match match_literal prefix s with
  | Some rest =>
      match match_hex n rest with
      | Some digits => Some (prefix ++ digits)
      | None => None
      end
  | None => None
  end.

(** ** What the provider is asked and what it answers *)

Record snapshot_info : Type := {
  SnapshotId : string;
  VolumeSize : Z;
  Tags : list (string * string)   (* each tag is {"Key": k, "Value": v} *)
}.

Record volume_info : Type := {
  VolumeId : string;
  VolumeTags : list (string * string)
}.

Record instance_desc : Type := {
  StateName : string;                  (* ["State"]["Name"] *)
  PrivateDnsName : string;
  PrivateIpAddress : string;
  BlockDeviceMappings : list string    (* [i]["Ebs"]["VolumeId"] *)
}.

Inductive request : Type :=
| DescribeImages (image_id : string)
| DescribeSubnets (subnet_id : string)
| DescribeSecurityGroups (group_id : string)
| DescribeKeyPairs (key_name : string)
| DescribeSnapshots (filter_name filter_value : string)
| CreateVolume (az : string) (iops : option Z) (snapshot_id : string)
               (tags : list (string * string)) (volume_type : string)
| RunInstances (image_id instance_type key_name subnet_id az label : string)
| DescribeInstanceStatus (instance_id : string)
| DescribeInstances (instance_id : string)
| StartInstances (instance_id : string)
| StopInstances (instance_id : string)
| DetachVolume (instance_id volume_id : string)
| DescribeVolumes (volume_id : string)
| DeleteVolume (volume_id : string)
| AttachVolume (device instance_id volume_id : string)
| ModifyInstanceGroups (groups : list string) (instance_id : string)
| ModifyInstanceUserData (instance_id content : string)
| DescribeInstanceAttribute (attribute instance_id : string).

(** The part of each response the script reads. *)
Inductive response : Type :=
| RUnit
| RSubnets (zones : list string)
| RSnapshots (snaps : list snapshot_info)
| RVolume (v : volume_info)
| RInstances (ids : list string)
| RStatuses (statuses : list string)
| RReservations (r : list (list instance_desc))
| RVolumes (states : list string)
| RUserData (value : string).

Inductive exn : Type :=
| ClientError
| ValueError (msg : string)
| KeyError (key : string)
| NameError (name : string)
| UnboundLocalError (name : string)
| AttributeError (attr : string)
| TypeError
| IndexError
| StopIteration
| ParamValidationError
| Base64Error.

Inductive event : Type :=
| EvCall (r : request) (answer : option response)
| EvPrint (text : string)
| EvSleep (seconds : Z).

(** How a run stops short of its end. *)
Inductive halt : Type :=
| Exit (msg : string)     (* sys.exit(msg) *)
| Raise (e : exn)         (* uncaught exception *)
| OutOfFuel.              (* a polling loop exceeded the iteration budget *)

Inductive outcome (A : Type) : Type :=
| Ret (a : A)             (* ran to the end *)
| Halt (h : halt).
Arguments Halt {A} h.

(** The command line, as [argparse] leaves it in the module's globals.
    Flags the script itself inspects and that have no default are
    [option]s ([None] when the flag is absent); the subnet, key, label
    and search value are only ever handed to the client and are taken
    as supplied. *)
Record config : Type := {
  AMI_ID : option string;
  EBS_TYPE : string;
  EBS_IOPS : Z;
  EC2_LABEL : string;
  EC2_SUBNET : string;
  EC2_TYPE : string;
  POWER_ON : bool;
  PROV_KEY : string;
  ROOT_SNAP : option string;
  SECURITY_GROUPS : option string;
  SNAP_SEARCH_TAG : string;
  SNAP_SEARCH_VAL : string;
  SNAP_EC2_ID_TAG : string;
  SNAP_DEV_TAG : string;
  USERDATA_BOOL : bool;
  USERDATA_FILE : option string
}.

(** Truthiness of an optional string ([None] and [""] are falsy). *)
Definition truthy (o : option string) : bool :=
  match o with
  | Some s => negb (String.eqb s "")
  | None => false
  end.

(** The command line [cfg] with the root-snapshot flag set to
    [root_snap]. *)
Definition with_root_snap (cfg : config) (root_snap : option string) : config :=
  {| AMI_ID := AMI_ID cfg; EBS_TYPE := EBS_TYPE cfg; EBS_IOPS := EBS_IOPS cfg;
     EC2_LABEL := EC2_LABEL cfg; EC2_SUBNET := EC2_SUBNET cfg;
     EC2_TYPE := EC2_TYPE cfg; POWER_ON := POWER_ON cfg; PROV_KEY := PROV_KEY cfg;
     ROOT_SNAP := root_snap;
     SECURITY_GROUPS := SECURITY_GROUPS cfg;
     SNAP_SEARCH_TAG := SNAP_SEARCH_TAG cfg; SNAP_SEARCH_VAL := SNAP_SEARCH_VAL cfg;
     SNAP_EC2_ID_TAG := SNAP_EC2_ID_TAG cfg; SNAP_DEV_TAG := SNAP_DEV_TAG cfg;
     USERDATA_BOOL := USERDATA_BOOL cfg; USERDATA_FILE := USERDATA_FILE cfg |}.

(** ** A small simulated provider

    Used to run the script on concrete inputs.  The simulated account
    knows every image, subnet, group and key it is asked about, reports
    the snapshots it was set up with, answers each volume creation with
    the requested tags, and takes a few polls to bring an instance up, to
    release a detached volume and to forget a deleted one. *)
Module Sim.

(** What the account holds and how slow it is; fixed during a run. *)
Record account : Type := {
  snapshots : list snapshot_info;
  groups_accepted : bool;     (* does the account accept the group change? *)
  detach_delay : nat;         (* volume polls until a detached volume is free *)
  delete_delay : nat;         (* volume polls until a deleted volume is forgotten *)
  files : list (string * string)
}.

Inductive root_state : Type :=
| InUse (polls : nat)
| Deleting (polls : nat)
| Gone.

(** What changes during a run. *)
Record world : Type := {
  instance_state : string;
  health_delay : nat;         (* status polls left until the health is ok *)
  root : root_state
}.

Definition with_instance (w : world) (state : string) (delay : nat) : world :=
  {| instance_state := state; health_delay := delay; root := root w |}.

Definition with_root (w : world) (r : root_state) : world :=
  {| instance_state := instance_state w; health_delay := health_delay w; root := r |}.

Definition client (acct : account) (w : world) (r : request)
  : option response * world :=
  match r with
  | DescribeImages _ | DescribeSecurityGroups _ | DescribeKeyPairs _ =>
      (Some RUnit, w)
  | DescribeSubnets _ => (Some (RSubnets ["us-east-1a"]), w)
  | DescribeSnapshots _ _ => (Some (RSnapshots (snapshots acct)), w)
  | CreateVolume _ _ snapshot tags _ =>
      (Some (RVolume {| VolumeId := "vol-" ++ snapshot; VolumeTags := tags |}), w)
  | RunInstances _ _ _ _ _ _ =>
      (Some (RInstances ["i-new"]), with_instance w "running" 1)
  | DescribeInstanceStatus _ =>
      match health_delay w with
      | O => (Some (RStatuses ["ok"]), w)
      | S n => (Some (RStatuses []), with_instance w (instance_state w) n)
      end
  | DescribeInstances _ =>
      (Some (RReservations
               [[ {| StateName := instance_state w;
                     PrivateDnsName := "ip-10-0-0-5.ec2.internal";
                     PrivateIpAddress := "10.0.0.5";
                     BlockDeviceMappings := ["vol-root"] |} ]]), w)
  | StartInstances _ => (Some RUnit, with_instance w "running" 1)
  | StopInstances _ => (Some RUnit, with_instance w "stopped" 0)
  | DetachVolume _ _ => (Some RUnit, with_root w (InUse (detach_delay acct)))
  | DescribeVolumes _ =>
      match root w with
      | InUse O => (Some (RVolumes ["available"]), w)
      | InUse (S n) => (Some (RVolumes ["in-use"]), with_root w (InUse n))
      | Deleting O => (None, with_root w Gone)
      | Deleting (S n) => (Some (RVolumes ["deleting"]), with_root w (Deleting n))
      | Gone => (None, w)
      end
  | DeleteVolume _ => (Some RUnit, with_root w (Deleting (delete_delay acct)))
  | AttachVolume _ _ _ => (Some RUnit, w)
  | ModifyInstanceGroups _ _ =>
      if groups_accepted acct then (Some RUnit, w) else (None, w)
  | ModifyInstanceUserData _ _ => (Some RUnit, w)
  | DescribeInstanceAttribute _ _ => (Some (RUserData "IyEvYmluL3No"), w)
  end.

Definition read_file (acct : account) (w : world) (path : string) : option string :=
  dict_get path (files acct).

(** The simulation hands the payload back undecoded. *)
Definition b64decode (s : string) : option string := Some s.

(** Two snapshots of the group web-01, taken from /dev/sdf and /dev/sdg of
    instance i-aaa. *)
Definition web01 : list snapshot_info :=
  [ {| SnapshotId := "snap-1"; VolumeSize := 10;
       Tags := [("Snapshot Group", "web-01"); ("Original Instance", "i-aaa");
                ("Original Attachment", "/dev/sdf")] |};
    {| SnapshotId := "snap-2"; VolumeSize := 2000;
       Tags := [("Snapshot Group", "web-01"); ("Original Instance", "i-aaa");
                ("Original Attachment", "/dev/sdg")] |} ].

Definition account_with (snaps : list snapshot_info) (accept : bool) : account :=
  {| snapshots := snaps; groups_accepted := accept;
     detach_delay := 1; delete_delay := 2; files := [] |}.

Definition start : world :=
  {| instance_state := "none"; health_delay := 0; root := InUse 0 |}.

(** The command line of the scenario: defaults everywhere, the mandatory
    identifiers supplied, and the volume kind, ratio and security groups
    as given. *)
Definition command_line (ebs_type : string) (iops : Z) (groups : option string)
  : config :=
  {| AMI_ID := Some "ami-0123abcd"; EBS_TYPE := ebs_type; EBS_IOPS := iops;
     EC2_LABEL := "recovery"; EC2_SUBNET := "subnet-1"; EC2_TYPE := "t3.large";
     POWER_ON := false; PROV_KEY := "ops"; ROOT_SNAP := None;
     SECURITY_GROUPS := groups;
     SNAP_SEARCH_TAG := "Snapshot Group"; SNAP_SEARCH_VAL := "web-01";
     SNAP_EC2_ID_TAG := "Original Instance"; SNAP_DEV_TAG := "Original Attachment";
     USERDATA_BOOL := false; USERDATA_FILE := None |}.

(** The batch web-01 after its first snapshot has lost the tag that
    names its device. *)
Definition stripped : list snapshot_info :=
  [ {| SnapshotId := "snap-1"; VolumeSize := 10;
       Tags := [("Snapshot Group", "web-01"); ("Original Instance", "i-aaa")] |};
    {| SnapshotId := "snap-2"; VolumeSize := 2000;
       Tags := [("Snapshot Group", "web-01"); ("Original Instance", "i-aaa");
                ("Original Attachment", "/dev/sdg")] |} ].

(** The account of the scenario, with the group change accepted or not. *)
Definition web01_account (accept : bool) : account := account_with web01 accept.

(** An account without any snapshot. *)
Definition bare_account : account := account_with [] true.

(** A world in which the boot volume has just been deleted and lingers
    for two more polls. *)
Definition lingering : world := with_root start (Deleting 2).

(** Seven well-formed security groups. *)
Definition seven_groups : string :=
  "sg-00000001,sg-00000002,sg-00000003,sg-00000004,sg-00000005,sg-00000006,sg-00000007".

(** The attribute record of the first snapshot of web-01. *)
Definition first_record : dict attr_val :=
  [("VolumeSize", VInt 10); ("Snapshot Group", VStr "web-01");
   ("Original Instance", VStr "i-aaa"); ("Original Attachment", VStr "/dev/sdf")].

(** A provider that rejects every request. *)
Definition refusing (w : world) (r : request) : option response * world :=
  (None, w).

(** The command line [c] with the user-data flags set. *)
Definition with_user_data (c : config) (clone : bool) (file : option string)
  : config :=
  {| AMI_ID := AMI_ID c; EBS_TYPE := EBS_TYPE c; EBS_IOPS := EBS_IOPS c;
     EC2_LABEL := EC2_LABEL c; EC2_SUBNET := EC2_SUBNET c; EC2_TYPE := EC2_TYPE c;
     POWER_ON := POWER_ON c; PROV_KEY := PROV_KEY c; ROOT_SNAP := ROOT_SNAP c;
     SECURITY_GROUPS := SECURITY_GROUPS c;
     SNAP_SEARCH_TAG := SNAP_SEARCH_TAG c; SNAP_SEARCH_VAL := SNAP_SEARCH_VAL c;
     SNAP_EC2_ID_TAG := SNAP_EC2_ID_TAG c; SNAP_DEV_TAG := SNAP_DEV_TAG c;
     USERDATA_BOOL := clone; USERDATA_FILE := file |}.

(** The command line [c] without the image flag. *)
Definition without_image (c : config) : config :=
  {| AMI_ID := None; EBS_TYPE := EBS_TYPE c; EBS_IOPS := EBS_IOPS c;
     EC2_LABEL := EC2_LABEL c; EC2_SUBNET := EC2_SUBNET c; EC2_TYPE := EC2_TYPE c;
     POWER_ON := POWER_ON c; PROV_KEY := PROV_KEY c; ROOT_SNAP := ROOT_SNAP c;
     SECURITY_GROUPS := SECURITY_GROUPS c;
     SNAP_SEARCH_TAG := SNAP_SEARCH_TAG c; SNAP_SEARCH_VAL := SNAP_SEARCH_VAL c;
     SNAP_EC2_ID_TAG := SNAP_EC2_ID_TAG c; SNAP_DEV_TAG := SNAP_DEV_TAG c;
     USERDATA_BOOL := USERDATA_BOOL c; USERDATA_FILE := USERDATA_FILE c |}.

(** The account of the scenario with a user-data file at hand. *)
Definition scripted_account : account :=
  {| snapshots := web01; groups_accepted := true;
     detach_delay := 1; delete_delay := 2;
     files := [("boot.sh", "#!/bin/sh")] |}.

(** A world in which the instance runs and has no status entry yet. *)
Definition booting : world := with_instance start "running" 1.

(** The attribute record of a snapshot of size 3. *)
Definition small_record : dict attr_val :=
  [("VolumeSize", VInt 3); ("Original Instance", VStr "i-aaa");
   ("Original Attachment", VStr "/dev/sdf")].

(** The attribute record of a snapshot that names its source instance. *)
Definition sourced_record : dict attr_val :=
  [("VolumeSize", VInt 10); ("Source Instance Id", VStr "i-aaa")].

(** A volume tagged with its original attachment, and one without. *)
Definition tagged_volume : volume_info :=
  {| VolumeId := "vol-1"; VolumeTags := [("Original Attachment", "/dev/sdf")] |}.
Definition untagged_volume : volume_info :=
  {| VolumeId := "vol-2"; VolumeTags := [("Name", "data")] |}.

End Sim.

Section Orchestrator.

(** The world outside the process: the provider's state and the file
    system.  [client] is [EC2_CLIENT]: it answers a request or rejects it
    ([None], boto3's [ClientError]) and moves to a new state. *)
Variable W : Type.
Variable client : W -> request -> option response * W.
Variable read_file : W -> string -> option string.
Variable b64decode : string -> option string.

Record result (A : Type) : Type := {
  out : outcome A;
  world : W;
  log : list event
}.

Definition M (A : Type) : Type := W -> result A.

Definition ret {A} (a : A) : M A :=
  fun w => {| out := Ret a; world := w; log := [] |}.

Definition bind {A B} (m : M A) (f : A -> M B) : M B :=
  fun w =>
    let r := m w in
    match out r with
    | Ret a =>
        let r' := f a (world r) in
        {| out := out r'; world := world r'; log := (log r ++ log r')%list |}
    | Halt h => {| out := Halt h; world := world r; log := log r |}
    end.

Definition halt_with {A} (h : halt) : M A :=
  fun w => {| out := Halt h; world := w; log := [] |}.

Definition sys_exit {A} (msg : string) : M A := halt_with (Exit msg).
Definition raise {A} (e : exn) : M A := halt_with (Raise e).
Definition out_of_fuel {A} : M A := halt_with OutOfFuel.

Definition tell (e : event) : M unit :=
  fun w => {| out := Ret tt; world := w; log := [e] |}.

(** [try: m except ...: h e]; [h] says which exceptions it handles. *)
Definition try_except {A} (m : M A) (h : exn -> option (M A)) : M A :=
  fun w =>
    let r := m w in
    match out r with
    | Halt (Raise e) =>
        match h e with
        | Some k =>
            let r' := k (world r) in
            {| out := out r'; world := world r'; log := (log r ++ log r')%list |}
        | None => r
        end
    | _ => r
    end.

Notation "x <- m ;; k" := (bind m (fun x => k))
  (at level 61, m at next level, right associativity).
Notation "m ;; k" := (bind m (fun _ => k))
  (at level 61, right associativity).

(** ** Primitive effects *)

(** One request to [EC2_CLIENT]; a rejected request raises [ClientError]. *)
Definition call (r : request) : M response :=
  fun w =>
    let (a, w') := client w r in
    {| out := match a with Some x => Ret x | None => Halt (Raise ClientError) end;
       world := w';
       log := [EvCall r a] |}.

(** [print(s)] and [print(s, end="")]. *)
Definition print (s : string) : M unit := tell (EvPrint (s ++ nl)).
Definition print_ (s : string) : M unit := tell (EvPrint s).

(** [time.sleep(n)]. *)
Definition sleep (n : Z) : M unit := tell (EvSleep n).

(** [l[0]]. *)
Definition index0 {A} (l : list A) : M A :=
  match l with
  | x :: _ => ret x
  | [] => raise IndexError
  end.

(** [d[k]]. *)
Definition getitem {V} (d : dict V) (k : string) : M V :=
  match dict_get k d with
  | Some v => ret v
  | None => raise (KeyError k)
  end.

(** A value used where the script concatenates strings. *)
Definition concat_str (v : attr_val) : M string :=
  match v with
  | VStr s => ret s
  | VInt _ => raise TypeError
  end.

(** A value handed to the client where the API wants a string: boto3
    checks parameter types before it sends anything. *)
Definition param_str (v : attr_val) : M string :=
  match v with
  | VStr s => ret s
  | VInt _ => raise ParamValidationError
  end.

(** Reading the top-level key of a response. *)
Definition subnets_of (r : response) : M (list string) :=
  match r with RSubnets l => ret l | _ => raise (KeyError "Subnets") end.
Definition snapshots_of (r : response) : M (list snapshot_info) :=
  match r with RSnapshots l => ret l | _ => raise (KeyError "Snapshots") end.
Definition volume_of (r : response) : M volume_info :=
  match r with RVolume v => ret v | _ => raise (KeyError "VolumeId") end.
Definition instances_of (r : response) : M (list string) :=
  match r with RInstances l => ret l | _ => raise (KeyError "Instances") end.
Definition statuses_of (r : response) : M (list string) :=
  match r with RStatuses l => ret l | _ => raise (KeyError "InstanceStatuses") end.
Definition reservations_of (r : response) : M (list (list instance_desc)) :=
  match r with RReservations l => ret l | _ => raise (KeyError "Reservations") end.
Definition volumes_of (r : response) : M (list string) :=
  match r with RVolumes l => ret l | _ => raise (KeyError "Volumes") end.
Definition userdata_of (r : response) : M string :=
  match r with RUserData v => ret v | _ => raise (KeyError "UserData") end.

(** Name resolution inside a function body: locals first, then the
    module's globals. *)
Definition load_name (locals globals : dict string) (name : string) : M string :=
  match dict_get name locals with
  | Some v => ret v
  | None =>
      match dict_get name globals with
      | Some v => ret v
      | None => raise (NameError name)
      end
  end.

Variable cfg : config.

(** The module-level names bound to a str.  Every other module-level name
    is an imported module, a function, [EC2_CLIENT], [CMD_OPTS], [ARGS] or
    an upper-case result of a step ([EC2_AZ], [SECURITY_GROUP_LIST],
    [SNAP_ATTRIBS], [BUILD_AZ], [RESTORED_EBS_INFO],
    [RECOVERY_HOST_INSTANCE_ID], [USERDATA_CONTENT]). *)
Definition module_globals : dict string :=
  ((match AMI_ID cfg with Some s => [("AMI_ID", s)] | None => [] end) ++
   [("EBS_TYPE", EBS_TYPE cfg); ("EC2_LABEL", EC2_LABEL cfg);
    ("EC2_SUBNET", EC2_SUBNET cfg); ("EC2_TYPE", EC2_TYPE cfg);
    ("PROV_KEY", PROV_KEY cfg)] ++
   (match ROOT_SNAP cfg with Some s => [("ROOT_SNAP", s)] | None => [] end) ++
   (match SECURITY_GROUPS cfg with Some s => [("SECURITY_GROUPS", s)] | None => [] end) ++
   [("SNAP_SEARCH_TAG", SNAP_SEARCH_TAG cfg); ("SNAP_SEARCH_VAL", SNAP_SEARCH_VAL cfg);
    ("SNAP_EC2_ID_TAG", SNAP_EC2_ID_TAG cfg); ("SNAP_DEV_TAG", SNAP_DEV_TAG cfg)] ++
   (match USERDATA_FILE cfg with Some s => [("USERDATA_FILE", s)] | None => [] end))%list.

(** ** The script's functions *)

Definition recovery_ec2_get_az (ec2_az : string)
    (snapshot_attributes : dict (dict attr_val)) : M string :=
  rebuild_az <-
    (if String.eqb ec2_az "" then
       exemplar_snapshot <-
         match dict_keys snapshot_attributes with
         | k :: _ => ret k
         | [] => raise StopIteration
         end ;;
       attrs <- getitem snapshot_attributes exemplar_snapshot ;;
       getitem attrs "Original AZ"
     else ret (VStr ec2_az)) ;;
  az <- concat_str rebuild_az ;;
  print (nl ++ "Building resources in: " ++ az ++ nl) ;;
  ret az.

(** [EC2_AZ] is the module global set by the subnet validation. *)
Definition recovery_ec2_make (EC2_AZ : string) : M response :=
  image <- match AMI_ID cfg with
           | Some s => ret s
           | None => raise ParamValidationError
           end ;;
  call (RunInstances image (EC2_TYPE cfg) (PROV_KEY cfg) (EC2_SUBNET cfg)
                     EC2_AZ (EC2_LABEL cfg)).

Definition recovery_ec2_check_state (ec2_id : string) : M string :=
  ec2_status <-
    try_except (call (DescribeInstanceStatus ec2_id))
      (fun e => match e with
                | ClientError =>
                    Some (raise (ValueError ("ERROR: Failed fetching status from " ++ ec2_id)))
                | _ => None
                end) ;;
  ec2_info <-
    try_except (call (DescribeInstances ec2_id))
      (fun e => match e with
                | ClientError =>
                    Some (raise (ValueError ("ERROR: Failed querying info from " ++ ec2_id)))
                | _ => None
                end) ;;
  reservations <- reservations_of ec2_info ;;
  instances <- index0 reservations ;;
  instance <- index0 instances ;;
  let ec2_state := StateName instance in
  current_state <-
    (if String.eqb ec2_state "running" then
       try_except
         (statuses <- statuses_of ec2_status ;; index0 statuses)
         (fun e => match e with
                   | IndexError => Some (ret "TRANSITIONING")
                   | _ => None
                   end)
     else ret ec2_state) ;;
  print current_state ;;
  ret current_state.

(** [while True] with one unit of [fuel] per iteration. *)
Fixpoint recovery_ec2_monitor_transition (fuel : nat)
    (ec2_id target_state target_status : string) : M unit :=
  match fuel with
  | O => out_of_fuel
  | S fuel' =>
      done <-
        try_except
          (ec2_state <- recovery_ec2_check_state ec2_id ;;
           if String.eqb ec2_state target_status then ret true
           else
             print_ ("Waiting for " ++ ec2_id) ;;
             print_ (" to reach " ++ target_state ++ "... ") ;;
             sleep 10 ;;
             ret false)
          (fun e => match e with
                    | ValueError _ => Some (print "pending" ;; sleep 10 ;; ret false)
                    | _ => None
                    end) ;;
      if done then ret tt
      else recovery_ec2_monitor_transition fuel' ec2_id target_state target_status
  end.

Definition recovery_ec2_power_on (ec2_id : string) : M response :=
  print_ (nl ++ "Requesting final power-on of " ++ ec2_id ++ "... ") ;;
  call (StartInstances ec2_id).

Definition recovery_ec2_stop (ec2_id : string) : M unit :=
  print_ (nl ++ "Requesting stop of " ++ ec2_id ++ "... ") ;;
  call (StopInstances ec2_id) ;;
  ret tt.

Definition recovery_ec2_get_connect (ec2_id : string) : M unit :=
  r <- call (DescribeInstances ec2_id) ;;
  reservations <- reservations_of r ;;
  instances <- index0 reservations ;;
  ec2_info <- index0 instances ;;
  let ec2_private_name := PrivateDnsName ec2_info in
  let ec2_private_ip := PrivateIpAddress ec2_info in
  print_ ("Attach to recovery-instance at " ++ ec2_private_name) ;;
  print (" (" ++ ec2_private_ip ++ ")").

Definition recovery_ec2_add_access (ec2_id : string)
    (security_group_list : list string) : M unit :=
  print_ (nl ++ "Attaching security-groups to recovery-instance [" ++ ec2_id ++ "]... ") ;;
  try_except
    (call (ModifyInstanceGroups security_group_list ec2_id) ;;
     print "Success")
    (fun e => match e with
              | ClientError =>
                  Some (security_group <-
                          load_name [("ec2_id", ec2_id)] module_globals "security_group" ;;
                        print (nl ++ "ERROR: Failed adding security group "
                                  ++ security_group ++ " to " ++ ec2_id))
              | _ => None
              end).

Definition ebs_get_snap_info (snap_search_value : string) : M (list snapshot_info) :=
  snapshot_info <-
    call (DescribeSnapshots ("tag:" ++ SNAP_SEARCH_TAG cfg) snap_search_value) ;;
  snapshots <- snapshots_of snapshot_info ;;
  match snapshots with
  | [] => sys_exit "Found no matching snapshots to reconstitute: aborting"
  | _ => ret snapshots
  end.

Definition validate_io1_config (snap_size : attr_val) : M Z :=
  match snap_size with
  | VStr _ => raise TypeError
  | VInt snap_size =>
      if snap_size <? 4 then
        raise (ValueError ("Requested volume-size [" ++ str_of_int snap_size
                             ++ "] is less than minimum allowed [4]."))
      else
        vol_iops <-
          (if EBS_IOPS cfg >? 0 then
             if (EBS_IOPS cfg <? 3) || (EBS_IOPS cfg >? 50) then
               sys_exit "Value out of range: must be 3-50"
             else ret (snap_size * EBS_IOPS cfg)
           else
             sys_exit ("Specified EBS-type " ++ EBS_TYPE cfg
                         ++ " but failed to specify an IOPs-ratio. Aborting...")) ;;
        ret (if vol_iops <? 100 then 100
             else if vol_iops >? 64000 then 64000
             else vol_iops)
  end.

(** The tags every reconstituted volume is created with. *)
Definition provenance_tags (original_ec2 original_device : string)
  : list (string * string) :=
  [("Original Instance", original_ec2); ("Original Attachment", original_device)].

(** The two [except] clauses around each volume creation. *)
Definition create_failed {A} (e : exn) : option (M A) :=
  match e with
  | ValueError err_string => Some (sys_exit ("FAILED: " ++ err_string ++ " Aborting... "))
  | ClientError => Some (sys_exit "FAILED. Aborting... ")
  | _ => None
  end.

(** The [if]/[elif]/[else] of the loop body: one volume from one
    snapshot. *)
Definition create_from_snapshot (build_az ebs_type snapshot : string)
    (attrs : dict attr_val) (original_ec2 original_device : attr_val)
  : M volume_info :=
  if String.eqb ebs_type "io1" then
    try_except
      (snap_size <- getitem attrs "VolumeSize" ;;
       vol_iops <- validate_io1_config snap_size ;;
       ec2 <- param_str original_ec2 ;;
       device <- param_str original_device ;;
       r <- call (CreateVolume build_az (Some vol_iops) snapshot
                               (provenance_tags ec2 device) ebs_type) ;;
       volume_info <- volume_of r ;;
       print (VolumeId volume_info) ;;
       ret volume_info)
      create_failed
  else if String.eqb ebs_type "gp2" then
    try_except
      (ec2 <- param_str original_ec2 ;;
       device <- param_str original_device ;;
       r <- call (CreateVolume build_az None snapshot
                               (provenance_tags ec2 device) ebs_type) ;;
       volume_info <- volume_of r ;;
       print (VolumeId volume_info) ;;
       ret volume_info)
      create_failed
  else
    sys_exit ("ERROR: requested volume-type " ++ dquote ++ ebs_type
                ++ dquote ++ " not currently supported. Aborting... ").

(** The loop of [ebs_snap_reconstitute]: [for snapshot in
    snapshot_attributes], each key met with [snapshot_attributes[snapshot]]. *)
Fixpoint reconstitute_loop (build_az ebs_type : string)
    (items : dict (dict attr_val)) (ebs_list : list volume_info)
  : M (list volume_info) :=
  match items with
  | [] => ret ebs_list
  | (snapshot, attrs) :: rest =>
      original_ec2 <- getitem attrs (SNAP_EC2_ID_TAG cfg) ;;
      original_device <- getitem attrs (SNAP_DEV_TAG cfg) ;;
      print_ ("Creating " ++ ebs_type ++ " volume from " ++ snapshot ++ "... ") ;;
      volume_info <-
        create_from_snapshot build_az ebs_type snapshot attrs
                             original_ec2 original_device ;;
      reconstitute_loop build_az ebs_type rest (ebs_list ++ [volume_info])%list
  end.

Definition ebs_snap_reconstitute (build_az ebs_type : string)
    (snapshot_attributes : dict (dict attr_val)) : M (list volume_info) :=
  reconstitute_loop build_az ebs_type snapshot_attributes [].

(** The attribute record of one snapshot: its size, then its tags. *)
Definition snap_attributes_of (snapshot_info : snapshot_info) : dict attr_val :=
  fold_left (fun snap_attributes tag => dict_set (fst tag) (VStr (snd tag)) snap_attributes)
            (Tags snapshot_info)
            [("VolumeSize", VInt (VolumeSize snapshot_info))].

(** The dictionary [ebs_snap_tags_to_attribs] builds from the snapshots
    the provider returned. *)
Definition tags_to_attribs (snapshots : list snapshot_info) : dict (dict attr_val) :=
  fold_left
    (fun snap_attribute_return snapshot_info =>
       dict_set (SnapshotId snapshot_info) (snap_attributes_of snapshot_info)
                snap_attribute_return)
    snapshots [].

Definition ebs_snap_tags_to_attribs (snap_search_value : string)
  : M (dict (dict attr_val)) :=
  snapshots <- ebs_get_snap_info snap_search_value ;;
  ret (tags_to_attribs snapshots).

(** [next(item for item in tags if item["Key"] == key)["Value"]]. *)
Fixpoint first_tag (key : string) (tags : list (string * string)) : M string :=
  match tags with
  | [] => raise StopIteration
  | (k, v) :: tags' => if String.eqb k key then ret v else first_tag key tags'
  end.

Fixpoint attach_loop (instance : string) (ebs_info : list volume_info)
    (attachment_output : option response) : M (option response) :=
  match ebs_info with
  | [] => ret attachment_output
  | ebs_object :: rest =>
      let new_volume := VolumeId ebs_object in
      attach_point <- first_tag "Original Attachment" (VolumeTags ebs_object) ;;
      print_ ("Attaching " ++ new_volume ++ " to " ++ instance ++ " at ") ;;
      print (attach_point ++ "...") ;;
      r <- call (AttachVolume attach_point instance new_volume) ;;
      attach_loop instance rest (Some r)
  end.

Definition ebs_reconstitution_attach (instance : string)
    (ebs_info : list volume_info) : M response :=
  print (nl ++ "Getting ready to attach reconstituted EBS volumes") ;;
  attachment_output <- attach_loop instance ebs_info None ;;
  match attachment_output with
  | Some r => ret r
  | None => raise (UnboundLocalError "attachment_output")
  end.

Definition userdata_inject (recovery_ec2_id userdata_content : string) : M unit :=
  try_except
    (print (nl ++ "Injecting userData into recovery-instance") ;;
     call (ModifyInstanceUserData recovery_ec2_id userdata_content) ;;
     ret tt)
    (fun e => match e with
              | ClientError =>
                  Some (sys_exit "ERROR: Failed to set userData on recovery-instance")
              | _ => None
              end).

Definition userdata_clone (recovery_ec2_id : string)
    (snap_attributes : dict (dict attr_val)) : M unit :=
  userdata_text <-
    try_except
      (first_key <- match dict_keys snap_attributes with
                    | k :: _ => ret k
                    | [] => raise StopIteration
                    end ;;
       attrs <- getitem snap_attributes first_key ;;
       orig_instance_id <- getitem attrs "Source Instance Id" ;;
       orig <- param_str orig_instance_id ;;
       r <- call (DescribeInstanceAttribute "userData" orig) ;;
       userdata_base64 <- userdata_of r ;;
       match b64decode userdata_base64 with
       | Some text => ret (Some text)
       | None => raise Base64Error
       end)
      (fun e => match e with
                | ClientError =>
                    Some (print "ERROR: Unable to determine source instance-Id from snapshot attributes" ;;
                          ret None)
                | _ => None
                end) ;;
  match userdata_text with
  | Some text => userdata_inject recovery_ec2_id text
  | None => raise (UnboundLocalError "userdata_text")
  end.

Definition userdata_read_file (user_data_file : string) : M string :=
  fun w =>
    match read_file w user_data_file with
    | Some file_content => ret file_content w
    | None => sys_exit (nl ++ "ABORTING: Failed while opening " ++ user_data_file) w
    end.

(** First wait of [nuke_root_ebs]: until the detached volume is
    ["available"]. *)
Fixpoint wait_available (fuel : nat) (target_ebs : string) : M unit :=
  match fuel with
  | O => out_of_fuel
  | S fuel' =>
      r <- call (DescribeVolumes target_ebs) ;;
      volumes <- volumes_of r ;;
      state <- index0 volumes ;;
      if String.eqb state "available" then ret tt
      else
        r' <- call (DescribeVolumes target_ebs) ;;
        volumes' <- volumes_of r' ;;
        volume_state <- index0 volumes' ;;
        print ("Volume " ++ target_ebs ++ " is still " ++ volume_state ++ "...") ;;
        sleep 10 ;;
        wait_available fuel' target_ebs
  end.

(** Second wait of [nuke_root_ebs]: until the provider rejects the query
    for the deleted volume. *)
Fixpoint wait_deleted (fuel : nat) (target_ebs : string) : M unit :=
  match fuel with
  | O => out_of_fuel
  | S fuel' =>
      done <-
        try_except
          (call (DescribeVolumes target_ebs) ;;
           print ("Waiting for " ++ target_ebs ++ " to die...") ;;
           ret false)
          (fun e => match e with
                    | ClientError =>
                        Some (print ("Successfully deleted " ++ target_ebs) ;; ret true)
                    | _ => None
                    end) ;;
      if done then ret tt else wait_deleted fuel' target_ebs
  end.

Definition nuke_root_ebs (fuel : nat) (instance : string) : M unit :=
  r <- call (DescribeInstances instance) ;;
  reservations <- reservations_of r ;;
  instances <- index0 reservations ;;
  desc <- index0 instances ;;
  target_ebs <- index0 (BlockDeviceMappings desc) ;;
  print (nl ++ "Detaching volume " ++ target_ebs ++ " from instance " ++ instance ++ "...") ;;
  call (DetachVolume instance target_ebs) ;;
  wait_available fuel target_ebs ;;
  print ("Volume " ++ target_ebs ++ " successfully detached") ;;
  print (nl ++ "Cleaning up volume " ++ target_ebs ++ "...") ;;
  call (DeleteVolume target_ebs) ;;
  wait_deleted fuel target_ebs.

Definition validate_ami_id : M unit :=
  print "Making sure requesed AMI is valid... " ;;
  match AMI_ID cfg with
  | None => raise TypeError     (* len(None) *)
  | Some ami =>
      mtch <-
        (if len ami =? 12 then ret (re_match_id "ami-" 8 ami)
         else if len ami =? 21 then ret (re_match_id "ami-" 17 ami)
         else sys_exit ("ERROR: AMI id-string [" ++ ami
                          ++ "] is not a valid length. Aborting...")) ;;
      match mtch with
      | None =>
          sys_exit ("ERROR: AMI id-string[" ++ ami
                      ++ "] contains invalid characters. Aborting...")
      | Some group0 =>
          if String.eqb ami group0 then
            try_except
              (call (DescribeImages ami) ;;
               print (tab ++ "Requested AMI is valid"))
              (fun e => match e with
                        | ClientError =>
                            Some (sys_exit ("ERROR: AMI " ++ ami ++ " not found. Aborting..."))
                        | _ => None
                        end)
          else sys_exit ("ERROR: AMI " ++ ami ++ " is an invalid value. Aborting...")
      end
  end.

Definition validate_provision_key : M unit :=
  try_except
    (call (DescribeKeyPairs (PROV_KEY cfg)) ;; ret tt)
    (fun e => match e with
              | ClientError =>
                  Some (sys_exit ("ERROR: requested provisioning-key [" ++ PROV_KEY cfg
                                    ++ "] not found. Aborting..."))
              | _ => None
              end).

(** [while len(security_group_list) > 5: print(... pop() ...)].  Each
    iteration shortens the list, so [budget] iterations suffice for a list
    of [budget] entries: at [O] the list is empty and the loop condition
    is false. *)
Fixpoint trim_loop (budget : nat) (security_group_list : list string)
  : M (list string) :=
  match budget with
  | O => ret security_group_list
  | S budget' =>
      if (5 <? List.length security_group_list)%nat then
        print ("Removing " ++ last security_group_list "" ++ "from list...") ;;
        trim_loop budget' (removelast security_group_list)
      else ret security_group_list
  end.

Definition trim_security_groups (security_group_list : list string)
  : M (list string) :=
  trim_loop (List.length security_group_list) security_group_list.

(** The body of the validation loop, for one entry of the list. *)
Definition check_security_group (security_group : string) : M unit :=
  mtch <-
    (if len security_group =? 11 then ret (re_match_id "sg-" 8 security_group)
     else if len security_group =? 20 then ret (re_match_id "sg-" 17 security_group)
     else sys_exit ("ERROR: requested security-group [" ++ security_group
                      ++ "] is not a valid string-length. Aborting...")) ;;
  match mtch with
  | None =>
      sys_exit ("ERROR: security-group [" ++ security_group
                  ++ "] contains invalid characters. Aborting...")
  | Some group0 =>
      if String.eqb security_group group0 then
        try_except
          (call (DescribeSecurityGroups security_group) ;; ret tt)
          (fun e => match e with
                    | ClientError =>
                        Some (sys_exit ("ERROR: Requested security-group [" ++ security_group
                                          ++ "] does not exist. Aborting..."))
                    | _ => None
                    end)
      else ret tt
  end.

Fixpoint for_each {A} (l : list A) (body : A -> M unit) : M unit :=
  match l with
  | [] => ret tt
  | x :: l' => body x ;; for_each l' body
  end.

Definition validate_security_group : M (list string) :=
  print "Validating list of security-groups:" ;;
  security_group_list <-
    match SECURITY_GROUPS cfg with
    | Some groups => ret (split_on "," groups)
    | None => raise (AttributeError "split")     (* None.split(",") *)
    end ;;
  security_group_list <-
    (if (5 <? List.length security_group_list)%nat then
       print "List of security-groups too long. Truncating..." ;;
       trim_security_groups security_group_list
     else ret security_group_list) ;;
  for_each security_group_list check_security_group ;;
  ret security_group_list.

Definition validate_subnet (subnet_id : string) : M string :=
  subnet_struct <-
    try_except (call (DescribeSubnets subnet_id))
      (fun e => match e with
                | ClientError =>
                    Some (sys_exit (nl ++ "ERROR: Subnet " ++ subnet_id ++ " not found. Aborting..."))
                | _ => None
                end) ;;
  subnets <- subnets_of subnet_struct ;;
  index0 subnets.

(** ** The module body *)

Definition main (fuel : nat) : M unit :=
  (if USERDATA_BOOL cfg && truthy (USERDATA_FILE cfg) then
     sys_exit "ERROR: `-u` and `-U` are mutually-exclusive options"
   else ret tt) ;;
  USERDATA_CONTENT <-
    match USERDATA_FILE cfg with
    | Some file => if truthy (Some file)
                   then content <- userdata_read_file file ;; ret (Some content)
                   else ret None
    | None => ret None
    end ;;
  validate_ami_id ;;
  EC2_AZ <- validate_subnet (EC2_SUBNET cfg) ;;
  SECURITY_GROUP_LIST <- validate_security_group ;;
  validate_provision_key ;;
  SNAP_ATTRIBS <- ebs_snap_tags_to_attribs (SNAP_SEARCH_VAL cfg) ;;
  BUILD_AZ <- recovery_ec2_get_az EC2_AZ SNAP_ATTRIBS ;;
  RESTORED_EBS_INFO <- ebs_snap_reconstitute BUILD_AZ (EBS_TYPE cfg) SNAP_ATTRIBS ;;
  launched <- recovery_ec2_make EC2_AZ ;;
  instances <- instances_of launched ;;
  RECOVERY_HOST_INSTANCE_ID <- index0 instances ;;
  print_ (nl ++ "Launched instance (" ++ RECOVERY_HOST_INSTANCE_ID ++ "): ") ;;
  recovery_ec2_monitor_transition fuel RECOVERY_HOST_INSTANCE_ID "online" "ok" ;;
  recovery_ec2_stop RECOVERY_HOST_INSTANCE_ID ;;
  recovery_ec2_monitor_transition fuel RECOVERY_HOST_INSTANCE_ID "offline" "stopped" ;;
  nuke_root_ebs fuel RECOVERY_HOST_INSTANCE_ID ;;
  ebs_reconstitution_attach RECOVERY_HOST_INSTANCE_ID RESTORED_EBS_INFO ;;
  (if truthy (SECURITY_GROUPS cfg) then
     recovery_ec2_add_access RECOVERY_HOST_INSTANCE_ID SECURITY_GROUP_LIST
   else ret tt) ;;
  (match USERDATA_CONTENT with
   | Some content => userdata_inject RECOVERY_HOST_INSTANCE_ID content
   | None => ret tt
   end) ;;
  (if USERDATA_BOOL cfg then userdata_clone RECOVERY_HOST_INSTANCE_ID SNAP_ATTRIBS
   else ret tt) ;;
  (if POWER_ON cfg then
     recovery_ec2_power_on RECOVERY_HOST_INSTANCE_ID ;;
     recovery_ec2_monitor_transition fuel RECOVERY_HOST_INSTANCE_ID "online" "ok" ;;
     recovery_ec2_get_connect RECOVERY_HOST_INSTANCE_ID
   else ret tt).

(** ** Vocabulary of the properties *)

(** A request that creates a volume or launches an instance. *)
Definition provisions (r : request) : bool :=
  match r with
  | CreateVolume _ _ _ _ _ | RunInstances _ _ _ _ _ _ => true
  | _ => false
  end.

(** A request that attaches a volume. *)
Definition attaches (r : request) : bool :=
  match r with
  | AttachVolume _ _ _ => true
  | _ => false
  end.

(** A request that neither provisions nor attaches. *)
Definition quiet (r : request) : bool := negb (provisions r || attaches r).

(** A request that does not provision. *)
Definition settles (r : request) : bool := negb (provisions r).

(** A request that provisions does so in zone [zone]. *)
Definition in_zone (zone : string) (r : request) : bool :=
  match r with
  | CreateVolume az _ _ _ _ => String.eqb az zone
  | RunInstances _ _ _ _ az _ => String.eqb az zone
  | _ => true
  end.

(** An event whose request, if it is one, satisfies [P]. *)
Definition allowed (P : request -> bool) (e : event) : bool :=
  match e with
  | EvCall r _ => P r
  | _ => true
  end.

(** [clamp lo hi x]: [x] brought into the range from [lo] to [hi]. *)
Definition clamp (lo hi x : Z) : Z := Z.max lo (Z.min hi x).

(** The identifier format in the specification's words: the resource
    prefix, then 8 or 17 characters, each a digit or a letter from a to f. *)
Definition lower_hex (c : ascii) : Prop :=
  In c (list_ascii_of_string "0123456789abcdef").

Definition all_lower_hex (s : string) : Prop :=
  Forall lower_hex (list_ascii_of_string s).

Definition well_formed_id (prefix id : string) : Prop :=
  exists digits,
    id = prefix ++ digits /\
    (String.length digits = 8 \/ String.length digits = 17)%nat /\
    all_lower_hex digits.

Definition right_length (prefix id : string) : Prop :=
  len id = Z.of_nat (String.length prefix + 8) \/
  len id = Z.of_nat (String.length prefix + 17).

(** Text of ASCII characters only. *)
Definition ascii_only (s : string) : Prop :=
  Forall (fun c => (nat_of_ascii c < 128)%nat) (list_ascii_of_string s).

(** The provider's state after it has answered the existence queries for
    the security groups [groups], asked one after the other from [w]. *)
Fixpoint after_lookups (w : W) (groups : list string) : W :=
  match groups with
  | [] => w
  | sg :: rest => after_lookups (snd (client w (DescribeSecurityGroups sg))) rest
  end.

(** The provider confirms each of the security groups [groups], asked one
    after the other from [w]. *)
Fixpoint all_confirmed (w : W) (groups : list string) : Prop :=
  match groups with
  | [] => True
  | sg :: rest =>
      fst (client w (DescribeSecurityGroups sg)) <> None /\
      all_confirmed (snd (client w (DescribeSecurityGroups sg))) rest
  end.

(** The messages of the two identifier validators. *)
Definition ami_bad_length (ami : string) : string :=
  "ERROR: AMI id-string [" ++ ami ++ "] is not a valid length. Aborting...".
Definition ami_bad_characters (ami : string) : string :=
  "ERROR: AMI id-string[" ++ ami ++ "] contains invalid characters. Aborting...".
Definition ami_not_found (ami : string) : string :=
  "ERROR: AMI " ++ ami ++ " not found. Aborting...".
Definition sg_bad_length (sg : string) : string :=
  "ERROR: requested security-group [" ++ sg ++ "] is not a valid string-length. Aborting...".
Definition sg_bad_characters (sg : string) : string :=
  "ERROR: security-group [" ++ sg ++ "] contains invalid characters. Aborting...".
Definition sg_not_found (sg : string) : string :=
  "ERROR: Requested security-group [" ++ sg ++ "] does not exist. Aborting...".

(** The attribute record made of the snapshot has an entry named [key]:
    the snapshot carries a tag of that name, or the name is that of the
    size entry. *)
Definition carries (key : string) (info : snapshot_info) : bool :=
  String.eqb key "VolumeSize"
  || existsb (fun tag => String.eqb (fst tag) key) (Tags info).

(** A request other than the snapshot query. *)
Definition before_batch (r : request) : bool :=
  match r with
  | DescribeSnapshots _ _ => false
  | _ => true
  end.

(** The snapshot query of a run, answered with the batch [snapshots]. *)
Definition batch_answered (snapshots : list snapshot_info) : event :=
  EvCall (DescribeSnapshots ("tag:" ++ SNAP_SEARCH_TAG cfg) (SNAP_SEARCH_VAL cfg))
         (Some (RSnapshots snapshots)).

(** The message for a volume kind the script does not know. *)
Definition unsupported_message (ebs_type : string) : string :=
  "ERROR: requested volume-type " ++ dquote ++ ebs_type ++ dquote
    ++ " not currently supported. Aborting... ".

(** The notice printed for a security group dropped from the list. *)
Definition removal_notice (dropped : string) : event :=
  EvPrint ("Removing " ++ dropped ++ "from list..." ++ nl).

(** A request that neither creates a volume nor attaches one. *)
Definition uninvolved (r : request) : bool :=
  match r with
  | CreateVolume _ _ _ _ _ | AttachVolume _ _ _ => false
  | _ => true
  end.

(** The value of the first tag named [key]. *)
Fixpoint tag_value (key : string) (tags : list (string * string)) : option string :=
  match tags with
  | [] => None
  | (k, v) :: tags' => if String.eqb k key then Some v else tag_value key tags'
  end.

(** The volumes a log shows created: for each answered create-volume
    request, the snapshot, the original-attachment tag it asked for, and
    the identifier of the new volume. *)
Definition creations (l : list event) : list (string * option string * string) :=
  flat_map (fun e => match e with
                     | EvCall (CreateVolume _ _ snapshot tags _) (Some (RVolume v)) =>
                         [(snapshot, tag_value "Original Attachment" tags, VolumeId v)]
                     | _ => []
                     end) l.

(** The attachments a log shows requested: device path and volume. *)
Definition attachments (l : list event) : list (string * string) :=
  flat_map (fun e => match e with
                     | EvCall (AttachVolume device _ volume) _ => [(device, volume)]
                     | _ => []
                     end) l.

(** The instances a log shows launched: for each answered launch, the
    first instance of the answer, which is the one the run goes on with. *)
Definition launches (l : list event) : list string :=
  flat_map (fun e => match e with
                     | EvCall (RunInstances _ _ _ _ _ _)
                              (Some (RInstances (instance :: _))) => [instance]
                     | _ => []
                     end) l.

(** The instance that each attachment request of a log names. *)
Definition attached_to (l : list event) : list string :=
  flat_map (fun e => match e with
                     | EvCall (AttachVolume _ instance _) _ => [instance]
                     | _ => []
                     end) l.

(** Every attachment of the log is to the one instance the log shows
    launched. *)
Definition to_launched (l : list event) : Prop :=
  forall instance, In instance (attached_to l) -> launches l = [instance].

(** A request that neither launches an instance nor attaches a volume. *)
Definition bystander (r : request) : bool :=
  match r with
  | RunInstances _ _ _ _ _ _ | AttachVolume _ _ _ => false
  | _ => true
  end.

(** A request that launches nothing and, if it attaches a volume,
    attaches it to [instance]. *)
Definition serves (instance : string) (r : request) : bool :=
  match r with
  | RunInstances _ _ _ _ _ _ => false
  | AttachVolume _ i _ => String.eqb i instance
  | _ => true
  end.

(** The original device of a snapshot: the value of its tag of the name
    the command line selects (Original Attachment by default); should the
    provider list several tags of that name, the last one. *)
Definition device_tag (info : snapshot_info) : option string :=
  tag_value (SNAP_DEV_TAG cfg) (rev (Tags info)).

(** The original device a snapshot's attribute record names, under the
    tag the command line selects (Original Attachment by default). *)
Definition original_device (attrs : dict attr_val) : option string :=
  match dict_get (SNAP_DEV_TAG cfg) attrs with
  | Some (VStr device) => Some device
  | _ => None
  end.

(** A result that shows a volume created only if it is a return. *)
Definition creates_only_if_returns {A} (r : result A) : Prop :=
  (exists a, out r = Ret a) \/ creations (log r) = [].

(** The tallies of a run that may have stopped anywhere: the volumes
    created so far are those of the first records of the batch, in order,
    and the attachments made so far are of the first of these volumes, in
    order, each at the device it was tagged with. *)
Definition orderly (expected : list (string * option string))
    (created : list (string * option string * string))
    (attached : list (string * string)) : Prop :=
  (exists n, map fst created = firstn n expected) /\
  (exists m, map (fun a => (Some (fst a), snd a)) attached
             = firstn m (map (fun c => (snd (fst c), snd c)) created)).

(** An event other than a sleep. *)
Definition awake (e : event) : bool :=
  match e with
  | EvSleep _ => false
  | _ => true
  end.

(** The run stopped by [sys.exit] or by an uncaught exception. *)
Definition aborted (h : halt) : Prop :=
  match h with
  | Exit _ | Raise _ => True
  | OutOfFuel => False
  end.

Definition anyhow (h : halt) : Prop := True.
Definition anything {A} (a : A) : Prop := True.
Definition nothing {A} (a : A) : Prop := False.

(** From every world, [m] issues only requests allowed by [P], returns
    only values in [R] and halts only in ways in [H]. *)
Definition triple {A} (m : M A) (P : request -> bool)
    (R : A -> Prop) (H : halt -> Prop) : Prop :=
  forall w,
    forallb (allowed P) (log (m w)) = true /\
    match out (m w) with
    | Ret a => R a
    | Halt h => H h
    end.

(** The requests of a log, in order. *)
Definition requests (l : list event) : list request :=
  flat_map (fun e => match e with
                     | EvCall r _ => [r]
                     | _ => []
                     end) l.

(** The sleeps of a log, in order. *)
Definition sleeps (l : list event) : list Z :=
  flat_map (fun e => match e with
                     | EvSleep n => [n]
                     | _ => []
                     end) l.

(** The rhythm of a polling loop: a [true] for each of its polls, a
    [false] for each sleep. *)
Definition rhythm (poll : request -> bool) (l : list event) : list bool :=
  flat_map (fun e => match e with
                     | EvCall r _ => if poll r then [true] else []
                     | EvSleep _ => [false]
                     | EvPrint _ => []
                     end) l.

Definition is_status_poll (r : request) : bool :=
  match r with
  | DescribeInstanceStatus _ => true
  | _ => false
  end.

Definition is_volume_poll (r : request) : bool :=
  match r with
  | DescribeVolumes _ => true
  | _ => false
  end.

(** The state [recovery_ec2_check_state] reports for an instance and the
    list of its status entries. *)
Definition reported_state (instance : instance_desc) (statuses : list string)
  : string :=
  if String.eqb (StateName instance) "running"
  then hd "TRANSITIONING" statuses
  else StateName instance.

(** An exception raised by reading a response: a missing key or an empty
    list. *)
Definition misread (h : halt) : Prop :=
  match h with
  | Raise (KeyError _) | Raise IndexError => True
  | _ => False
  end.

(** Every event of every log of [m] satisfies [Q]. *)
Definition emits {A} (m : M A) (Q : event -> bool) : Prop :=
  forall w, forallb Q (log (m w)) = true.

(** An event that is neither a poll nor a sleep. *)
Definition offbeat (poll : request -> bool) (e : event) : bool :=
  match e with
  | EvCall r _ => negb (poll r)
  | EvSleep _ => false
  | EvPrint _ => true
  end.

(** What [recovery_ec2_check_state] raises: the ValueError it makes of a
    rejected query, or an exception from reading the answers. *)
Definition unsettled (h : halt) : Prop :=
  match h with
  | Raise (ValueError _) | Raise (KeyError _) | Raise IndexError => True
  | _ => False
  end.

(** One iteration of [recovery_ec2_monitor_transition]: [true] when the
    loop breaks. *)
Definition monitor_round (ec2_id target_state target_status : string) : M bool :=
  try_except
    (ec2_state <- recovery_ec2_check_state ec2_id ;;
     if String.eqb ec2_state target_status then ret true
     else
       print_ ("Waiting for " ++ ec2_id) ;;
       print_ (" to reach " ++ target_state ++ "... ") ;;
       sleep 10 ;;
       ret false)
    (fun e => match e with
              | ValueError _ => Some (print "pending" ;; sleep 10 ;; ret false)
              | _ => None
              end).

(** A request of the validation steps: it looks up an image, a subnet, a
    security group, a key pair or the snapshots. *)
Definition inquiry (r : request) : bool :=
  match r with
  | DescribeImages _ | DescribeSubnets _ | DescribeSecurityGroups _
  | DescribeKeyPairs _ | DescribeSnapshots _ _ => true
  | _ => false
  end.

Definition is_create (r : request) : bool :=
  match r with
  | CreateVolume _ _ _ _ _ => true
  | _ => false
  end.

Definition is_launch (r : request) : bool :=
  match r with
  | RunInstances _ _ _ _ _ _ => true
  | _ => false
  end.

(** A request of the steps after the launch: neither a validation
    lookup nor a creation nor a launch. *)
Definition aftercare (r : request) : bool :=
  negb (inquiry r || provisions r).

(** The requests the command line enables: the instance is started only
    with the power-on flag, the source instance's user data is read only
    with the clone flag, user data is set only with the clone or the file
    flag, and the security groups are changed only with a non-empty group
    list. *)
Definition enabled (r : request) : bool :=
  match r with
  | StartInstances _ => POWER_ON cfg
  | DescribeInstanceAttribute _ _ => USERDATA_BOOL cfg
  | ModifyInstanceUserData _ _ => USERDATA_BOOL cfg || truthy (USERDATA_FILE cfg)
  | ModifyInstanceGroups _ _ => truthy (SECURITY_GROUPS cfg)
  | _ => true
  end.

(** A request that names an instance to act on or to describe names
    [instance]. *)
Definition about_instance (instance : string) (r : request) : bool :=
  match r with
  | DescribeInstanceStatus i | DescribeInstances i | StartInstances i
  | StopInstances i | DetachVolume i _ | AttachVolume _ i _
  | ModifyInstanceGroups _ i | ModifyInstanceUserData i _ => String.eqb i instance
  | _ => true
  end.

(** A create-volume request, if it is one, was answered with a volume. *)
Definition answered (e : event) : bool :=
  match e with
  | EvCall (CreateVolume _ _ _ _ _) (Some (RVolume _)) => true
  | EvCall (CreateVolume _ _ _ _ _) _ => false
  | _ => true
  end.

(** The three stages of a run: the validation lookups, then the volume
    creations, then everything else, which begins with the one launch and
    is reached only when every creation was answered with a volume. *)
Definition staged (l : list event) : Prop :=
  exists lookups creations rest,
    l = (lookups ++ creations ++ rest)%list /\
    forallb (allowed inquiry) lookups = true /\
    forallb (allowed is_create) creations = true /\
    (requests rest = [] \/
     exists launch others,
       requests rest = launch :: others /\
       is_launch launch = true /\
       forallb aftercare others = true /\
       forallb answered creations = true).

(** The module body in three parts: the steps after the launch, for the
    instance that was launched; the steps from the choice of the zone on;
    and the steps from the validation of the image on. *)
Definition after_launch (fuel : nat) (instance : string)
    (RESTORED_EBS_INFO : list volume_info) (SECURITY_GROUP_LIST : list string)
    (USERDATA_CONTENT : option string) (SNAP_ATTRIBS : dict (dict attr_val))
  : M unit :=
  print_ (nl ++ "Launched instance (" ++ instance ++ "): ") ;;
  recovery_ec2_monitor_transition fuel instance "online" "ok" ;;
  recovery_ec2_stop instance ;;
  recovery_ec2_monitor_transition fuel instance "offline" "stopped" ;;
  nuke_root_ebs fuel instance ;;
  ebs_reconstitution_attach instance RESTORED_EBS_INFO ;;
  (if truthy (SECURITY_GROUPS cfg) then
     recovery_ec2_add_access instance SECURITY_GROUP_LIST
   else ret tt) ;;
  (match USERDATA_CONTENT with
   | Some content => userdata_inject instance content
   | None => ret tt
   end) ;;
  (if USERDATA_BOOL cfg then userdata_clone instance SNAP_ATTRIBS
   else ret tt) ;;
  (if POWER_ON cfg then
     recovery_ec2_power_on instance ;;
     recovery_ec2_monitor_transition fuel instance "online" "ok" ;;
     recovery_ec2_get_connect instance
   else ret tt).

Definition rebuild (fuel : nat) (EC2_AZ : string)
    (SECURITY_GROUP_LIST : list string) (USERDATA_CONTENT : option string)
    (SNAP_ATTRIBS : dict (dict attr_val)) : M unit :=
  BUILD_AZ <- recovery_ec2_get_az EC2_AZ SNAP_ATTRIBS ;;
  RESTORED_EBS_INFO <- ebs_snap_reconstitute BUILD_AZ (EBS_TYPE cfg) SNAP_ATTRIBS ;;
  launched <- recovery_ec2_make EC2_AZ ;;
  instances <- instances_of launched ;;
  RECOVERY_HOST_INSTANCE_ID <- index0 instances ;;
  after_launch fuel RECOVERY_HOST_INSTANCE_ID RESTORED_EBS_INFO
               SECURITY_GROUP_LIST USERDATA_CONTENT SNAP_ATTRIBS.

Definition checked_run (fuel : nat) (USERDATA_CONTENT : option string) : M unit :=
  validate_ami_id ;;
  EC2_AZ <- validate_subnet (EC2_SUBNET cfg) ;;
  SECURITY_GROUP_LIST <- validate_security_group ;;
  validate_provision_key ;;
  SNAP_ATTRIBS <- ebs_snap_tags_to_attribs (SNAP_SEARCH_VAL cfg) ;;
  rebuild fuel EC2_AZ SECURITY_GROUP_LIST USERDATA_CONTENT SNAP_ATTRIBS.

(** The security groups the validation keeps of the command line's
    list. *)
Definition kept_groups (groups : list string) : Prop :=
  exists flag,
    SECURITY_GROUPS cfg = Some flag /\ groups = firstn 5 (split_on "," flag).

(** User data that was read from the file the command line names. *)
Definition from_file (content : option string) : Prop :=
  forall text,
    content = Some text ->
    exists file, USERDATA_FILE cfg = Some file /\ file <> "".

(** A create-volume request as [ebs_snap_reconstitute] makes it for the
    zone [build_az] and the kind [ebs_type]: it names that zone and that
    kind, carries an IOPS figure for io1 only, between 100 and 64000, and
    sets the two provenance tags, under their fixed keys. *)
Definition well_made (build_az ebs_type : string) (r : request) : bool :=
  match r with
  | CreateVolume az iops _ tags kind =>
      String.eqb az build_az && String.eqb kind ebs_type &&
      match iops with
      | Some n => String.eqb ebs_type "io1" && (100 <=? n) && (n <=? 64000)
      | None => String.eqb ebs_type "gp2"
      end &&
      match tags with
      | [(k1, _); (k2, _)] =>
          String.eqb k1 "Original Instance" && String.eqb k2 "Original Attachment"
      | _ => false
      end
  | _ => false
  end.

(** The messages of [validate_io1_config]. *)
Definition too_small_message (snap_size : Z) : string :=
  "Requested volume-size [" ++ str_of_int snap_size
    ++ "] is less than minimum allowed [4].".
Definition no_ratio_message : string :=
  "Specified EBS-type " ++ EBS_TYPE cfg
    ++ " but failed to specify an IOPs-ratio. Aborting...".
Definition ratio_range_message : string := "Value out of range: must be 3-50".

(** A request to change security groups, if it is one, sets [target]. *)
Definition sets_groups (target : list string) (r : request) : bool :=
  match r with
  | ModifyInstanceGroups groups _ =>
      if list_eq_dec string_dec groups target then true else false
  | _ => true
  end.

(** A request to set user data, if it is one, sets [target]. *)
Definition sets_user_data (target : string) (r : request) : bool :=
  match r with
  | ModifyInstanceUserData _ content => String.eqb content target
  | _ => true
  end.

(** No request at all. *)
Definition no_request (r : request) : bool := false.

(** The message of the last branch of [validate_ami_id]. *)
Definition ami_invalid_value (ami : string) : string :=
  "ERROR: AMI " ++ ami ++ " is an invalid value. Aborting...".

(** ** Rules for [triple] *)

Unset Implicit Arguments.

Lemma triple_ret {A} (a : A) P (R : A -> Prop) H :
  R a -> triple (ret a) P R H.
Proof. intros Ha w. simpl. auto. Qed.

Lemma triple_halt {A} h P (R : A -> Prop) (H : halt -> Prop) :
  H h -> triple (halt_with h) P R H.
Proof. intros Hh w. simpl. auto. Qed.

Lemma triple_tell e P (R : unit -> Prop) H :
  allowed P e = true -> R tt -> triple (tell e) P R H.
Proof. intros He Ht w. simpl. rewrite He. auto. Qed.

Lemma triple_call r P (R : response -> Prop) (H : halt -> Prop) :
  P r = true ->
  (forall w x, fst (client w r) = Some x -> R x) ->
  ((exists w, fst (client w r) = None) -> H (Raise ClientError)) ->
  triple (call r) P R H.
Proof.
  intros HP HR HH w. unfold call.
  destruct (client w r) as [a w'] eqn:E. simpl. rewrite HP. split; [reflexivity|].
  destruct a as [x|].
  - apply (HR w). rewrite E. reflexivity.
  - apply HH. exists w. rewrite E. reflexivity.
Qed.

Lemma triple_bind {A B} (m : M A) (f : A -> M B) P R R' H :
  triple m P R H ->
  (forall a, R a -> triple (f a) P R' H) ->
  triple (bind m f) P R' H.
Proof.
  intros Hm Hf w. unfold bind.
  destruct (Hm w) as [Hl Ho].
  destruct (out (m w)) as [a|h]; simpl.
  - destruct (Hf a Ho (world (m w))) as [Hl' Ho'].
    rewrite forallb_app, Hl, Hl'. auto.
  - auto.
Qed.

Lemma triple_try {A} (m : M A) hd P R (H : halt -> Prop) :
  triple m P R H ->
  (forall e k, hd e = Some k -> triple k P R H) ->
  triple (try_except m hd) P R H.
Proof.
  intros Hm Hk w. unfold try_except.
  destruct (Hm w) as [Hl Ho].
  destruct (out (m w)) as [a|[msg|e|]] eqn:E; try (rewrite E; auto).
  destruct (hd e) as [k|] eqn:Ek.
  - destruct (Hk e k Ek (world (m w))) as [Hl' Ho']. simpl.
    rewrite forallb_app, Hl, Hl'. auto.
  - rewrite E. auto.
Qed.

Lemma triple_weaken {A} (m : M A) (P P' : request -> bool)
    (R R' : A -> Prop) (H H' : halt -> Prop) :
  triple m P R H ->
  (forall r, P r = true -> P' r = true) ->
  (forall a, R a -> R' a) ->
  (forall h, H h -> H' h) ->
  triple m P' R' H'.
Proof.
  intros Hm HP HR HH w. destruct (Hm w) as [Hl Ho]. split.
  - rewrite forallb_forall in *. intros e He. specialize (Hl e He).
    destruct e; simpl in *; auto.
  - destruct (out (m w)); auto.
Qed.

(** ** Running a computation step by step *)

Lemma run_bind_ret {A B} (m : M A) (f : A -> M B) w a w' l o w'' l' :
  m w = {| out := Ret a; world := w'; log := l |} ->
  f a w' = {| out := o; world := w''; log := l' |} ->
  bind m f w = {| out := o; world := w''; log := (l ++ l')%list |}.
Proof. intros Hm Hf. unfold bind. rewrite Hm. simpl. rewrite Hf. reflexivity. Qed.

Lemma run_bind_halt {A B} (m : M A) (f : A -> M B) w h w' l :
  m w = {| out := Halt h; world := w'; log := l |} ->
  bind m f w = {| out := Halt h; world := w'; log := l |}.
Proof. intros Hm. unfold bind. rewrite Hm. reflexivity. Qed.

Lemma run_try_ret {A} (m : M A) hd w a w' l :
  m w = {| out := Ret a; world := w'; log := l |} ->
  try_except m hd w = {| out := Ret a; world := w'; log := l |}.
Proof. intros Hm. unfold try_except. rewrite Hm. reflexivity. Qed.

Lemma run_try_handled {A} (m : M A) hd w e k w' l o w'' l' :
  m w = {| out := Halt (Raise e); world := w'; log := l |} ->
  hd e = Some k ->
  k w' = {| out := o; world := w''; log := l' |} ->
  try_except m hd w = {| out := o; world := w''; log := (l ++ l')%list |}.
Proof.
  intros Hm Hk Hr. unfold try_except. rewrite Hm. simpl. rewrite Hk, Hr. reflexivity.
Qed.

Lemma run_try_passed {A} (m : M A) hd w h w' l :
  m w = {| out := Halt h; world := w'; log := l |} ->
  match h with Raise e => hd e = None | _ => True end ->
  try_except m hd w = {| out := Halt h; world := w'; log := l |}.
Proof.
  intros Hm Hh. unfold try_except. rewrite Hm. simpl.
  destruct h as [msg|e|]; try reflexivity. rewrite Hh. reflexivity.
Qed.

Lemma run_call_ok r w x w' :
  client w r = (Some x, w') ->
  call r w = {| out := Ret x; world := w'; log := [EvCall r (Some x)] |}.
Proof. intros Hc. unfold call. rewrite Hc. reflexivity. Qed.

Lemma run_call_rejected r w w' :
  client w r = (None, w') ->
  call r w = {| out := Halt (Raise ClientError); world := w'; log := [EvCall r None] |}.
Proof. intros Hc. unfold call. rewrite Hc. reflexivity. Qed.

Lemma run_getitem {V} (d : dict V) k v w :
  dict_get k d = Some v ->
  getitem d k w = {| out := Ret v; world := w; log := [] |}.
Proof. intros Hk. unfold getitem. rewrite Hk. reflexivity. Qed.

Lemma bind_cases {A B} (m : M A) (f : A -> M B) (w : W) :
  (exists a,
      out (m w) = Ret a /\
      out (bind m f w) = out (f a (world (m w))) /\
      log (bind m f w) = (log (m w) ++ log (f a (world (m w))))%list) \/
  (exists h,
      out (m w) = Halt h /\
      out (bind m f w) = Halt h /\
      log (bind m f w) = log (m w)).
Proof.
  unfold bind. destruct (out (m w)) as [a|h]; cbn [out log]; eauto 6.
Qed.

Lemma out_bind {A B} (m : M A) (f : A -> M B) (w : W) :
  out (bind m f w)
  = match out (m w) with
    | Ret a => out (f a (world (m w)))
    | Halt h => Halt h
    end.
Proof. unfold bind. destruct (out (m w)); reflexivity. Qed.

Lemma world_bind {A B} (m : M A) (f : A -> M B) (w : W) :
  world (bind m f w)
  = match out (m w) with
    | Ret a => world (f a (world (m w)))
    | Halt h => world (m w)
    end.
Proof. unfold bind. destruct (out (m w)); reflexivity. Qed.

(** Runs a chain whose first step's result is known: by computation, by
    a hypothesis, or by a dictionary lookup that a hypothesis settles. *)
Ltac run_known :=
  first [ eassumption
        | apply run_getitem; eassumption
        | reflexivity ].

Ltac run_chain :=
  cbv beta;
  lazymatch goal with
  | |- bind _ _ _ = _ =>
      first [ eapply run_bind_ret; [solve [run_chain] | run_chain]
            | eapply run_bind_halt; solve [run_chain] ]
  | |- try_except _ _ _ = _ =>
      first [ eapply run_try_ret; solve [run_chain]
            | eapply run_try_handled; [solve [run_chain] | reflexivity | run_chain]
            | eapply run_try_passed; [solve [run_chain] | solve [exact I | reflexivity]] ]
  | |- _ => run_known
  end.

Lemma quiet_in_zone zone r : quiet r = true -> in_zone zone r = true.
Proof. destruct r; simpl; auto; discriminate. Qed.

(** One syntax-directed step of a [triple] proof that asks nothing of the
    returned values. *)
Ltac triple_step :=
  match goal with
  | |- triple (bind _ _) _ _ _ => eapply triple_bind with (R := anything); [|intros ? _]
  | |- triple (ret _) _ _ _ => apply triple_ret
  | |- triple (halt_with _) _ _ _ => apply triple_halt
  | |- triple (sys_exit _) _ _ _ => apply triple_halt
  | |- triple (raise _) _ _ _ => apply triple_halt
  | |- triple out_of_fuel _ _ _ => apply triple_halt
  | |- triple (tell _) _ _ _ => apply triple_tell
  | |- triple (print _) _ _ _ => apply triple_tell
  | |- triple (print_ _) _ _ _ => apply triple_tell
  | |- triple (sleep _) _ _ _ => apply triple_tell
  | |- triple (call _) _ _ _ => apply triple_call
  | |- triple (try_except _ _) _ _ _ =>
      apply triple_try; [|let e := fresh "e" in
                          intros e ? ?; destruct e; try discriminate;
                          match goal with
                          | Hk : Some _ = Some _ |- _ => injection Hk as <-
                          end]
  | |- triple (match ?x with _ => _ end) _ _ _ => destruct x eqn:?
  end.

Ltac triple_auto :=
  repeat (triple_step ||
          match goal with
          | |- anything _ => exact I
          | |- anyhow _ => exact I
          | |- aborted _ => exact I
          | |- _ = true =>
              first [ reflexivity
                    | simpl; apply String.eqb_refl
                    | solve [auto] ]
          | |- _ -> _ => intro
          end).

(** ** The steps before the volumes are rebuilt ask, they do not provision *)

Lemma index0_triple {A} (l : list A) P H :
  H (Raise IndexError) -> triple (index0 l) P anything H.
Proof. intros. unfold index0. triple_auto. assumption. Qed.

Lemma getitem_triple {V} (d : dict V) k P H :
  H (Raise (KeyError k)) -> triple (getitem d k) P anything H.
Proof. intros. unfold getitem. triple_auto. assumption. Qed.

Lemma validate_ami_id_quiet : triple validate_ami_id quiet anything aborted.
Proof. unfold validate_ami_id. triple_auto. Qed.

Lemma validate_subnet_quiet subnet_id :
  triple (validate_subnet subnet_id) quiet anything aborted.
Proof.
  unfold validate_subnet, subnets_of. triple_auto.
  apply index0_triple. exact I.
Qed.

Lemma trim_loop_quiet budget l : triple (trim_loop budget l) quiet anything aborted.
Proof.
  revert l. induction budget as [|budget IH]; intros l; simpl.
  - triple_auto.
  - triple_auto. apply IH.
Qed.

Lemma check_security_group_quiet security_group :
  triple (check_security_group security_group) quiet anything aborted.
Proof. unfold check_security_group. triple_auto. Qed.

Lemma for_each_quiet {A} (l : list A) body :
  (forall x, triple (body x) quiet anything aborted) ->
  triple (for_each l body) quiet anything aborted.
Proof.
  intros Hb. induction l as [|x l IH]; simpl; triple_auto; auto.
Qed.

Lemma validate_security_group_quiet :
  triple validate_security_group quiet anything aborted.
Proof.
  unfold validate_security_group, trim_security_groups. triple_auto.
  - apply trim_loop_quiet.
  - apply for_each_quiet, check_security_group_quiet.
Qed.

Lemma validate_provision_key_quiet :
  triple validate_provision_key quiet anything aborted.
Proof. unfold validate_provision_key. triple_auto. Qed.

Lemma userdata_read_file_quiet file :
  triple (userdata_read_file file) quiet anything aborted.
Proof.
  intros w. unfold userdata_read_file.
  destruct (read_file w file); simpl; split; solve [reflexivity | exact I].
Qed.

Lemma dict_set_nonempty {V} k (v : V) d : dict_set k v d <> [].
Proof. destruct d as [|[k' v'] d]; simpl; [|destruct (String.eqb k k')]; discriminate. Qed.

Lemma attribs_nonempty (snaps : list snapshot_info) acc :
  (snaps <> [] \/ acc <> []) ->
  fold_left (fun (ret' : dict (dict attr_val)) info =>
               dict_set (SnapshotId info) (snap_attributes_of info) ret')
            snaps acc <> [].
Proof.
  revert acc. induction snaps as [|s snaps IH]; intros acc Hne; simpl.
  - destruct Hne as [Hne|Hne]; [congruence | exact Hne].
  - apply IH. right. apply dict_set_nonempty.
Qed.

Lemma ebs_get_snap_info_quiet value :
  triple (ebs_get_snap_info value) quiet (fun snaps => snaps <> []) aborted.
Proof.
  unfold ebs_get_snap_info, snapshots_of. triple_auto. discriminate.
Qed.

Lemma ebs_snap_tags_to_attribs_quiet value :
  triple (ebs_snap_tags_to_attribs value) quiet (fun attrs => attrs <> []) aborted.
Proof.
  unfold ebs_snap_tags_to_attribs.
  eapply triple_bind; [apply ebs_get_snap_info_quiet|].
  intros snaps Hne. apply triple_ret. apply attribs_nonempty. left. exact Hne.
Qed.

Lemma recovery_ec2_get_az_quiet ec2_az attrs :
  triple (recovery_ec2_get_az ec2_az attrs) quiet anything aborted.
Proof.
  unfold recovery_ec2_get_az, getitem, concat_str. triple_auto.
Qed.

(** The module body is a chain of steps; once a step is known never to
    return, the rest of the chain does not matter. *)
Ltac chain_step lemma :=
  eapply triple_bind with (R := anything); [solve [lemma] | intros ? _].

Lemma prelude_quiet :
  triple (if USERDATA_BOOL cfg && truthy (USERDATA_FILE cfg)
          then sys_exit "ERROR: `-u` and `-U` are mutually-exclusive options"
          else ret tt) quiet anything aborted.
Proof. triple_auto. Qed.

Lemma userdata_content_quiet :
  triple (match USERDATA_FILE cfg with
          | Some file => if truthy (Some file)
                         then content <- userdata_read_file file ;; ret (Some content)
                         else ret None
          | None => ret None
          end) quiet anything aborted.
Proof. triple_auto. apply userdata_read_file_quiet. Qed.

Lemma triple_run {A} (m : M A) P H :
  triple m P nothing H ->
  forall w, forallb (allowed P) (log (m w)) = true /\
            exists h, out (m w) = Halt h /\ H h.
Proof.
  intros Hm w. destruct (Hm w) as [Hl Ho]. split; [exact Hl|].
  destruct (out (m w)) as [a|h]; [destruct Ho | eauto].
Qed.

(** ** C8: an empty snapshot inventory *)

Lemma ebs_get_snap_info_empty value :
  (forall w, fst (client w (DescribeSnapshots ("tag:" ++ SNAP_SEARCH_TAG cfg) value))
             = Some (RSnapshots [])) ->
  forall w,
    ebs_get_snap_info value w
    = {| out := Halt (Exit "Found no matching snapshots to reconstitute: aborting");
         world := snd (client w (DescribeSnapshots ("tag:" ++ SNAP_SEARCH_TAG cfg) value));
         log := [EvCall (DescribeSnapshots ("tag:" ++ SNAP_SEARCH_TAG cfg) value)
                        (Some (RSnapshots []))] |}.
Proof.
  intros Hempty w. specialize (Hempty w).
  unfold ebs_get_snap_info, bind, call.
  destruct (client w _) as [a w']. simpl in *. subst a. reflexivity.
Qed.

Lemma ebs_snap_tags_to_attribs_empty :
  (forall w, fst (client w (DescribeSnapshots ("tag:" ++ SNAP_SEARCH_TAG cfg)
                                              (SNAP_SEARCH_VAL cfg)))
             = Some (RSnapshots [])) ->
  triple (ebs_snap_tags_to_attribs (SNAP_SEARCH_VAL cfg)) quiet nothing aborted.
Proof.
  intros Hempty w. unfold ebs_snap_tags_to_attribs, bind.
  rewrite (ebs_get_snap_info_empty _ Hempty). simpl. auto.
Qed.

(** C8. If the provider answers the snapshot query for the grouping tag
    with an empty list, [ebs_get_snap_info] exits at once with the
    no-snapshots message, having issued nothing but the query; and the
    whole run aborts without ever requesting a volume or an instance. *)
Theorem C8_empty_inventory_stops_the_run :
  (forall w, fst (client w (DescribeSnapshots ("tag:" ++ SNAP_SEARCH_TAG cfg)
                                              (SNAP_SEARCH_VAL cfg)))
             = Some (RSnapshots [])) ->
  (forall w,
      out (ebs_get_snap_info (SNAP_SEARCH_VAL cfg) w)
      = Halt (Exit "Found no matching snapshots to reconstitute: aborting") /\
      log (ebs_get_snap_info (SNAP_SEARCH_VAL cfg) w)
      = [EvCall (DescribeSnapshots ("tag:" ++ SNAP_SEARCH_TAG cfg) (SNAP_SEARCH_VAL cfg))
                (Some (RSnapshots []))]) /\
  (forall fuel w,
      forallb (allowed quiet) (log (main fuel w)) = true /\
      exists h, out (main fuel w) = Halt h /\ aborted h).
Proof.
  intros Hempty. split.
  - intros w. rewrite (ebs_get_snap_info_empty _ Hempty). auto.
  - intros fuel. apply triple_run. unfold main.
    chain_step ltac:(apply prelude_quiet).
    chain_step ltac:(apply userdata_content_quiet).
    chain_step ltac:(apply validate_ami_id_quiet).
    chain_step ltac:(apply validate_subnet_quiet).
    chain_step ltac:(apply validate_security_group_quiet).
    chain_step ltac:(apply validate_provision_key_quiet).
    eapply triple_bind with (R := nothing);
      [apply ebs_snap_tags_to_attribs_empty, Hempty | intros ? []].
Qed.

(** ** C3: a run without security groups *)

Lemma validate_security_group_absent w :
  SECURITY_GROUPS cfg = None ->
  validate_security_group w
  = {| out := Halt (Raise (AttributeError "split"));
       world := w;
       log := [EvPrint ("Validating list of security-groups:" ++ nl)] |}.
Proof.
  intros Hnone. unfold validate_security_group, bind. rewrite Hnone. reflexivity.
Qed.

Lemma validate_security_group_blank w :
  SECURITY_GROUPS cfg = Some "" ->
  validate_security_group w
  = {| out := Halt (Exit "ERROR: requested security-group [] is not a valid string-length. Aborting...");
       world := w;
       log := [EvPrint ("Validating list of security-groups:" ++ nl)] |}.
Proof.
  intros Hblank. unfold validate_security_group, bind. rewrite Hblank. reflexivity.
Qed.

Lemma validate_security_group_falsy :
  truthy (SECURITY_GROUPS cfg) = false ->
  triple validate_security_group quiet nothing aborted.
Proof.
  intros Hfalsy w. unfold truthy in Hfalsy.
  destruct (SECURITY_GROUPS cfg) as [groups|] eqn:E.
  - destruct groups; [|discriminate].
    rewrite (validate_security_group_blank w E). simpl. auto.
  - rewrite (validate_security_group_absent w E). simpl. auto.
Qed.

(** C3 (what the script does instead).  When the security-group flag is
    absent, [validate_security_group] calls [split] on [None]: the run
    dies there with an AttributeError, and an empty flag value is refused
    as an identifier of invalid length.  Either way the run never returns
    and never requests a volume or an instance. *)
Theorem C3_no_security_groups_never_completes :
  truthy (SECURITY_GROUPS cfg) = false ->
  (SECURITY_GROUPS cfg = None ->
   forall w, out (validate_security_group w) = Halt (Raise (AttributeError "split"))) /\
  (forall fuel w,
      forallb (allowed quiet) (log (main fuel w)) = true /\
      exists h, out (main fuel w) = Halt h /\ aborted h).
Proof.
  intros Hfalsy. split.
  - intros Hnone w. rewrite (validate_security_group_absent w Hnone). reflexivity.
  - intros fuel. apply triple_run. unfold main.
    chain_step ltac:(apply prelude_quiet).
    chain_step ltac:(apply userdata_content_quiet).
    chain_step ltac:(apply validate_ami_id_quiet).
    chain_step ltac:(apply validate_subnet_quiet).
    eapply triple_bind with (R := nothing);
      [apply validate_security_group_falsy, Hfalsy | intros ? []].
Qed.

(** ** C4: the provisioned-IOPS computation *)

Lemma validate_io1_config_value snap_size w :
  4 <= snap_size -> 3 <= EBS_IOPS cfg <= 50 ->
  validate_io1_config (VInt snap_size) w
  = {| out := Ret (clamp 100 64000 (snap_size * EBS_IOPS cfg)); world := w; log := [] |}.
Proof.
  intros Hsize Hratio. unfold validate_io1_config, bind, clamp.
  rewrite !Z.gtb_ltb.
  destruct (Z.ltb_spec snap_size 4); [lia|].
  destruct (Z.ltb_spec 0 (EBS_IOPS cfg)); [|lia].
  destruct (Z.ltb_spec (EBS_IOPS cfg) 3); [lia|].
  destruct (Z.ltb_spec 50 (EBS_IOPS cfg)); [lia|].
  simpl. rewrite Z.gtb_ltb.
  destruct (Z.ltb_spec (snap_size * EBS_IOPS cfg) 100);
    [|destruct (Z.ltb_spec 64000 (snap_size * EBS_IOPS cfg))];
    do 2 f_equal; lia.
Qed.

Lemma validate_io1_config_refuses snap_size w :
  snap_size < 4 \/ EBS_IOPS cfg < 3 \/ 50 < EBS_IOPS cfg ->
  exists h,
    validate_io1_config (VInt snap_size) w = {| out := Halt h; world := w; log := [] |} /\
    match h with
    | Exit _ | Raise (ValueError _) => True
    | _ => False
    end.
Proof.
  intros Hbad. unfold validate_io1_config, bind.
  rewrite !Z.gtb_ltb.
  destruct (Z.ltb_spec snap_size 4); [eexists; split; [reflexivity|exact I]|].
  destruct (Z.ltb_spec 0 (EBS_IOPS cfg)); [|eexists; split; [reflexivity|exact I]].
  destruct (Z.ltb_spec (EBS_IOPS cfg) 3); [eexists; split; [reflexivity|exact I]|].
  destruct (Z.ltb_spec 50 (EBS_IOPS cfg)); [eexists; split; [reflexivity|exact I]|].
  lia.
Qed.

(** C4. For an io1 volume, a recorded size of at least 4 and a ratio from
    3 to 50 give size * ratio clamped to the range 100..64000, with no
    request and no output.  A smaller size or any other ratio (0, the
    default, included) stops the run: the reconstruction of the first such
    snapshot exits after announcing it, without asking for a volume. *)
Theorem C4_io1_iops_is_clamped_product (snap_size : Z) (w : W) :
  (4 <= snap_size -> 3 <= EBS_IOPS cfg <= 50 ->
   validate_io1_config (VInt snap_size) w
   = {| out := Ret (clamp 100 64000 (snap_size * EBS_IOPS cfg));
        world := w; log := [] |}) /\
  (snap_size < 4 \/ EBS_IOPS cfg < 3 \/ 50 < EBS_IOPS cfg ->
   forall build_az snapshot attrs rest original_ec2 original_device,
     dict_get (SNAP_EC2_ID_TAG cfg) attrs = Some original_ec2 ->
     dict_get (SNAP_DEV_TAG cfg) attrs = Some original_device ->
     dict_get "VolumeSize" attrs = Some (VInt snap_size) ->
     exists msg,
       ebs_snap_reconstitute build_az "io1" ((snapshot, attrs) :: rest) w
       = {| out := Halt (Exit msg); world := w;
            log := [EvPrint ("Creating io1 volume from " ++ snapshot ++ "... ")] |}).
Proof.
  split; [apply validate_io1_config_value|].
  intros Hbad build_az snapshot attrs rest original_ec2 original_device Hec2 Hdev Hsize.
  destruct (validate_io1_config_refuses snap_size w Hbad) as (h & Hrun & Hh).
  unfold ebs_snap_reconstitute. cbn [reconstitute_loop].
  unfold create_from_snapshot. rewrite String.eqb_refl.
  destruct h as [msg|[]|]; try contradiction; eexists.
  - etransitivity; [run_chain|]. reflexivity.
  - etransitivity; [run_chain|]. reflexivity.
Qed.

(** ** C6: the identifier validators *)

Lemma length_append (s t : string) :
  String.length (s ++ t) = (String.length s + String.length t)%nat.
Proof. induction s as [|c s IH]; simpl; [reflexivity | rewrite IH; reflexivity]. Qed.

Lemma append_empty (s : string) : s ++ "" = s.
Proof. induction s as [|c s IH]; simpl; [reflexivity | rewrite IH; reflexivity]. Qed.

Lemma append_assoc_str (s t u : string) : (s ++ t) ++ u = s ++ (t ++ u).
Proof. induction s as [|c s IH]; simpl; [reflexivity | rewrite IH; reflexivity]. Qed.

Lemma length_zero_empty (s : string) : String.length s = 0%nat -> s = "".
Proof. destruct s; [reflexivity | discriminate]. Qed.

Lemma is_lower_hex_spec (c : ascii) : is_lower_hex c = true <-> lower_hex c.
Proof.
  unfold lower_hex. split.
  - destruct c as [[] [] [] [] [] [] [] []]; intros Hc;
      try discriminate Hc; simpl; tauto.
  - simpl. intros Hc.
    repeat (destruct Hc as [<-|Hc]; [reflexivity|]). destruct Hc.
Qed.

Lemma match_literal_app (lit rest : string) :
  match_literal lit (lit ++ rest) = Some rest.
Proof.
  induction lit as [|c lit IH]; simpl; [reflexivity|].
  rewrite Ascii.eqb_refl. exact IH.
Qed.

Lemma match_literal_inv (lit s rest : string) :
  match_literal lit s = Some rest -> s = lit ++ rest.
Proof.
  revert s. induction lit as [|c lit IH]; intros s; simpl.
  - intros [= ->]. reflexivity.
  - destruct s as [|d s]; [discriminate|].
    destruct (Ascii.eqb_spec c d) as [->|]; [|discriminate].
    intros Hm. rewrite (IH _ Hm). reflexivity.
Qed.

Lemma match_hex_app (digits tail : string) :
  all_lower_hex digits ->
  match_hex (String.length digits) (digits ++ tail) = Some digits.
Proof.
  unfold all_lower_hex.
  induction digits as [|c digits IH]; simpl; intros Hhex; [reflexivity|].
  inversion Hhex as [|? ? Hc Hrest]; subst.
  apply is_lower_hex_spec in Hc. rewrite Hc, (IH Hrest). reflexivity.
Qed.

Lemma match_hex_inv (n : nat) (s m : string) :
  match_hex n s = Some m ->
  exists tail, s = m ++ tail /\ String.length m = n /\ all_lower_hex m.
Proof.
  unfold all_lower_hex.
  revert s m. induction n as [|n IH]; intros s m; simpl.
  - intros [= <-]. exists s. repeat split. constructor.
  - destruct s as [|c s]; [discriminate|].
    destruct (is_lower_hex c) eqn:Hc; [|discriminate].
    destruct (match_hex n s) as [m'|] eqn:Hm; [|discriminate].
    intros [= <-]. destruct (IH _ _ Hm) as (tail & -> & Hlen & Hhex).
    exists tail. simpl. repeat split; [congruence|].
    constructor; [apply is_lower_hex_spec, Hc | exact Hhex].
Qed.

(** *** Counting code points *)

Lemma utf8_width_ascii (c : ascii) (rest : string) :
  (nat_of_ascii c < 128)%nat -> utf8_width c rest = 1%nat.
Proof.
  intros Hc. unfold utf8_width. cbv zeta.
  destruct (Nat.ltb_spec (nat_of_ascii c) 194); [reflexivity | lia].
Qed.

Lemma code_points_ascii (a t : string) :
  ascii_only a ->
  code_points 0 (a ++ t) = (String.length a + code_points 0 t)%nat.
Proof.
  unfold ascii_only.
  induction a as [|c a IH]; cbn [append list_ascii_of_string String.length];
    intros Ha; [reflexivity|].
  inversion Ha as [|? ? Hc Hrest]; subst.
  cbn [code_points]. rewrite (utf8_width_ascii c _ Hc). cbn [Nat.sub].
  rewrite (IH Hrest). reflexivity.
Qed.

Lemma code_points_zero (s : string) : code_points 0 s = 0%nat -> s = "".
Proof. destruct s; [reflexivity | discriminate]. Qed.

Lemma lower_hex_ascii (digits : string) : all_lower_hex digits -> ascii_only digits.
Proof.
  unfold all_lower_hex, ascii_only. apply Forall_impl. intros c Hc.
  apply is_lower_hex_spec in Hc. unfold is_lower_hex in Hc. cbv zeta in Hc.
  apply orb_prop in Hc as [Hc|Hc]; apply andb_prop in Hc as [_ Hc];
    apply Nat.leb_le in Hc; lia.
Qed.

Lemma ami_prefix_ascii : ascii_only "ami-".
Proof. repeat constructor. Qed.

Lemma sg_prefix_ascii : ascii_only "sg-".
Proof. repeat constructor. Qed.

(** On a string of exactly as many code points as the pattern has
    characters, the match is the whole string or there is none. *)
Lemma re_match_id_exact (prefix : string) (n : nat) (s : string) :
  ascii_only prefix ->
  code_points 0 s = (String.length prefix + n)%nat ->
  (re_match_id prefix n s = Some s /\
   exists digits, s = prefix ++ digits /\ String.length digits = n /\ all_lower_hex digits)
  \/
  (re_match_id prefix n s = None /\
   ~ exists digits, s = prefix ++ digits /\ String.length digits = n /\ all_lower_hex digits).
Proof.
  intros Hascii Hlen. unfold re_match_id.
  destruct (match_literal prefix s) as [rest|] eqn:Hlit.
  - apply match_literal_inv in Hlit. subst s.
    rewrite (code_points_ascii _ _ Hascii) in Hlen.
    destruct (match_hex n rest) as [digits|] eqn:Hhex.
    + left. destruct (match_hex_inv _ _ _ Hhex) as (tail & -> & Hn & Hall).
      rewrite (code_points_ascii _ _ (lower_hex_ascii _ Hall)) in Hlen.
      assert (tail = "") as -> by (apply code_points_zero; lia).
      rewrite append_empty. split; [reflexivity|]. exists digits. auto.
    + right. split; [reflexivity|]. intros (digits & Heq & Hn & Hall).
      assert (rest = digits) as ->.
      { clear -Heq. induction prefix as [|c p IH]; simpl in Heq; [exact Heq|].
        injection Heq as Heq. auto. }
      pose proof (match_hex_app digits "" Hall) as Hfull.
      rewrite append_empty, Hn in Hfull. congruence.
  - right. split; [reflexivity|]. intros (digits & -> & _).
    rewrite match_literal_app in Hlit. discriminate.
Qed.

Lemma len_eqb (s : string) (n : nat) :
  (len s =? Z.of_nat n) = Nat.eqb (code_points 0 s) n.
Proof.
  unfold len. destruct (Nat.eqb_spec (code_points 0 s) n) as [->|Hne].
  - apply Z.eqb_refl.
  - apply Z.eqb_neq. lia.
Qed.

Lemma len_well_formed (prefix digits : string) :
  ascii_only prefix -> all_lower_hex digits ->
  len (prefix ++ digits) = Z.of_nat (String.length prefix + String.length digits).
Proof.
  intros Hprefix Hdigits. unfold len.
  rewrite (code_points_ascii _ _ Hprefix), <- (append_empty digits) at 1.
  rewrite (code_points_ascii _ _ (lower_hex_ascii _ Hdigits)). cbn [code_points].
  rewrite Nat.add_0_r. reflexivity.
Qed.

Lemma well_formed_right_length (prefix id : string) :
  ascii_only prefix -> well_formed_id prefix id -> right_length prefix id.
Proof.
  intros Hascii (digits & -> & Hlen & Hall). unfold right_length.
  rewrite (len_well_formed _ _ Hascii Hall). lia.
Qed.

(** The five ways the length dispatch and the regular expression can go. *)
Lemma id_cases (prefix id : string) :
  ascii_only prefix ->
  let n8 := Z.of_nat (String.length prefix + 8) in
  let n17 := Z.of_nat (String.length prefix + 17) in
  ((len id =? n8) = true /\ re_match_id prefix 8 id = Some id /\
   well_formed_id prefix id) \/
  ((len id =? n8) = true /\ re_match_id prefix 8 id = None /\
   right_length prefix id /\ ~ well_formed_id prefix id) \/
  ((len id =? n8) = false /\ (len id =? n17) = true /\
   re_match_id prefix 17 id = Some id /\ well_formed_id prefix id) \/
  ((len id =? n8) = false /\ (len id =? n17) = true /\
   re_match_id prefix 17 id = None /\
   right_length prefix id /\ ~ well_formed_id prefix id) \/
  ((len id =? n8) = false /\ (len id =? n17) = false /\
   ~ right_length prefix id).
Proof.
  intros Hascii n8 n17. subst n8 n17. rewrite !len_eqb. unfold right_length.
  destruct (Nat.eqb_spec (code_points 0 id) (String.length prefix + 8)) as [H8|H8].
  - destruct (re_match_id_exact prefix 8 id Hascii H8) as [[Hm Hd]|[Hm Hd]].
    + left. repeat split; auto. destruct Hd as (d & ? & ? & ?). exists d. auto.
    + right. left. repeat split; auto; [left; unfold len; lia|].
      intros (d & Heq & Hlen & Hall). apply Hd. exists d. repeat split; auto.
      subst id. pose proof (len_well_formed _ _ Hascii Hall) as Hd'.
      unfold len in Hd'. lia.
  - destruct (Nat.eqb_spec (code_points 0 id) (String.length prefix + 17)) as [H17|H17].
    + destruct (re_match_id_exact prefix 17 id Hascii H17) as [[Hm Hd]|[Hm Hd]].
      * right. right. left. repeat split; auto.
        destruct Hd as (d & ? & ? & ?). exists d. auto.
      * right. right. right. left. repeat split; auto; [right; unfold len; lia|].
        intros (d & Heq & Hlen & Hall). apply Hd. exists d. repeat split; auto.
        subst id. pose proof (len_well_formed _ _ Hascii Hall) as Hd'.
        unfold len in Hd'. lia.
    + right. right. right. right. repeat split; auto. unfold len. lia.
Qed.

Lemma validate_ami_id_run (ami : string) (w : W) :
  AMI_ID cfg = Some ami ->
  (~ right_length "ami-" ami /\
   out (validate_ami_id w) = Halt (Exit (ami_bad_length ami))) \/
  (right_length "ami-" ami /\ ~ well_formed_id "ami-" ami /\
   out (validate_ami_id w) = Halt (Exit (ami_bad_characters ami))) \/
  (well_formed_id "ami-" ami /\ fst (client w (DescribeImages ami)) = None /\
   out (validate_ami_id w) = Halt (Exit (ami_not_found ami))) \/
  (well_formed_id "ami-" ami /\ fst (client w (DescribeImages ami)) <> None /\
   out (validate_ami_id w) = Ret tt).
Proof.
  intros Hami. unfold validate_ami_id. rewrite Hami.
  unfold bind, try_except, call. cbn [print tell out world log].
  pose proof (id_cases "ami-" ami ami_prefix_ascii) as Hcases. cbn in Hcases.
  destruct Hcases as [(E8 & Em & Hwf)|[(E8 & Em & Hlen & Hwf)|[(E8 & E17 & Em & Hwf)
                     |[(E8 & E17 & Em & Hlen & Hwf)|(E8 & E17 & Hlen)]]]];
    rewrite ?E8, ?E17; cbn [ret sys_exit halt_with out world log]; rewrite ?Em;
    try rewrite String.eqb_refl.
  - destruct (client w (DescribeImages ami)) as [[x|] w'];
      cbn; [right; right; right | right; right; left]; repeat split; auto; discriminate.
  - right. left. auto.
  - destruct (client w (DescribeImages ami)) as [[x|] w'];
      cbn; [right; right; right | right; right; left]; repeat split; auto; discriminate.
  - right. left. auto.
  - left. auto.
Qed.

Lemma check_security_group_run (sg : string) (w : W) :
  (~ right_length "sg-" sg /\
   out (check_security_group sg w) = Halt (Exit (sg_bad_length sg))) \/
  (right_length "sg-" sg /\ ~ well_formed_id "sg-" sg /\
   out (check_security_group sg w) = Halt (Exit (sg_bad_characters sg))) \/
  (well_formed_id "sg-" sg /\ fst (client w (DescribeSecurityGroups sg)) = None /\
   out (check_security_group sg w) = Halt (Exit (sg_not_found sg))) \/
  (well_formed_id "sg-" sg /\ fst (client w (DescribeSecurityGroups sg)) <> None /\
   out (check_security_group sg w) = Ret tt).
Proof.
  unfold check_security_group.
  unfold bind, try_except, call.
  pose proof (id_cases "sg-" sg sg_prefix_ascii) as Hcases. cbn in Hcases.
  destruct Hcases as [(E8 & Em & Hwf)|[(E8 & Em & Hlen & Hwf)|[(E8 & E17 & Em & Hwf)
                     |[(E8 & E17 & Em & Hlen & Hwf)|(E8 & E17 & Hlen)]]]];
    rewrite ?E8, ?E17; cbn [ret sys_exit halt_with out world log]; rewrite ?Em;
    try rewrite String.eqb_refl.
  - destruct (client w (DescribeSecurityGroups sg)) as [[x|] w'];
      cbn; [right; right; right | right; right; left]; repeat split; auto; discriminate.
  - right. left. auto.
  - destruct (client w (DescribeSecurityGroups sg)) as [[x|] w'];
      cbn; [right; right; right | right; right; left]; repeat split; auto; discriminate.
  - right. left. auto.
  - left. auto.
Qed.

Ltac id_finish :=
  repeat match goal with
         | H : _ /\ _ |- _ => destruct H
         end;
  solve [ discriminate | reflexivity | assumption | congruence
        | split; assumption
        | exfalso;
          eauto using well_formed_right_length, ami_prefix_ascii, sg_prefix_ascii ].

Lemma check_security_group_accepts (sg : string) (w : W) :
  well_formed_id "sg-" sg ->
  fst (client w (DescribeSecurityGroups sg)) <> None ->
  out (check_security_group sg w) = Ret tt.
Proof.
  intros Hwf Hanswer.
  destruct (check_security_group_run sg w)
    as [(Hlen & _)|[(_ & Hno & _)|[(_ & Hnone & _)|(_ & _ & E)]]];
    [exfalso; apply Hlen, well_formed_right_length;
       [exact sg_prefix_ascii | exact Hwf]
    | contradiction | contradiction | exact E].
Qed.

Lemma check_security_group_world (sg : string) (w : W) :
  well_formed_id "sg-" sg ->
  world (check_security_group sg w) = snd (client w (DescribeSecurityGroups sg)).
Proof.
  intros Hwf. unfold check_security_group. unfold bind, try_except, call.
  pose proof (id_cases "sg-" sg sg_prefix_ascii) as Hcases. cbn in Hcases.
  destruct Hcases as [(E8 & Em & _)|[(E8 & Em & _ & Hno)|[(E8 & E17 & Em & _)
                     |[(E8 & E17 & Em & _ & Hno)|(E8 & E17 & Hlen)]]]];
    rewrite ?E8, ?E17; cbn [ret sys_exit halt_with out world log]; rewrite ?Em;
    try rewrite String.eqb_refl; try contradiction.
  - destruct (client w (DescribeSecurityGroups sg)) as [[x|] w']; reflexivity.
  - destruct (client w (DescribeSecurityGroups sg)) as [[x|] w']; reflexivity.
  - exfalso. apply Hlen, well_formed_right_length; [exact sg_prefix_ascii | exact Hwf].
Qed.

(** *** The loop over the list *)

Lemma for_each_accepts (l : list string) (w : W) :
  Forall (well_formed_id "sg-") l -> all_confirmed w l ->
  out (for_each l check_security_group w) = Ret tt.
Proof.
  revert w. induction l as [|sg l IH]; intros w Hwf Hknown; [reflexivity|].
  inversion Hwf as [|? ? Hsg Hl]; subst. destruct Hknown as [Hanswer Hrest].
  cbn [for_each]. rewrite out_bind, (check_security_group_accepts sg w Hsg Hanswer).
  rewrite (check_security_group_world sg w Hsg). apply IH; assumption.
Qed.

Lemma for_each_returns (l : list string) (w : W) (u : unit) :
  out (for_each l check_security_group w) = Ret u ->
  Forall (well_formed_id "sg-") l /\ all_confirmed w l.
Proof.
  revert w. induction l as [|sg l IH]; intros w Hret; [split; [constructor | exact I]|].
  cbn [for_each] in Hret. rewrite out_bind in Hret.
  destruct (check_security_group_run sg w)
    as [(_ & E)|[(_ & _ & E)|[(_ & _ & E)|(Hsg & Hanswer & E)]]];
    rewrite E in Hret; try discriminate.
  rewrite (check_security_group_world sg w Hsg) in Hret.
  destruct (IH _ Hret) as [Hl Hknown].
  split; [constructor; assumption | split; assumption].
Qed.

Lemma for_each_stops (good : list string) (sg : string) (rest : list string)
    (w : W) (h : halt) :
  Forall (well_formed_id "sg-") good -> all_confirmed w good ->
  out (check_security_group sg (after_lookups w good)) = Halt h ->
  out (for_each (good ++ sg :: rest) check_security_group w) = Halt h.
Proof.
  revert w. induction good as [|g good IH]; intros w Hwf Hknown Hh;
    cbn [app for_each after_lookups] in *.
  - rewrite out_bind, Hh. reflexivity.
  - inversion Hwf as [|? ? Hg Hgood]; subst. destruct Hknown as [Hanswer Hrest].
    rewrite out_bind, (check_security_group_accepts g w Hg Hanswer).
    rewrite (check_security_group_world g w Hg). apply IH; assumption.
Qed.

(** *** The trimming loop *)

Lemma trim_loop_run (budget : nat) (l : list string) (w : W) :
  (List.length l <= budget)%nat ->
  trim_loop budget l w
  = {| out := Ret (firstn 5 l); world := w;
       log := map removal_notice (rev (skipn 5 l)) |}.
Proof.
  revert l. induction budget as [|budget IH]; intros l Hlen.
  - destruct l; [reflexivity | simpl in Hlen; lia].
  - cbn [trim_loop]. destruct (Nat.ltb_spec 5 (List.length l)) as [Hlong|Hshort].
    + destruct (exists_last (l := l)) as (l' & x & ->).
      { intros ->. simpl in Hlong. lia. }
      rewrite length_app in Hlen, Hlong. simpl in Hlen, Hlong.
      rewrite removelast_last, last_last.
      rewrite firstn_app, skipn_app.
      replace (5 - List.length l')%nat with 0%nat by lia.
      cbn [firstn skipn]. rewrite app_nil_r, rev_app_distr. cbn [rev app map].
      eapply eq_trans; [eapply run_bind_ret; [reflexivity | apply IH; lia]|].
      cbn [app]. unfold removal_notice at 2.
      rewrite !append_assoc_str. reflexivity.
    + rewrite firstn_all2, skipn_all2 by lia. reflexivity.
Qed.

Lemma trim_security_groups_run (l : list string) (w : W) :
  trim_security_groups l w
  = {| out := Ret (firstn 5 l); world := w;
       log := map removal_notice (rev (skipn 5 l)) |}.
Proof. unfold trim_security_groups. apply trim_loop_run. lia. Qed.

(** [validate_security_group] ends as its loop over the first five
    entries ends. *)
Lemma validate_security_group_out (flag : string) (w : W) :
  SECURITY_GROUPS cfg = Some flag ->
  out (validate_security_group w)
  = match out (for_each (firstn 5 (split_on "," flag)) check_security_group w) with
    | Ret _ => Ret (firstn 5 (split_on "," flag))
    | Halt h => Halt h
    end.
Proof.
  intros Hflag. unfold validate_security_group. rewrite Hflag.
  assert (Htrim :
            forall l,
              (if (5 <? List.length l)%nat
               then print "List of security-groups too long. Truncating..." ;;
                    trim_security_groups l
               else ret l) w
              = {| out := Ret (firstn 5 l); world := w;
                   log := log ((if (5 <? List.length l)%nat
                                then print "List of security-groups too long. Truncating..." ;;
                                     trim_security_groups l
                                else ret l) w) |}).
  { intros l. destruct (Nat.ltb_spec 5 (List.length l)) as [Hlong|Hshort].
    - unfold bind. cbn [print tell out world log]. rewrite trim_security_groups_run.
      reflexivity.
    - rewrite firstn_all2 by exact Hshort. reflexivity. }
  rewrite out_bind. cbn [print tell out world].
  rewrite out_bind. cbn [ret out world].
  rewrite out_bind, (Htrim (split_on "," flag)). cbn [out world].
  rewrite out_bind.
  destruct (out (for_each (firstn 5 (split_on "," flag)) check_security_group w));
    reflexivity.
Qed.

(** C6. An image identifier passes [validate_ami_id], and a security-group
    identifier passes the check that [validate_security_group] applies to
    each entry it examines, exactly when it is the resource prefix followed
    by 8 or 17 lower-case hexadecimal characters and the provider answers
    the existence query.  Every other identifier ends the run with the
    message for a wrong length, for wrong characters or for an unknown
    identifier, chosen as stated; no two of these messages coincide.
    [validate_security_group] itself examines the first five entries of
    the list in order: it returns, and then returns these entries,
    exactly when each of them is well formed and confirmed by the
    provider in its turn; otherwise it ends the run with the message for
    the first entry that is not. *)
Theorem C6_identifier_accepted_iff_well_formed_and_known :
  (forall ami w,
      AMI_ID cfg = Some ami ->
      let r := validate_ami_id w in
      let answer := fst (client w (DescribeImages ami)) in
      (out r = Ret tt <-> well_formed_id "ami-" ami /\ answer <> None) /\
      (~ right_length "ami-" ami -> out r = Halt (Exit (ami_bad_length ami))) /\
      (right_length "ami-" ami -> ~ well_formed_id "ami-" ami ->
       out r = Halt (Exit (ami_bad_characters ami))) /\
      (well_formed_id "ami-" ami -> answer = None ->
       out r = Halt (Exit (ami_not_found ami)))) /\
  (forall sg w,
      let r := check_security_group sg w in
      let answer := fst (client w (DescribeSecurityGroups sg)) in
      (out r = Ret tt <-> well_formed_id "sg-" sg /\ answer <> None) /\
      (~ right_length "sg-" sg -> out r = Halt (Exit (sg_bad_length sg))) /\
      (right_length "sg-" sg -> ~ well_formed_id "sg-" sg ->
       out r = Halt (Exit (sg_bad_characters sg))) /\
      (well_formed_id "sg-" sg -> answer = None ->
       out r = Halt (Exit (sg_not_found sg)))) /\
  (forall flag w,
      SECURITY_GROUPS cfg = Some flag ->
      let examined := firstn 5 (split_on "," flag) in
      let r := validate_security_group w in
      (forall kept,
          out r = Ret kept <->
          kept = examined /\ Forall (well_formed_id "sg-") examined /\
          all_confirmed w examined) /\
      (forall good sg rest,
          examined = (good ++ sg :: rest)%list ->
          Forall (well_formed_id "sg-") good -> all_confirmed w good ->
          let answer :=
            fst (client (after_lookups w good) (DescribeSecurityGroups sg)) in
          (~ right_length "sg-" sg -> out r = Halt (Exit (sg_bad_length sg))) /\
          (right_length "sg-" sg -> ~ well_formed_id "sg-" sg ->
           out r = Halt (Exit (sg_bad_characters sg))) /\
          (well_formed_id "sg-" sg -> answer = None ->
           out r = Halt (Exit (sg_not_found sg))))) /\
  (forall a b,
      ami_bad_length a <> ami_bad_characters b /\
      (well_formed_id "ami-" b ->
       ami_bad_length a <> ami_not_found b /\
       ami_bad_characters a <> ami_not_found b)) /\
  (forall a b,
      sg_bad_length a <> sg_bad_characters b /\
      sg_bad_length a <> sg_not_found b /\
      sg_bad_characters a <> sg_not_found b).
Proof.
  split; [|split; [|split; [|split]]].
  - intros ami w Hami r answer. subst r answer.
    destruct (validate_ami_id_run ami w Hami)
      as [(Hlen & E)|[(Hlen & Hwf & E)|[(Hwf & Hans & E)|(Hwf & Hans & E)]]];
      rewrite E; repeat split; intros;
      id_finish.
  - intros sg w r answer. subst r answer.
    destruct (check_security_group_run sg w)
      as [(Hlen & E)|[(Hlen & Hwf & E)|[(Hwf & Hans & E)|(Hwf & Hans & E)]]];
      rewrite E; repeat split; intros;
      id_finish.
  - intros flag w Hflag examined r. subst examined r.
    rewrite (validate_security_group_out flag w Hflag). split.
    + intros kept. split.
      * intros Hret.
        destruct (out (for_each (firstn 5 (split_on "," flag)) check_security_group w))
          as [u|h] eqn:E; [|discriminate].
        injection Hret as <-. destruct (for_each_returns _ _ u E). auto.
      * intros (-> & Hwf & Hknown).
        rewrite (for_each_accepts _ _ Hwf Hknown). reflexivity.
    + intros good sg rest -> Hgood Hknown answer. subst answer.
      destruct (check_security_group_run sg (after_lookups w good))
        as [(Hlen & E)|[(Hlen & Hwf & E)|[(Hwf & Hans & E)|(Hwf & Hans & E)]]];
        try rewrite (for_each_stops good sg rest w _ Hgood Hknown E);
        repeat split; intros;
        id_finish.
  - intros a b. split; [unfold ami_bad_length, ami_bad_characters; simpl; discriminate|].
    intros (digits & -> & _).
    unfold ami_bad_length, ami_bad_characters, ami_not_found; simpl.
    split; discriminate.
  - intros a b. unfold sg_bad_length, sg_bad_characters, sg_not_found; simpl.
    repeat split; discriminate.
Qed.

(** ** C7: truncation of the security-group list *)

Lemma validate_security_group_keeps (groups : string) :
  SECURITY_GROUPS cfg = Some groups ->
  triple validate_security_group quiet
         (fun kept => kept = firstn 5 (split_on "," groups)) aborted.
Proof.
  intros Hgroups. unfold validate_security_group. rewrite Hgroups.
  eapply triple_bind with (R := anything); [triple_auto | intros _ _].
  eapply triple_bind with (R := fun l => l = split_on "," groups);
    [apply triple_ret; reflexivity | intros l ->].
  eapply triple_bind with (R := fun kept => kept = firstn 5 (split_on "," groups)).
  - destruct (Nat.ltb_spec 5 (List.length (split_on "," groups))) as [Hlong|Hshort].
    + eapply triple_bind with (R := anything); [triple_auto | intros _ _].
      intros w. rewrite trim_security_groups_run. cbn [out log]. split; [|reflexivity].
      induction (rev (skipn 5 (split_on "," groups))); simpl; auto.
    + apply triple_ret. rewrite firstn_all2 by exact Hshort. reflexivity.
  - intros kept ->.
    eapply triple_bind with (R := anything);
      [apply for_each_quiet, check_security_group_quiet | intros _ _].
    apply triple_ret. reflexivity.
Qed.

(** C7. A security-group list of more than five entries is cut down to
    its first five entries, in their original order: the trimming loop
    returns exactly [firstn 5], announces exactly the entries after the
    fifth (last one first) and asks the provider nothing; and whenever
    [validate_security_group] returns a list for a comma-separated input
    of more than five entries, that list is the first five entries of the
    input. *)
Theorem C7_security_groups_truncated_to_first_five :
  (forall l w,
      (5 < List.length l)%nat ->
      trim_security_groups l w
      = {| out := Ret (firstn 5 l); world := w;
           log := map removal_notice (rev (skipn 5 l)) |}) /\
  (forall groups w kept,
      SECURITY_GROUPS cfg = Some groups ->
      (5 < List.length (split_on "," groups))%nat ->
      out (validate_security_group w) = Ret kept ->
      kept = firstn 5 (split_on "," groups) /\ List.length kept = 5%nat).
Proof.
  split.
  - intros l w _. apply trim_security_groups_run.
  - intros groups w kept Hgroups Hlong Hret.
    destruct (validate_security_group_keeps groups Hgroups w) as [_ Ho].
    rewrite Hret in Ho. subst kept. split; [reflexivity|].
    rewrite length_firstn. lia.
Qed.

(** ** The steps after the launch neither provision nor, the attachment
    step apart, attach *)

Lemma recovery_ec2_check_state_quiet ec2_id :
  triple (recovery_ec2_check_state ec2_id) quiet anything anyhow.
Proof.
  unfold recovery_ec2_check_state, reservations_of, statuses_of, index0.
  triple_auto.
Qed.

Lemma recovery_ec2_monitor_transition_quiet fuel ec2_id target_state target_status :
  triple (recovery_ec2_monitor_transition fuel ec2_id target_state target_status)
         quiet anything anyhow.
Proof.
  induction fuel as [|fuel IH]; simpl; [triple_auto|].
  eapply triple_bind with (R := anything); [|intros [] _; [triple_auto | exact IH]].
  apply triple_try.
  - eapply triple_bind with (R := anything);
      [apply recovery_ec2_check_state_quiet | intros ? _; triple_auto].
  - intros [] k Hk; try discriminate. injection Hk as <-. triple_auto.
Qed.

Lemma recovery_ec2_stop_quiet ec2_id :
  triple (recovery_ec2_stop ec2_id) quiet anything anyhow.
Proof. unfold recovery_ec2_stop. triple_auto. Qed.

Lemma recovery_ec2_power_on_quiet ec2_id :
  triple (recovery_ec2_power_on ec2_id) quiet anything anyhow.
Proof. unfold recovery_ec2_power_on. triple_auto. Qed.

Lemma recovery_ec2_get_connect_quiet ec2_id :
  triple (recovery_ec2_get_connect ec2_id) quiet anything anyhow.
Proof.
  unfold recovery_ec2_get_connect, reservations_of, index0. triple_auto.
Qed.

Lemma recovery_ec2_add_access_quiet ec2_id groups :
  triple (recovery_ec2_add_access ec2_id groups) quiet anything anyhow.
Proof. unfold recovery_ec2_add_access, load_name. triple_auto. Qed.

Lemma userdata_inject_quiet ec2_id content :
  triple (userdata_inject ec2_id content) quiet anything anyhow.
Proof. unfold userdata_inject. triple_auto. Qed.

Lemma userdata_clone_quiet ec2_id attrs :
  triple (userdata_clone ec2_id attrs) quiet anything anyhow.
Proof.
  unfold userdata_clone.
  eapply triple_bind with (R := anything);
    [|intros [text|] _; [apply userdata_inject_quiet | triple_auto]].
  unfold getitem, param_str, userdata_of. triple_auto.
Qed.

Lemma wait_available_quiet fuel target_ebs :
  triple (wait_available fuel target_ebs) quiet anything anyhow.
Proof.
  induction fuel as [|fuel IH]; simpl; [triple_auto|].
  unfold volumes_of, index0. triple_auto; exact IH.
Qed.

Lemma wait_deleted_quiet fuel target_ebs :
  triple (wait_deleted fuel target_ebs) quiet anything anyhow.
Proof.
  induction fuel as [|fuel IH]; simpl; [triple_auto|].
  eapply triple_bind with (R := anything); [triple_auto | intros [] _; [triple_auto | exact IH]].
Qed.

Lemma nuke_root_ebs_quiet fuel instance :
  triple (nuke_root_ebs fuel instance) quiet anything anyhow.
Proof.
  unfold nuke_root_ebs, reservations_of, index0. triple_auto.
  all: first [apply wait_available_quiet | apply wait_deleted_quiet].
Qed.

Lemma first_tag_triple key tags P :
  triple (first_tag key tags) P anything anyhow.
Proof.
  induction tags as [|[k v] tags IH]; simpl; [triple_auto|].
  destruct (String.eqb k key); [triple_auto | exact IH].
Qed.

Lemma attach_loop_settles instance ebs_info previous :
  triple (attach_loop instance ebs_info previous) settles anything anyhow.
Proof.
  revert previous. induction ebs_info as [|v rest IH]; intros previous; simpl.
  - triple_auto.
  - eapply triple_bind with (R := anything); [apply first_tag_triple | intros ? _].
    triple_auto. apply IH.
Qed.

Lemma ebs_reconstitution_attach_settles instance ebs_info :
  triple (ebs_reconstitution_attach instance ebs_info) settles anything anyhow.
Proof.
  unfold ebs_reconstitution_attach.
  eapply triple_bind with (R := anything); [triple_auto | intros _ _].
  eapply triple_bind with (R := anything); [apply attach_loop_settles | intros ? _].
  triple_auto.
Qed.

Lemma settles_in_zone zone r : settles r = true -> in_zone zone r = true.
Proof. destruct r; simpl; auto; discriminate. Qed.

(** ** C10: the build zone *)

Lemma recovery_ec2_get_az_given (ec2_az : string) attrs (w : W) :
  ec2_az <> "" ->
  recovery_ec2_get_az ec2_az attrs w
  = {| out := Ret ec2_az; world := w;
       log := [EvPrint ((nl ++ "Building resources in: " ++ ec2_az ++ nl) ++ nl)] |}.
Proof.
  intros Hne. unfold recovery_ec2_get_az.
  apply String.eqb_neq in Hne. rewrite Hne. reflexivity.
Qed.

Lemma validate_subnet_zone (zone : string) :
  (forall w zones,
      fst (client w (DescribeSubnets (EC2_SUBNET cfg))) = Some (RSubnets zones) ->
      hd_error zones = Some zone) ->
  triple (validate_subnet (EC2_SUBNET cfg)) quiet (fun az => az = zone) aborted.
Proof.
  intros Hsub. unfold validate_subnet.
  eapply triple_bind
    with (R := fun r => forall zones, r = RSubnets zones -> hd_error zones = Some zone).
  - apply triple_try.
    + apply triple_call; [reflexivity | | intros _; exact I].
      intros w x Hx zones ->. exact (Hsub w zones Hx).
    + intros [] k Hk; try discriminate. injection Hk as <-. triple_auto.
  - intros r Hr. unfold subnets_of.
    destruct r as [|zones|snaps|v|ids|statuses|rs|states|value];
      try (eapply triple_bind with (R := nothing);
           [apply triple_halt; exact I | intros ? []]).
    eapply triple_bind with (R := fun l => l = zones); [apply triple_ret; reflexivity|].
    intros l ->. specialize (Hr zones eq_refl).
    destruct zones as [|z zones]; [discriminate|]. injection Hr as ->.
    simpl. apply triple_ret. reflexivity.
Qed.

Lemma create_from_snapshot_triple (P : request -> bool)
    zone ebs_type snapshot attrs ec2 device :
  (forall iops snap tags kind, P (CreateVolume zone iops snap tags kind) = true) ->
  triple (create_from_snapshot zone ebs_type snapshot attrs ec2 device)
         P anything anyhow.
Proof.
  intros HP.
  unfold create_from_snapshot, getitem, validate_io1_config, param_str, volume_of.
  destruct (String.eqb ebs_type "io1"); [|destruct (String.eqb ebs_type "gp2")].
  - apply triple_try; [triple_auto|].
    intros [] k Hk; try discriminate; injection Hk as <-; triple_auto.
  - apply triple_try; [triple_auto|].
    intros [] k Hk; try discriminate; injection Hk as <-; triple_auto.
  - triple_auto.
Qed.

Lemma reconstitute_loop_triple (P : request -> bool) zone ebs_type items acc :
  (forall iops snap tags kind, P (CreateVolume zone iops snap tags kind) = true) ->
  triple (reconstitute_loop zone ebs_type items acc) P anything anyhow.
Proof.
  intros HP.
  revert acc. induction items as [|[snapshot attrs] rest IH]; intros acc;
    cbn [reconstitute_loop].
  - triple_auto.
  - unfold getitem.
    eapply triple_bind with (R := anything); [triple_auto | intros ? _].
    eapply triple_bind with (R := anything); [triple_auto | intros ? _].
    eapply triple_bind with (R := anything); [triple_auto | intros ? _].
    eapply triple_bind with (R := anything);
      [apply create_from_snapshot_triple, HP | intros ? _; apply IH].
Qed.

Lemma reconstitute_loop_in_zone zone ebs_type items acc :
  triple (reconstitute_loop zone ebs_type items acc) (in_zone zone) anything anyhow.
Proof.
  apply reconstitute_loop_triple. intros. simpl. apply String.eqb_refl.
Qed.

Lemma recovery_ec2_make_triple (P : request -> bool) zone :
  (forall image kind key subnet label,
      P (RunInstances image kind key subnet zone label) = true) ->
  triple (recovery_ec2_make zone) P anything anyhow.
Proof. intros HP. unfold recovery_ec2_make. triple_auto. Qed.

Lemma recovery_ec2_make_in_zone zone :
  triple (recovery_ec2_make zone) (in_zone zone) anything anyhow.
Proof.
  apply recovery_ec2_make_triple. intros. simpl. apply String.eqb_refl.
Qed.

(** A step that neither provisions nor attaches, inside a chain checked
    against a weaker request filter. *)
Ltac chain_weak lemma :=
  eapply triple_bind with (R := anything);
  [ eapply triple_weaken;
    [ solve [lemma]
    | first [apply quiet_in_zone | apply settles_in_zone | intros ? Hr; exact Hr]
    | intros ? ?; exact I
    | intros ? ?; exact I ]
  | intros ? _ ].

Lemma main_in_zone (zone : string) (fuel : nat) :
  zone <> "" ->
  (forall w zones,
      fst (client w (DescribeSubnets (EC2_SUBNET cfg))) = Some (RSubnets zones) ->
      hd_error zones = Some zone) ->
  triple (main fuel) (in_zone zone) anything anyhow.
Proof.
  intros Hne Hsub. unfold main.
  chain_weak ltac:(apply prelude_quiet).
  chain_weak ltac:(apply userdata_content_quiet).
  chain_weak ltac:(apply validate_ami_id_quiet).
  eapply triple_bind with (R := fun az => az = zone);
    [ eapply triple_weaken;
      [ apply validate_subnet_zone, Hsub | apply quiet_in_zone
      | intros ? Ha; exact Ha | intros ? ?; exact I ]
    | intros ? -> ].
  chain_weak ltac:(apply validate_security_group_quiet).
  chain_weak ltac:(apply validate_provision_key_quiet).
  chain_weak ltac:(apply ebs_snap_tags_to_attribs_quiet).
  eapply triple_bind with (R := fun az => az = zone);
    [ intros w; rewrite (recovery_ec2_get_az_given zone _ w Hne); simpl; auto
    | intros ? -> ].
  chain_weak ltac:(apply reconstitute_loop_in_zone).
  chain_weak ltac:(apply recovery_ec2_make_in_zone).
  eapply triple_bind with (R := anything);
    [unfold instances_of; triple_auto | intros ? _].
  eapply triple_bind with (R := anything);
    [unfold index0; triple_auto | intros ? _].
  eapply triple_bind with (R := anything); [triple_auto | intros ? _].
  chain_weak ltac:(apply recovery_ec2_monitor_transition_quiet).
  chain_weak ltac:(apply recovery_ec2_stop_quiet).
  chain_weak ltac:(apply recovery_ec2_monitor_transition_quiet).
  chain_weak ltac:(apply nuke_root_ebs_quiet).
  chain_weak ltac:(apply ebs_reconstitution_attach_settles).
  eapply triple_bind with (R := anything);
    [ destruct (truthy (SECURITY_GROUPS cfg)); [|triple_auto];
      eapply triple_weaken;
      [ apply recovery_ec2_add_access_quiet | apply quiet_in_zone
      | intros ? ?; exact I | intros ? ?; exact I ]
    | intros ? _ ].
  eapply triple_bind with (R := anything);
    [ match goal with |- triple (match ?c with _ => _ end) _ _ _ => destruct c end;
      [|triple_auto];
      eapply triple_weaken;
      [ apply userdata_inject_quiet | apply quiet_in_zone
      | intros ? ?; exact I | intros ? ?; exact I ]
    | intros ? _ ].
  eapply triple_bind with (R := anything);
    [ destruct (USERDATA_BOOL cfg); [|triple_auto];
      eapply triple_weaken;
      [ apply userdata_clone_quiet | apply quiet_in_zone
      | intros ? ?; exact I | intros ? ?; exact I ]
    | intros ? _ ].
  destruct (POWER_ON cfg); [|triple_auto].
  chain_weak ltac:(apply recovery_ec2_power_on_quiet).
  chain_weak ltac:(apply recovery_ec2_monitor_transition_quiet).
  eapply triple_weaken;
    [ apply recovery_ec2_get_connect_quiet | apply quiet_in_zone
    | intros ? ?; exact I | intros ? ?; exact I ].
Qed.

(** C10. Given a non-empty zone, [recovery_ec2_get_az] returns it as it
    is, whatever the snapshot attributes hold, after printing where it
    builds.  As the module body passes the zone the provider reports for
    the deployment subnet, every create-volume and run-instances request
    of a run names that zone when it is not empty: the snapshots'
    recorded zone is never used. *)
Theorem C10_build_zone_is_the_subnet_zone :
  (forall ec2_az snapshot_attributes w,
      ec2_az <> "" ->
      recovery_ec2_get_az ec2_az snapshot_attributes w
      = {| out := Ret ec2_az; world := w;
           log := [EvPrint ((nl ++ "Building resources in: " ++ ec2_az ++ nl) ++ nl)] |}) /\
  (forall zone,
      zone <> "" ->
      (forall w zones,
          fst (client w (DescribeSubnets (EC2_SUBNET cfg))) = Some (RSubnets zones) ->
          hd_error zones = Some zone) ->
      forall fuel w, forallb (allowed (in_zone zone)) (log (main fuel w)) = true).
Proof.
  split.
  - intros. apply recovery_ec2_get_az_given. assumption.
  - intros zone Hne Hsub fuel w.
    exact (proj1 (main_in_zone zone fuel Hne Hsub w)).
Qed.

(** ** C2: a rejected security-group change *)

Lemma security_group_unbound : dict_get "security_group" module_globals = None.
Proof.
  unfold module_globals.
  destruct (AMI_ID cfg), (ROOT_SNAP cfg), (SECURITY_GROUPS cfg), (USERDATA_FILE cfg);
    reflexivity.
Qed.

(** C2 (what the script does instead).  When the provider rejects the
    security-group change, the handler of [recovery_ec2_add_access] builds
    its message from the name [security_group], which is bound neither in
    the function nor in the module: the handler raises NameError before it
    prints anything, so the failure is not logged and the exception leaves
    the function. *)
Theorem C2_rejected_group_change_raises_name_error
    (ec2_id : string) (security_group_list : list string) (w : W) :
  fst (client w (ModifyInstanceGroups security_group_list ec2_id)) = None ->
  recovery_ec2_add_access ec2_id security_group_list w
  = {| out := Halt (Raise (NameError "security_group"));
       world := snd (client w (ModifyInstanceGroups security_group_list ec2_id));
       log := [EvPrint (nl ++ "Attaching security-groups to recovery-instance ["
                           ++ ec2_id ++ "]... ");
               EvCall (ModifyInstanceGroups security_group_list ec2_id) None] |}.
Proof.
  intros Hrejected.
  destruct (client w (ModifyInstanceGroups security_group_list ec2_id))
    as [answer w'] eqn:Hclient.
  simpl in Hrejected. subst answer. cbn [snd].
  assert (Hname : load_name [("ec2_id", ec2_id)] module_globals "security_group" w'
                  = {| out := Halt (Raise (NameError "security_group"));
                       world := w'; log := [] |}).
  { unfold load_name. cbn [dict_get]. rewrite security_group_unbound.
    replace (String.eqb "security_group" "ec2_id") with false by reflexivity.
    reflexivity. }
  unfold recovery_ec2_add_access.
  etransitivity.
  - eapply run_bind_ret; [reflexivity|].
    eapply run_try_handled.
    + eapply run_bind_halt. apply run_call_rejected. exact Hclient.
    + reflexivity.
    + eapply run_bind_halt. exact Hname.
  - reflexivity.
Qed.

(** ** C5: the pace of the polling loops *)

Lemma result_eta {A} (r : result A) :
  r = {| out := out r; world := world r; log := log r |}.
Proof. destruct r; reflexivity. Qed.

Lemma wait_deleted_still_there (fuel : nat) (target_ebs : string) (w w' : W) x :
  client w (DescribeVolumes target_ebs) = (Some x, w') ->
  wait_deleted (S fuel) target_ebs w
  = {| out := out (wait_deleted fuel target_ebs w');
       world := world (wait_deleted fuel target_ebs w');
       log := EvCall (DescribeVolumes target_ebs) (Some x)
              :: EvPrint (("Waiting for " ++ target_ebs ++ " to die...") ++ nl)
              :: log (wait_deleted fuel target_ebs w') |}.
Proof.
  intros Hclient. cbn [wait_deleted].
  etransitivity.
  - eapply run_bind_ret.
    + eapply run_try_ret. eapply run_bind_ret; [apply run_call_ok; exact Hclient|].
      eapply run_bind_ret; reflexivity.
    + cbv beta iota. apply result_eta.
  - reflexivity.
Qed.

Lemma wait_deleted_gone (fuel : nat) (target_ebs : string) (w w' : W) :
  client w (DescribeVolumes target_ebs) = (None, w') ->
  wait_deleted (S fuel) target_ebs w
  = {| out := Ret tt; world := w';
       log := [EvCall (DescribeVolumes target_ebs) None;
               EvPrint (("Successfully deleted " ++ target_ebs) ++ nl)] |}.
Proof.
  intros Hclient. cbn [wait_deleted].
  etransitivity.
  - eapply run_bind_ret.
    + eapply run_try_handled.
      * eapply run_bind_halt. apply run_call_rejected. exact Hclient.
      * reflexivity.
      * eapply run_bind_ret; reflexivity.
    + cbv beta iota. reflexivity.
  - reflexivity.
Qed.

Lemma wait_deleted_never_sleeps (fuel : nat) (target_ebs : string) (w : W) :
  forallb awake (log (wait_deleted fuel target_ebs w)) = true.
Proof.
  revert w. induction fuel as [|fuel IH]; intros w; [reflexivity|].
  destruct (client w (DescribeVolumes target_ebs)) as [[x|] w'] eqn:Hclient.
  - rewrite (wait_deleted_still_there _ _ _ _ _ Hclient). cbn [log forallb awake].
    apply IH.
  - rewrite (wait_deleted_gone _ _ _ _ Hclient). reflexivity.
Qed.

(** C5 (what the script does instead).  The wait that confirms the
    deletion of the boot volume never sleeps; while the provider still
    answers for the volume, the next query follows the previous one with
    nothing in between but the progress message. *)
Theorem C5_delete_wait_polls_without_delay
    (fuel : nat) (target_ebs : string) (w : W) (x : response) :
  fst (client w (DescribeVolumes target_ebs)) = Some x ->
  forallb awake (log (wait_deleted (S (S fuel)) target_ebs w)) = true /\
  exists answer rest,
    log (wait_deleted (S (S fuel)) target_ebs w)
    = EvCall (DescribeVolumes target_ebs) (Some x)
      :: EvPrint (("Waiting for " ++ target_ebs ++ " to die...") ++ nl)
      :: EvCall (DescribeVolumes target_ebs) answer
      :: rest.
Proof.
  intros Hanswer. split; [apply wait_deleted_never_sleeps|].
  destruct (client w (DescribeVolumes target_ebs)) as [a w'] eqn:Hclient.
  simpl in Hanswer. subst a.
  rewrite (wait_deleted_still_there _ _ _ _ _ Hclient). cbn [log].
  destruct (client w' (DescribeVolumes target_ebs)) as [[y|] w''] eqn:Hclient'.
  - rewrite (wait_deleted_still_there _ _ _ _ _ Hclient'). cbn [log]. eauto.
  - rewrite (wait_deleted_gone _ _ _ _ Hclient'). cbn [log]. eauto.
Qed.

(** ** What each step asks of the provider *)

Lemma for_each_triple {A} (l : list A) body P H :
  (forall x, triple (body x) P anything H) ->
  triple (for_each l body) P anything H.
Proof.
  intros Hb. induction l as [|x l IH]; simpl.
  - apply triple_ret. exact I.
  - eapply triple_bind with (R := anything); [apply Hb | intros _ _; exact IH].
Qed.

Lemma recovery_ec2_get_az_silent ec2_az attrs P :
  triple (recovery_ec2_get_az ec2_az attrs) P anything aborted.
Proof.
  unfold recovery_ec2_get_az, getitem, concat_str. triple_auto.
Qed.

Lemma prelude_silent P :
  triple (if USERDATA_BOOL cfg && truthy (USERDATA_FILE cfg)
          then sys_exit "ERROR: `-u` and `-U` are mutually-exclusive options"
          else ret tt) P anything aborted.
Proof. triple_auto. Qed.

Lemma userdata_read_file_silent file P :
  triple (userdata_read_file file) P anything aborted.
Proof.
  intros w. unfold userdata_read_file.
  destruct (read_file w file); simpl; split; solve [reflexivity | exact I].
Qed.

Lemma userdata_content_silent P :
  triple (match USERDATA_FILE cfg with
          | Some file => if truthy (Some file)
                         then content <- userdata_read_file file ;; ret (Some content)
                         else ret None
          | None => ret None
          end) P anything aborted.
Proof. triple_auto. apply userdata_read_file_silent. Qed.

Lemma recovery_ec2_check_state_asks P ec2_id :
  P (DescribeInstanceStatus ec2_id) = true ->
  P (DescribeInstances ec2_id) = true ->
  triple (recovery_ec2_check_state ec2_id) P anything anyhow.
Proof.
  intros H1 H2.
  unfold recovery_ec2_check_state, reservations_of, statuses_of, index0.
  triple_auto.
Qed.

Lemma recovery_ec2_monitor_transition_asks P fuel ec2_id target_state target_status :
  P (DescribeInstanceStatus ec2_id) = true ->
  P (DescribeInstances ec2_id) = true ->
  triple (recovery_ec2_monitor_transition fuel ec2_id target_state target_status)
         P anything anyhow.
Proof.
  intros H1 H2.
  induction fuel as [|fuel IH]; simpl; [triple_auto|].
  eapply triple_bind with (R := anything); [|intros [] _; [triple_auto | exact IH]].
  apply triple_try.
  - eapply triple_bind with (R := anything);
      [apply recovery_ec2_check_state_asks; assumption | intros ? _; triple_auto].
  - intros [] k Hk; try discriminate. injection Hk as <-. triple_auto.
Qed.

Lemma recovery_ec2_stop_asks P ec2_id :
  P (StopInstances ec2_id) = true ->
  triple (recovery_ec2_stop ec2_id) P anything anyhow.
Proof. intros H1. unfold recovery_ec2_stop. triple_auto. Qed.

Lemma recovery_ec2_power_on_asks P ec2_id :
  P (StartInstances ec2_id) = true ->
  triple (recovery_ec2_power_on ec2_id) P anything anyhow.
Proof. intros H1. unfold recovery_ec2_power_on. triple_auto. Qed.

Lemma recovery_ec2_get_connect_asks P ec2_id :
  P (DescribeInstances ec2_id) = true ->
  triple (recovery_ec2_get_connect ec2_id) P anything anyhow.
Proof.
  intros H1. unfold recovery_ec2_get_connect, reservations_of, index0. triple_auto.
Qed.

Lemma recovery_ec2_add_access_asks P ec2_id groups :
  P (ModifyInstanceGroups groups ec2_id) = true ->
  triple (recovery_ec2_add_access ec2_id groups) P anything anyhow.
Proof. intros H1. unfold recovery_ec2_add_access, load_name. triple_auto. Qed.

Lemma userdata_inject_asks P ec2_id content :
  P (ModifyInstanceUserData ec2_id content) = true ->
  triple (userdata_inject ec2_id content) P anything anyhow.
Proof. intros H1. unfold userdata_inject. triple_auto. Qed.

Lemma userdata_clone_asks P ec2_id attrs :
  (forall source, P (DescribeInstanceAttribute "userData" source) = true) ->
  (forall content, P (ModifyInstanceUserData ec2_id content) = true) ->
  triple (userdata_clone ec2_id attrs) P anything anyhow.
Proof.
  intros H1 H2. unfold userdata_clone.
  eapply triple_bind with (R := anything);
    [|intros [text|] _; [apply userdata_inject_asks, H2 | triple_auto]].
  unfold getitem, param_str, userdata_of. triple_auto.
Qed.

Lemma wait_available_asks P fuel target_ebs :
  P (DescribeVolumes target_ebs) = true ->
  triple (wait_available fuel target_ebs) P anything anyhow.
Proof.
  intros H1. induction fuel as [|fuel IH]; simpl; [triple_auto|].
  unfold volumes_of, index0. triple_auto; exact IH.
Qed.

Lemma wait_deleted_asks P fuel target_ebs :
  P (DescribeVolumes target_ebs) = true ->
  triple (wait_deleted fuel target_ebs) P anything anyhow.
Proof.
  intros H1. induction fuel as [|fuel IH]; simpl; [triple_auto|].
  eapply triple_bind with (R := anything);
    [triple_auto | intros [] _; [triple_auto | exact IH]].
Qed.

Lemma nuke_root_ebs_asks P fuel instance :
  P (DescribeInstances instance) = true ->
  (forall volume, P (DetachVolume instance volume) = true) ->
  (forall volume, P (DescribeVolumes volume) = true) ->
  (forall volume, P (DeleteVolume volume) = true) ->
  triple (nuke_root_ebs fuel instance) P anything anyhow.
Proof.
  intros H1 H2 H3 H4.
  unfold nuke_root_ebs, reservations_of, index0. triple_auto.
  all: first [apply wait_available_asks, H3 | apply wait_deleted_asks, H3].
Qed.

Lemma attach_loop_asks P instance ebs_info previous :
  (forall device volume, P (AttachVolume device instance volume) = true) ->
  triple (attach_loop instance ebs_info previous) P anything anyhow.
Proof.
  intros H1.
  revert previous. induction ebs_info as [|v rest IH]; intros previous; simpl.
  - triple_auto.
  - eapply triple_bind with (R := anything); [apply first_tag_triple | intros ? _].
    triple_auto. apply IH.
Qed.

Lemma ebs_reconstitution_attach_asks P instance ebs_info :
  (forall device volume, P (AttachVolume device instance volume) = true) ->
  triple (ebs_reconstitution_attach instance ebs_info) P anything anyhow.
Proof.
  intros H1. unfold ebs_reconstitution_attach.
  eapply triple_bind with (R := anything); [triple_auto | intros _ _].
  eapply triple_bind with (R := anything); [apply attach_loop_asks, H1 | intros ? _].
  triple_auto.
Qed.

(** The steps of the module body after the launch, for the instance
    [instance], ask only what [P] allows when [P] allows what each of
    them asks and what the command line enables. *)
Lemma after_launch_asks P fuel instance vols groups content attrs :
  P (DescribeInstanceStatus instance) = true ->
  P (DescribeInstances instance) = true ->
  P (StopInstances instance) = true ->
  (forall volume, P (DetachVolume instance volume) = true) ->
  (forall volume, P (DescribeVolumes volume) = true) ->
  (forall volume, P (DeleteVolume volume) = true) ->
  (forall device volume, P (AttachVolume device instance volume) = true) ->
  (truthy (SECURITY_GROUPS cfg) = true -> P (ModifyInstanceGroups groups instance) = true) ->
  (forall text, content = Some text \/ USERDATA_BOOL cfg = true ->
                P (ModifyInstanceUserData instance text) = true) ->
  (USERDATA_BOOL cfg = true ->
   forall source, P (DescribeInstanceAttribute "userData" source) = true) ->
  (POWER_ON cfg = true -> P (StartInstances instance) = true) ->
  triple (after_launch fuel instance vols groups content attrs) P anything anyhow.
Proof.
  unfold after_launch.
  intros Hstatus Hinfo Hstop Hdetach Hvolumes Hdelete Hattach Hgroups Hdata Hsource Hstart.
  eapply triple_bind with (R := anything); [triple_auto | intros ? _].
  eapply triple_bind with (R := anything);
    [apply recovery_ec2_monitor_transition_asks; assumption | intros ? _].
  eapply triple_bind with (R := anything);
    [apply recovery_ec2_stop_asks; assumption | intros ? _].
  eapply triple_bind with (R := anything);
    [apply recovery_ec2_monitor_transition_asks; assumption | intros ? _].
  eapply triple_bind with (R := anything);
    [apply nuke_root_ebs_asks; assumption | intros ? _].
  eapply triple_bind with (R := anything);
    [apply ebs_reconstitution_attach_asks; assumption | intros ? _].
  eapply triple_bind with (R := anything); [|intros ? _].
  { destruct (truthy (SECURITY_GROUPS cfg));
      [apply recovery_ec2_add_access_asks; auto | triple_auto]. }
  eapply triple_bind with (R := anything); [|intros ? _].
  { destruct content as [text|];
      [apply userdata_inject_asks; auto | triple_auto]. }
  eapply triple_bind with (R := anything); [|intros ? _].
  { destruct (USERDATA_BOOL cfg);
      [apply userdata_clone_asks; auto | triple_auto]. }
  destruct (POWER_ON cfg); [|triple_auto].
  eapply triple_bind with (R := anything);
    [apply recovery_ec2_power_on_asks; auto | intros ? _].
  eapply triple_bind with (R := anything);
    [apply recovery_ec2_monitor_transition_asks; assumption | intros ? _].
  apply recovery_ec2_get_connect_asks; assumption.
Qed.

(** ** The module body, part by part *)

Lemma main_unfold fuel :
  main fuel
  = ((if USERDATA_BOOL cfg && truthy (USERDATA_FILE cfg) then
        sys_exit "ERROR: `-u` and `-U` are mutually-exclusive options"
      else ret tt) ;;
     USERDATA_CONTENT <-
       match USERDATA_FILE cfg with
       | Some file => if truthy (Some file)
                      then content <- userdata_read_file file ;; ret (Some content)
                      else ret None
       | None => ret None
       end ;;
     checked_run fuel USERDATA_CONTENT).
Proof. reflexivity. Qed.

(** A step of the validation inside a chain checked against [P]. *)
Ltac chain_lookup lemma R' :=
  eapply triple_bind with (R := R');
  [ eapply triple_weaken;
    [ solve [lemma]
    | first [ intros ? Hr; exact Hr | assumption ]
    | intros ? Ha; exact Ha
    | intros ? ?; exact I ]
  | ].

Lemma rebuild_triple P fuel az groups content attrs :
  (forall build iops snapshot tags kind,
      P (CreateVolume build iops snapshot tags kind) = true) ->
  (forall image kind key subnet label,
      P (RunInstances image kind key subnet az label) = true) ->
  (forall instance vols,
      triple (after_launch fuel instance vols groups content attrs) P anything anyhow) ->
  triple (rebuild fuel az groups content attrs) P anything anyhow.
Proof.
  intros Hcreate Hlaunch Hafter. unfold rebuild.
  chain_lookup ltac:(apply recovery_ec2_get_az_silent) (@anything string). intros build _.
  eapply triple_bind with (R := anything); [|intros vols _].
  { unfold ebs_snap_reconstitute. apply reconstitute_loop_triple. intros. apply Hcreate. }
  eapply triple_bind with (R := anything);
    [apply recovery_ec2_make_triple, Hlaunch | intros launched _].
  eapply triple_bind with (R := anything);
    [unfold instances_of; triple_auto | intros instances _].
  eapply triple_bind with (R := anything);
    [unfold index0; triple_auto | intros instance _].
  apply Hafter.
Qed.

(** ** Dictionaries and attribute records *)

Lemma dict_get_set_same {V} (k : string) (v : V) (d : dict V) :
  dict_get k (dict_set k v d) = Some v.
Proof.
  induction d as [|[k' v'] d IH]; cbn [dict_set dict_get].
  - rewrite String.eqb_refl. reflexivity.
  - destruct (String.eqb k k') eqn:E; cbn [dict_get]; rewrite E; [reflexivity | exact IH].
Qed.

Lemma dict_get_set_other {V} (k k' : string) (v : V) (d : dict V) :
  k' <> k -> dict_get k' (dict_set k v d) = dict_get k' d.
Proof.
  intros Hne. induction d as [|[k0 v0] d IH]; cbn [dict_set dict_get].
  - apply String.eqb_neq in Hne. rewrite Hne. reflexivity.
  - destruct (String.eqb_spec k k0) as [->|Hk]; cbn [dict_get].
    + apply String.eqb_neq in Hne. rewrite Hne. reflexivity.
    + rewrite IH. reflexivity.
Qed.

Lemma find_append {X} (p : X -> bool) (l l' : list X) :
  find p (l ++ l')
  = match find p l with
    | Some x => Some x
    | None => find p l'
    end.
Proof.
  induction l as [|x l IH]; cbn [app find]; [reflexivity|].
  destruct (p x); [reflexivity | exact IH].
Qed.

(** A dictionary filled by one assignment per element of a list holds,
    under each key, the value of the last element with that key. *)
Lemma fold_dict_set_get {X V} (key : X -> string) (val : X -> V)
    (xs : list X) (acc : dict V) (k : string) :
  dict_get k (fold_left (fun d x => dict_set (key x) (val x) d) xs acc)
  = match find (fun x => String.eqb (key x) k) (rev xs) with
    | Some x => Some (val x)
    | None => dict_get k acc
    end.
Proof.
  revert acc. induction xs as [|x xs IH]; intros acc; cbn [fold_left rev find].
  - reflexivity.
  - rewrite IH, find_append.
    destruct (find (fun x0 => String.eqb (key x0) k) (rev xs)) as [y|]; [reflexivity|].
    cbn [find]. destruct (String.eqb_spec (key x) k) as [<-|Hne].
    + apply dict_get_set_same.
    + apply dict_get_set_other. congruence.
Qed.

Lemma tag_value_find key (tags : list (string * string)) :
  tag_value key tags
  = option_map snd (find (fun tag => String.eqb (fst tag) key) tags).
Proof.
  induction tags as [|[k v] tags IH]; cbn [tag_value find fst]; [reflexivity|].
  destruct (String.eqb k key); [reflexivity | exact IH].
Qed.

Lemma dict_set_fresh {V} (k : string) (v : V) (d : dict V) :
  ~ In k (map fst d) -> dict_set k v d = (d ++ [(k, v)])%list.
Proof.
  induction d as [|[k' v'] d IH]; cbn [dict_set map fst In app]; intros Hfresh.
  - reflexivity.
  - destruct (String.eqb_spec k k') as [->|Hne];
      [exfalso; apply Hfresh; left; reflexivity|].
    rewrite IH; [reflexivity | intros Hin; apply Hfresh; right; exact Hin].
Qed.

Lemma tags_to_attribs_distinct (snaps : list snapshot_info) :
  NoDup (map SnapshotId snaps) ->
  tags_to_attribs snaps
  = map (fun info => (SnapshotId info, snap_attributes_of info)) snaps.
Proof.
  unfold tags_to_attribs.
  enough (Hgen : forall acc,
             NoDup (map fst acc ++ map SnapshotId snaps) ->
             fold_left
               (fun (d : dict (dict attr_val)) info =>
                  dict_set (SnapshotId info) (snap_attributes_of info) d)
               snaps acc
             = (acc ++ map (fun info => (SnapshotId info, snap_attributes_of info))
                           snaps)%list)
    by (intros Hnd; apply (Hgen [] Hnd)).
  induction snaps as [|info snaps IH]; intros acc Hnd; cbn [fold_left map].
  - rewrite app_nil_r. reflexivity.
  - cbn [map] in Hnd.
    rewrite dict_set_fresh.
    + rewrite IH.
      * rewrite <- app_assoc. reflexivity.
      * rewrite map_app, <- app_assoc. exact Hnd.
    + apply NoDup_remove_2 in Hnd. intros Hin. apply Hnd, in_or_app. auto.
Qed.

(** ** Properties of a log that survive a step *)

(** A property of logs that holds of the empty log and survives a step
    in front that asks only what [P] allows. *)
Lemma log_skip {A B} (G : list event -> Prop) (m : M A) (f : A -> M B) (w : W) P R H :
  triple m P R H ->
  (forall l l', forallb (allowed P) l = true -> G l' -> G (l ++ l')%list) ->
  G [] ->
  (forall a w', R a -> G (log (f a w'))) ->
  G (log (bind m f w)).
Proof.
  intros Hm Hpre Hnil Hf. destruct (Hm w) as [Hl Ho].
  destruct (bind_cases m f w) as [(a & Ha & _ & ->)|(h & _ & _ & ->)].
  - apply Hpre; [exact Hl|]. apply Hf. rewrite Ha in Ho. exact Ho.
  - rewrite <- (app_nil_r (log (m w))). apply Hpre; [exact Hl | exact Hnil].
Qed.

Lemma log_index0 {A} (l : list A) (w : W) : log (index0 l w) = [].
Proof. destruct l; reflexivity. Qed.

(** ** What the validators ask *)

Lemma validate_ami_id_asks P :
  (forall ami, P (DescribeImages ami) = true) ->
  triple validate_ami_id P anything aborted.
Proof. intros H1. unfold validate_ami_id. triple_auto. Qed.

Lemma validate_subnet_in_zone P (zone : string) :
  P (DescribeSubnets (EC2_SUBNET cfg)) = true ->
  (forall w zones,
      fst (client w (DescribeSubnets (EC2_SUBNET cfg))) = Some (RSubnets zones) ->
      hd_error zones = Some zone) ->
  triple (validate_subnet (EC2_SUBNET cfg)) P (fun az => az = zone) aborted.
Proof.
  intros HP Hsub. unfold validate_subnet.
  eapply triple_bind
    with (R := fun r => forall zones, r = RSubnets zones -> hd_error zones = Some zone).
  - apply triple_try.
    + apply triple_call; [exact HP | | intros _; exact I].
      intros w x Hx zones ->. exact (Hsub w zones Hx).
    + intros [] k Hk; try discriminate. injection Hk as <-. triple_auto.
  - intros r Hr. unfold subnets_of.
    destruct r as [|zones|snaps|v|ids|statuses|rs|states|value];
      try (eapply triple_bind with (R := nothing);
           [apply triple_halt; exact I | intros ? []]).
    eapply triple_bind with (R := fun l => l = zones); [apply triple_ret; reflexivity|].
    intros l ->. specialize (Hr zones eq_refl).
    destruct zones as [|z zones]; [discriminate|]. injection Hr as ->.
    simpl. apply triple_ret. reflexivity.
Qed.

Lemma trim_loop_silent P budget l : triple (trim_loop budget l) P anything aborted.
Proof.
  revert l. induction budget as [|budget IH]; intros l; simpl.
  - triple_auto.
  - triple_auto. apply IH.
Qed.

Lemma check_security_group_asks P security_group :
  P (DescribeSecurityGroups security_group) = true ->
  triple (check_security_group security_group) P anything aborted.
Proof. intros H1. unfold check_security_group. triple_auto. Qed.

Lemma validate_security_group_asks P :
  (forall sg, P (DescribeSecurityGroups sg) = true) ->
  triple validate_security_group P anything aborted.
Proof.
  intros H1. unfold validate_security_group, trim_security_groups. triple_auto.
  - apply trim_loop_silent.
  - apply for_each_triple. intros sg. apply check_security_group_asks, H1.
Qed.

Lemma validate_provision_key_asks P :
  (forall key, P (DescribeKeyPairs key) = true) ->
  triple validate_provision_key P anything aborted.
Proof. intros H1. unfold validate_provision_key. triple_auto. Qed.

(** ** Reaching a step *)

Lemma not_allowed_not_in P (e : event) (l : list event) :
  forallb (allowed P) l = true -> allowed P e = false -> ~ In e l.
Proof.
  intros Hl He Hin. rewrite forallb_forall in Hl. rewrite (Hl e Hin) in He.
  discriminate He.
Qed.

(** An event that a step cannot have logged was logged by what follows
    the step, which therefore returned. *)
Lemma bind_reach {A B} (m : M A) (f : A -> M B) (w : W) (e : event) P R H :
  triple m P R H -> allowed P e = false ->
  In e (log (bind m f w)) ->
  exists a,
    R a /\ In e (log (f a (world (m w)))) /\
    out (bind m f w) = out (f a (world (m w))).
Proof.
  intros Hm He Hin. destruct (Hm w) as [Hl Ho].
  pose proof (not_allowed_not_in P e _ Hl He) as Hnot.
  destruct (bind_cases m f w) as [(a & Ha & Hout & Hlog)|(h & _ & _ & Hlog)];
    rewrite Hlog in Hin.
  - apply in_app_or in Hin as [Hin|Hin]; [contradiction|].
    exists a. rewrite Ha in Ho. auto.
  - contradiction.
Qed.

(** ** C9: an unsupported volume kind *)

Lemma existsb_find_rev {X} (p : X -> bool) (l : list X) :
  existsb p l = match find p (rev l) with
                | Some _ => true
                | None => false
                end.
Proof.
  induction l as [|x l IH]; cbn [existsb rev]; [reflexivity|].
  rewrite find_append, IH.
  destruct (find p (rev l)); [apply orb_true_r|].
  cbn [find]. destruct (p x); reflexivity.
Qed.

Lemma snap_attributes_get (info : snapshot_info) (key : string) :
  dict_get key (snap_attributes_of info)
  = match tag_value key (rev (Tags info)) with
    | Some value => Some (VStr value)
    | None => if String.eqb key "VolumeSize"
              then Some (VInt (VolumeSize info))
              else None
    end.
Proof.
  unfold snap_attributes_of.
  rewrite (fold_dict_set_get fst (fun tag => VStr (snd tag))), tag_value_find.
  destruct (find (fun tag => String.eqb (fst tag) key) (rev (Tags info)));
    reflexivity.
Qed.

Lemma carries_get (key : string) (info : snapshot_info) :
  carries key info
  = match dict_get key (snap_attributes_of info) with
    | Some _ => true
    | None => false
    end.
Proof.
  rewrite snap_attributes_get, tag_value_find. unfold carries.
  rewrite existsb_find_rev.
  destruct (find (fun tag => String.eqb (fst tag) key) (rev (Tags info)));
    cbn [option_map]; [apply orb_true_r|].
  rewrite orb_false_r. destruct (String.eqb key "VolumeSize"); reflexivity.
Qed.

Lemma original_az_is_text (info : snapshot_info) :
  dict_get "Original AZ" (snap_attributes_of info) = None \/
  exists az, dict_get "Original AZ" (snap_attributes_of info) = Some (VStr az).
Proof.
  rewrite snap_attributes_get.
  destruct (tag_value "Original AZ" (rev (Tags info))) as [az|]; eauto.
Qed.

Lemma recovery_ec2_get_az_fallback snapshot attrs rest (w : W) :
  out (recovery_ec2_get_az "" ((snapshot, attrs) :: rest) w)
  = match dict_get "Original AZ" attrs with
    | Some (VStr az) => Ret az
    | Some (VInt _) => Halt (Raise TypeError)
    | None => Halt (Raise (KeyError "Original AZ"))
    end.
Proof.
  unfold recovery_ec2_get_az, getitem, concat_str, bind.
  cbn [String.eqb dict_keys map fst dict_get ret out world log].
  rewrite String.eqb_refl. cbn [ret out world log].
  destruct (dict_get "Original AZ" attrs) as [[n|az]|]; reflexivity.
Qed.

Lemma reconstitute_unsupported_out build_az ebs_type snapshot attrs rest acc (w : W) :
  ebs_type <> "io1" -> ebs_type <> "gp2" ->
  out (reconstitute_loop build_az ebs_type ((snapshot, attrs) :: rest) acc w)
  = match dict_get (SNAP_EC2_ID_TAG cfg) attrs, dict_get (SNAP_DEV_TAG cfg) attrs with
    | None, _ => Halt (Raise (KeyError (SNAP_EC2_ID_TAG cfg)))
    | Some _, None => Halt (Raise (KeyError (SNAP_DEV_TAG cfg)))
    | Some _, Some _ => Halt (Exit (unsupported_message ebs_type))
    end.
Proof.
  intros H1 H2. cbn [reconstitute_loop]. unfold create_from_snapshot.
  apply String.eqb_neq in H1, H2. rewrite H1, H2.
  rewrite out_bind. unfold getitem at 1.
  destruct (dict_get (SNAP_EC2_ID_TAG cfg) attrs) as [ec2|];
    cbn [ret raise halt_with out world]; [|reflexivity].
  rewrite out_bind. unfold getitem at 1.
  destruct (dict_get (SNAP_DEV_TAG cfg) attrs) as [device|];
    cbn [ret raise halt_with out world]; [|reflexivity].
  rewrite out_bind. cbn [print_ tell out world].
  rewrite out_bind. reflexivity.
Qed.

Lemma reconstitute_unsupported build_az ebs_type snapshot attrs rest acc :
  ebs_type <> "io1" -> ebs_type <> "gp2" ->
  triple (reconstitute_loop build_az ebs_type ((snapshot, attrs) :: rest) acc)
         quiet nothing aborted.
Proof.
  intros H1 H2. cbn [reconstitute_loop]. unfold create_from_snapshot.
  apply String.eqb_neq in H1, H2. rewrite H1, H2.
  eapply triple_bind with (R := anything); [apply getitem_triple; exact I | intros ? _].
  eapply triple_bind with (R := anything); [apply getitem_triple; exact I | intros ? _].
  eapply triple_bind with (R := anything); [triple_auto | intros ? _].
  eapply triple_bind with (R := nothing); [triple_auto | intros ? []].
Qed.

(** From the choice of the zone on, a run of an unsupported kind over
    the batch [first :: rest] ends where the first record decides. *)
Lemma rebuild_unsupported (fuel : nat) (zone : string) groups content
    (first : snapshot_info) (rest : list snapshot_info) (w : W) :
  EBS_TYPE cfg <> "io1" -> EBS_TYPE cfg <> "gp2" ->
  NoDup (map SnapshotId (first :: rest)) ->
  out (rebuild fuel zone groups content (tags_to_attribs (first :: rest)) w)
  = if String.eqb zone "" && negb (carries "Original AZ" first)
    then Halt (Raise (KeyError "Original AZ"))
    else if negb (carries (SNAP_EC2_ID_TAG cfg) first)
    then Halt (Raise (KeyError (SNAP_EC2_ID_TAG cfg)))
    else if negb (carries (SNAP_DEV_TAG cfg) first)
    then Halt (Raise (KeyError (SNAP_DEV_TAG cfg)))
    else Halt (Exit (unsupported_message (EBS_TYPE cfg))).
Proof.
  intros H1 H2 Hdistinct. unfold rebuild.
  rewrite (tags_to_attribs_distinct _ Hdistinct). cbn [map].
  rewrite !carries_get, out_bind.
  assert (Hrest :
            forall build w',
              out (bind (ebs_snap_reconstitute build (EBS_TYPE cfg)
                           ((SnapshotId first, snap_attributes_of first)
                              :: map (fun info => (SnapshotId info, snap_attributes_of info))
                                     rest))
                        (fun RESTORED_EBS_INFO =>
                           launched <- recovery_ec2_make zone ;;
                           instances <- instances_of launched ;;
                           RECOVERY_HOST_INSTANCE_ID <- index0 instances ;;
                           after_launch fuel RECOVERY_HOST_INSTANCE_ID RESTORED_EBS_INFO
                                        groups content
                                        ((SnapshotId first, snap_attributes_of first)
                                           :: map (fun info =>
                                                     (SnapshotId info, snap_attributes_of info))
                                                  rest)) w')
              = if negb match dict_get (SNAP_EC2_ID_TAG cfg) (snap_attributes_of first) with
                        | Some _ => true
                        | None => false
                        end
                then Halt (Raise (KeyError (SNAP_EC2_ID_TAG cfg)))
                else if negb match dict_get (SNAP_DEV_TAG cfg) (snap_attributes_of first) with
                             | Some _ => true
                             | None => false
                             end
                then Halt (Raise (KeyError (SNAP_DEV_TAG cfg)))
                else Halt (Exit (unsupported_message (EBS_TYPE cfg)))).
  { intros build w'. rewrite out_bind. unfold ebs_snap_reconstitute.
    rewrite (reconstitute_unsupported_out _ _ _ _ _ _ _ H1 H2).
    destruct (dict_get (SNAP_EC2_ID_TAG cfg) (snap_attributes_of first));
      [|reflexivity].
    destruct (dict_get (SNAP_DEV_TAG cfg) (snap_attributes_of first)); reflexivity. }
  destruct (String.eqb_spec zone "") as [->|Hzone].
  - rewrite recovery_ec2_get_az_fallback.
    destruct (original_az_is_text first) as [Hnone|(az & Haz)].
    + rewrite Hnone. reflexivity.
    + rewrite Haz. cbn [andb negb]. apply Hrest.
  - rewrite (recovery_ec2_get_az_given zone _ w Hzone). cbn [out world andb].
    apply Hrest.
Qed.

Lemma ebs_snap_tags_to_attribs_answered (first : snapshot_info)
    (rest : list snapshot_info) (w : W) :
  In (batch_answered (first :: rest))
     (log (ebs_snap_tags_to_attribs (SNAP_SEARCH_VAL cfg) w)) ->
  out (ebs_snap_tags_to_attribs (SNAP_SEARCH_VAL cfg) w)
  = Ret (tags_to_attribs (first :: rest)).
Proof.
  unfold ebs_snap_tags_to_attribs, ebs_get_snap_info, batch_answered, snapshots_of.
  unfold bind, call.
  destruct (client w (DescribeSnapshots ("tag:" ++ SNAP_SEARCH_TAG cfg)
                                        (SNAP_SEARCH_VAL cfg))) as [[x|] w'];
    cbn [out world log app ret raise halt_with].
  - destruct x as [|zones|snaps|v|ids|statuses|rs|states|value];
      cbn [out world log app ret raise halt_with In];
      try (intros [Hin|[]]; discriminate Hin).
    destruct snaps as [|s snaps];
      cbn [out world log app ret sys_exit halt_with In];
      intros [Hin|[]]; [discriminate Hin|].
    injection Hin as -> ->. reflexivity.
  - intros [Hin|[]]. discriminate Hin.
Qed.

Lemma main_reaches_rebuild (zone : string) (first : snapshot_info)
    (rest : list snapshot_info) (fuel : nat) (w : W) :
  (forall w zones,
      fst (client w (DescribeSubnets (EC2_SUBNET cfg))) = Some (RSubnets zones) ->
      hd_error zones = Some zone) ->
  In (batch_answered (first :: rest)) (log (main fuel w)) ->
  exists groups content w',
    out (main fuel w)
    = out (rebuild fuel zone groups content (tags_to_attribs (first :: rest)) w').
Proof.
  intros Hzone Hin. rewrite main_unfold in *.
  eapply bind_reach in Hin; [|apply (prelude_silent before_batch) | reflexivity].
  destruct Hin as (u & _ & Hin & ->).
  eapply bind_reach in Hin; [|apply (userdata_content_silent before_batch) | reflexivity].
  destruct Hin as (content & _ & Hin & ->).
  unfold checked_run in *.
  eapply bind_reach in Hin;
    [|apply (validate_ami_id_asks before_batch); reflexivity | reflexivity].
  destruct Hin as (u' & _ & Hin & ->).
  eapply bind_reach in Hin;
    [|apply (validate_subnet_in_zone before_batch zone eq_refl Hzone) | reflexivity].
  destruct Hin as (az & -> & Hin & ->).
  eapply bind_reach in Hin;
    [|apply (validate_security_group_asks before_batch); reflexivity | reflexivity].
  destruct Hin as (groups & _ & Hin & ->).
  eapply bind_reach in Hin;
    [|apply (validate_provision_key_asks before_batch); reflexivity | reflexivity].
  destruct Hin as (u'' & _ & Hin & ->).
  match type of Hin with
  | In _ (log (bind ?m ?f ?w')) =>
      destruct (bind_cases m f w') as [(attrs & Hattrs & Hout & Hlog)|(h & Hh & Hout & Hlog)];
      rewrite Hlog in Hin; rewrite Hout
  end.
  - apply in_app_or in Hin as [Hin|Hin].
    + rewrite (ebs_snap_tags_to_attribs_answered _ _ _ Hin) in Hattrs.
      injection Hattrs as <-. eauto.
    + exfalso. revert Hin. apply (not_allowed_not_in before_batch); [|reflexivity].
      apply rebuild_triple; try reflexivity.
      intros instance vols. apply after_launch_asks; reflexivity.
  - rewrite (ebs_snap_tags_to_attribs_answered _ _ _ Hin) in Hh. discriminate Hh.
Qed.

(** C9.  A volume kind other than io1 and gp2 stops every run before a
    volume or an instance is requested: whatever the provider answers, the
    run aborts without a single create-volume or run-instances request.
    How a run that was answered the batch [first :: rest] aborts is
    decided by the first snapshot of the batch, whose attribute record is
    read before the kind is looked at: with both provenance tags on it the
    run exits with the unsupported-kind message; without the instance tag,
    or else without the device tag, it dies of the KeyError for that tag.
    (Before that, a subnet without a zone makes the run read the snapshot's
    Original AZ tag, and die of a KeyError if there is none.) *)
Theorem C9_unsupported_kind_aborts_before_provisioning :
  EBS_TYPE cfg <> "io1" -> EBS_TYPE cfg <> "gp2" ->
  (forall fuel w,
      forallb (allowed quiet) (log (main fuel w)) = true /\
      exists h, out (main fuel w) = Halt h /\ aborted h) /\
  (forall zone first rest,
      (forall w zones,
          fst (client w (DescribeSubnets (EC2_SUBNET cfg))) = Some (RSubnets zones) ->
          hd_error zones = Some zone) ->
      NoDup (map SnapshotId (first :: rest)) ->
      forall fuel w,
        In (batch_answered (first :: rest)) (log (main fuel w)) ->
        let placed := negb (String.eqb zone "") || carries "Original AZ" first in
        let has_instance := carries (SNAP_EC2_ID_TAG cfg) first in
        let has_device := carries (SNAP_DEV_TAG cfg) first in
        (placed = true -> has_instance = true -> has_device = true ->
         out (main fuel w) = Halt (Exit (unsupported_message (EBS_TYPE cfg)))) /\
        (placed = true -> has_instance = false ->
         out (main fuel w) = Halt (Raise (KeyError (SNAP_EC2_ID_TAG cfg)))) /\
        (placed = true -> has_instance = true -> has_device = false ->
         out (main fuel w) = Halt (Raise (KeyError (SNAP_DEV_TAG cfg)))) /\
        (placed = false ->
         out (main fuel w) = Halt (Raise (KeyError "Original AZ")))).
Proof.
  intros H1 H2. split.
  - intros fuel. apply triple_run. unfold main.
    chain_step ltac:(apply prelude_quiet).
    chain_step ltac:(apply userdata_content_quiet).
    chain_step ltac:(apply validate_ami_id_quiet).
    chain_step ltac:(apply validate_subnet_quiet).
    chain_step ltac:(apply validate_security_group_quiet).
    chain_step ltac:(apply validate_provision_key_quiet).
    eapply triple_bind; [apply ebs_snap_tags_to_attribs_quiet | intros attrs Hne].
    chain_step ltac:(apply recovery_ec2_get_az_quiet).
    eapply triple_bind with (R := nothing); [|intros ? []].
    unfold ebs_snap_reconstitute.
    destruct attrs as [|[snapshot rec] rest]; [congruence|].
    apply reconstitute_unsupported; assumption.
  - intros zone first rest Hzone Hdistinct fuel w Hin placed has_instance has_device.
    subst placed has_instance has_device.
    destruct (main_reaches_rebuild zone first rest fuel w Hzone Hin)
      as (groups & content & w' & ->).
    rewrite (rebuild_unsupported fuel zone groups content first rest w' H1 H2 Hdistinct).
    destruct (String.eqb zone ""), (carries "Original AZ" first),
      (carries (SNAP_EC2_ID_TAG cfg) first), (carries (SNAP_DEV_TAG cfg) first);
      cbn [negb andb orb]; repeat split; intros; first [reflexivity | discriminate].
Qed.

(** ** C1: where the reconstructed volumes are attached *)

Lemma bind_ret_inv {A B} (m : M A) (f : A -> M B) (w : W) (b : B) :
  out (bind m f w) = Ret b ->
  exists a,
    out (m w) = Ret a /\
    out (f a (world (m w))) = Ret b /\
    log (bind m f w) = (log (m w) ++ log (f a (world (m w))))%list.
Proof.
  unfold bind. destruct (out (m w)) as [a|h] eqn:E; cbn [out log]; intros Hb.
  - exists a. auto.
  - discriminate.
Qed.

Lemma try_ret_inv {A} (m : M A) hd (w : W) (a : A) :
  out (try_except m hd w) = Ret a ->
  (forall e k w', hd e = Some k -> out (k w') <> Ret a) ->
  try_except m hd w = m w.
Proof.
  unfold try_except. intros Ha Hhd.
  destruct (out (m w)) as [x|[msg|e|]] eqn:E; try reflexivity.
  destruct (hd e) as [k|] eqn:Ek; [|reflexivity].
  cbn [out] in Ha. exfalso. exact (Hhd e k _ Ek Ha).
Qed.

Lemma call_ret_inv (r : request) (w : W) (x : response) :
  out (call r w) = Ret x ->
  fst (client w r) = Some x /\ log (call r w) = [EvCall r (Some x)].
Proof.
  unfold call. destruct (client w r) as [[y|] w']; cbn [out log fst].
  - intros [= ->]. auto.
  - discriminate.
Qed.

Lemma creations_app l l' : creations (l ++ l') = (creations l ++ creations l')%list.
Proof. apply flat_map_app. Qed.

Lemma attachments_app l l' :
  attachments (l ++ l') = (attachments l ++ attachments l')%list.
Proof. apply flat_map_app. Qed.

Lemma creations_none (l : list event) (P : request -> bool) :
  forallb (allowed P) l = true ->
  (forall az iops snapshot tags kind, P (CreateVolume az iops snapshot tags kind) = false) ->
  creations l = [].
Proof.
  intros Hl HP. induction l as [|e l IH]; [reflexivity|].
  cbn [forallb] in Hl. apply andb_prop in Hl as [He Hl].
  unfold creations in *. cbn [flat_map]. rewrite (IH Hl), app_nil_r.
  destruct e as [r a| |]; try reflexivity.
  destruct r; try reflexivity. cbn [allowed] in He. rewrite HP in He. discriminate.
Qed.

Lemma attachments_none (l : list event) (P : request -> bool) :
  forallb (allowed P) l = true ->
  (forall device instance volume, P (AttachVolume device instance volume) = false) ->
  attachments l = [].
Proof.
  intros Hl HP. induction l as [|e l IH]; [reflexivity|].
  cbn [forallb] in Hl. apply andb_prop in Hl as [He Hl].
  unfold attachments in *. cbn [flat_map]. rewrite (IH Hl), app_nil_r.
  destruct e as [r a| |]; try reflexivity.
  destruct r; try reflexivity. cbn [allowed] in He. rewrite HP in He. discriminate.
Qed.

Lemma log_getitem {V} (d : dict V) k (w : W) : log (getitem d k w) = [].
Proof. unfold getitem. destruct (dict_get k d); reflexivity. Qed.

Lemma getitem_ret_inv {V} (d : dict V) k (w : W) v :
  out (getitem d k w) = Ret v -> dict_get k d = Some v.
Proof. unfold getitem. destruct (dict_get k d); cbn; congruence. Qed.

Lemma log_param_str v (w : W) : log (param_str v w) = [].
Proof. destruct v; reflexivity. Qed.

Lemma param_str_ret_inv v (w : W) s : out (param_str v w) = Ret s -> v = VStr s.
Proof. destruct v; cbn; congruence. Qed.

Lemma log_volume_of r (w : W) : log (volume_of r w) = [].
Proof. destruct r; reflexivity. Qed.

Lemma volume_of_ret_inv r (w : W) v : out (volume_of r w) = Ret v -> r = RVolume v.
Proof. destruct r; cbn; congruence. Qed.

Lemma log_validate_io1_config v (w : W) : log (validate_io1_config v w) = [].
Proof.
  unfold validate_io1_config. destruct v as [n|]; [|reflexivity].
  destruct (n <? 4); [reflexivity|].
  unfold bind.
  destruct (EBS_IOPS cfg >? 0); [|reflexivity].
  destruct ((EBS_IOPS cfg <? 3) || (EBS_IOPS cfg >? 50)); reflexivity.
Qed.

Lemma create_failed_exits {A} e (k : M A) (w : W) a :
  create_failed e = Some k -> out (k w) <> Ret a.
Proof.
  destruct e; cbn; intros [= <-]; discriminate.
Qed.

(** Takes the first step off a chain that is known to return. *)
Ltac invert_bind H a Hm :=
  let Hl := fresh "Hl" in
  apply bind_ret_inv in H; destruct H as (a & Hm & H & Hl);
  rewrite Hl; clear Hl; cbv beta in H |- *.

Section Echo.

(** The provider answers a volume creation with the tags it was asked
    to set. *)
Hypothesis echo :
  forall w az iops snapshot tags kind v,
    fst (client w (CreateVolume az iops snapshot tags kind)) = Some (RVolume v) ->
    VolumeTags v = tags.

Lemma create_from_snapshot_ret build_az ebs_type snapshot attrs
    original_ec2 device_value (w : W) (v : volume_info) :
  out (create_from_snapshot build_az ebs_type snapshot attrs
                            original_ec2 device_value w) = Ret v ->
  exists device,
    device_value = VStr device /\
    tag_value "Original Attachment" (VolumeTags v) = Some device /\
    creations (log (create_from_snapshot build_az ebs_type snapshot attrs
                                         original_ec2 device_value w))
    = [(snapshot, Some device, VolumeId v)].
Proof.
  unfold create_from_snapshot. intros H.
  destruct (String.eqb ebs_type "io1"); [|destruct (String.eqb ebs_type "gp2")].
  - rewrite (try_ret_inv _ _ _ _ H
               (fun e k w' Hk => create_failed_exits e k w' v Hk)) in H |- *.
    invert_bind H size Hsize. rewrite log_getitem.
    invert_bind H iops Hiops. rewrite log_validate_io1_config.
    invert_bind H ec2 Hec2. rewrite log_param_str.
    invert_bind H device Hdevice. rewrite log_param_str.
    invert_bind H r Hr. apply call_ret_inv in Hr as [Hr ->].
    invert_bind H v' Hv. rewrite log_volume_of.
    apply volume_of_ret_inv in Hv. subst r.
    invert_bind H u Hu.
    cbn in H. injection H as ->.
    apply param_str_ret_inv in Hdevice. apply echo in Hr.
    exists device. rewrite Hr. repeat split; try assumption; reflexivity.
  - rewrite (try_ret_inv _ _ _ _ H
               (fun e k w' Hk => create_failed_exits e k w' v Hk)) in H |- *.
    invert_bind H ec2 Hec2. rewrite log_param_str.
    invert_bind H device Hdevice. rewrite log_param_str.
    invert_bind H r Hr. apply call_ret_inv in Hr as [Hr ->].
    invert_bind H v' Hv. rewrite log_volume_of.
    apply volume_of_ret_inv in Hv. subst r.
    invert_bind H u Hu.
    cbn in H. injection H as ->.
    apply param_str_ret_inv in Hdevice. apply echo in Hr.
    exists device. rewrite Hr. repeat split; try assumption; reflexivity.
  - discriminate.
Qed.

Lemma reconstitute_loop_ret build_az ebs_type items acc (w : W) vols :
  out (reconstitute_loop build_az ebs_type items acc w) = Ret vols ->
  exists new,
    vols = (acc ++ new)%list /\
    map fst (creations (log (reconstitute_loop build_az ebs_type items acc w)))
    = map (fun item => (fst item, original_device (snd item))) items /\
    map (fun c => (snd (fst c), snd c))
        (creations (log (reconstitute_loop build_az ebs_type items acc w)))
    = map (fun v => (tag_value "Original Attachment" (VolumeTags v), VolumeId v)) new.
Proof.
  revert acc w vols.
  induction items as [|[snapshot attrs] rest IH]; intros acc w vols H.
  - cbn in H. injection H as <-. exists []. rewrite app_nil_r. auto.
  - cbn [reconstitute_loop] in H |- *.
    invert_bind H original_ec2 Hec2. rewrite log_getitem.
    invert_bind H device_value Hdev. rewrite log_getitem.
    invert_bind H u Hu.
    invert_bind H v Hv.
    destruct (create_from_snapshot_ret _ _ _ _ _ _ _ _ Hv) as (device & -> & Htag & Hc).
    destruct (IH _ _ _ H) as (new & -> & Hitems & Hnew).
    exists (v :: new). split; [rewrite <- app_assoc; reflexivity|].
    apply getitem_ret_inv in Hdev.
    assert (Hdevice : original_device attrs = Some device)
      by (unfold original_device; rewrite Hdev; reflexivity).
    cbn [app]. rewrite !creations_app, Hc. cbn [print_ tell log creations flat_map app].
    cbn [map fst snd]. rewrite Hitems, Hnew, Htag, Hdevice. auto.
Qed.

Lemma first_tag_ret key tags (w : W) v :
  out (first_tag key tags w) = Ret v ->
  tag_value key tags = Some v /\ log (first_tag key tags w) = [].
Proof.
  induction tags as [|[k x] tags IH]; cbn [first_tag tag_value]; [discriminate|].
  destruct (String.eqb k key); [|exact IH].
  cbn. intros [= ->]. auto.
Qed.

Lemma attach_loop_ret instance ebs_info previous (w : W) r :
  out (attach_loop instance ebs_info previous w) = Ret r ->
  map (fun a => (Some (fst a), snd a))
      (attachments (log (attach_loop instance ebs_info previous w)))
  = map (fun v => (tag_value "Original Attachment" (VolumeTags v), VolumeId v)) ebs_info.
Proof.
  revert previous w. induction ebs_info as [|v rest IH]; intros previous w H.
  - reflexivity.
  - cbn [attach_loop] in H |- *.
    invert_bind H attach_point Hpoint.
    apply first_tag_ret in Hpoint as [Htag ->].
    invert_bind H u Hu. invert_bind H u' Hu'.
    invert_bind H answer Hanswer. apply call_ret_inv in Hanswer as [_ ->].
    cbn [app]. rewrite !attachments_app.
    pose proof (IH _ _ H) as Hrest. unfold attachments in Hrest |- *.
    cbn [print_ print tell log flat_map app map fst snd].
    rewrite Hrest, Htag. reflexivity.
Qed.

Lemma ebs_reconstitution_attach_ret instance ebs_info (w : W) r :
  out (ebs_reconstitution_attach instance ebs_info w) = Ret r ->
  map (fun a => (Some (fst a), snd a))
      (attachments (log (ebs_reconstitution_attach instance ebs_info w)))
  = map (fun v => (tag_value "Original Attachment" (VolumeTags v), VolumeId v)) ebs_info.
Proof.
  unfold ebs_reconstitution_attach. intros H.
  invert_bind H u Hu. invert_bind H output Houtput.
  rewrite !attachments_app, map_app, map_app.
  rewrite (attach_loop_ret _ _ _ _ _ Houtput).
  destruct output as [x|]; cbn; rewrite app_nil_r; reflexivity.
Qed.

(** *** Runs that stop early *)

Lemma first_tag_log key tags (w : W) : log (first_tag key tags w) = [].
Proof.
  induction tags as [|[k x] tags IH]; cbn [first_tag]; [reflexivity|].
  destruct (String.eqb k key); [reflexivity | exact IH].
Qed.

Lemma silent_step_creates_nothing {A B} (m : M A) (f : A -> M B) (w : W) :
  (forall w', log (m w') = []) ->
  (forall a w', creates_only_if_returns (f a w')) ->
  creates_only_if_returns (bind m f w).
Proof.
  intros Hsilent Hf. unfold creates_only_if_returns.
  destruct (bind_cases m f w) as [(a & _ & Ho & Hl)|(h & _ & _ & Hl)];
    rewrite Hl, Hsilent.
  - rewrite Ho. exact (Hf a _).
  - right. reflexivity.
Qed.

Lemma create_call_creates_only_if_returns build_az iops snapshot tags ebs_type (w : W) :
  creates_only_if_returns
    ((r <- call (CreateVolume build_az iops snapshot tags ebs_type) ;;
      volume_info <- volume_of r ;;
      print (VolumeId volume_info) ;;
      ret volume_info) w).
Proof.
  unfold creates_only_if_returns.
  destruct (client w (CreateVolume build_az iops snapshot tags ebs_type))
    as [[x|] w1] eqn:Hclient.
  - destruct x as [| | |v| | | | |];
      try (right;
           erewrite run_bind_ret
             by (first [ apply run_call_ok; exact Hclient
                       | eapply run_bind_halt; reflexivity ]);
           reflexivity).
    left. exists v.
    erewrite run_bind_ret
      by (first [ apply run_call_ok; exact Hclient
                | eapply run_bind_ret;
                  [reflexivity | eapply run_bind_ret; reflexivity] ]).
    reflexivity.
  - right.
    erewrite run_bind_halt by (apply run_call_rejected; exact Hclient).
    reflexivity.
Qed.

Lemma create_failed_creates_only_if_returns {A} (m : M A) (w : W) :
  creates_only_if_returns (m w) ->
  creates_only_if_returns (try_except m create_failed w).
Proof.
  unfold creates_only_if_returns, try_except. intros [(a & Ha)|Hnone].
  - left. exists a. rewrite Ha. exact Ha.
  - destruct (out (m w)) as [a|[msg|e|]] eqn:E; try (right; exact Hnone).
    destruct e; cbn [create_failed sys_exit halt_with out world log];
      right; rewrite ?app_nil_r; exact Hnone.
Qed.

Lemma create_from_snapshot_creates_only_if_returns build_az ebs_type snapshot attrs
    original_ec2 device_value (w : W) :
  creates_only_if_returns
    (create_from_snapshot build_az ebs_type snapshot attrs
                          original_ec2 device_value w).
Proof.
  unfold create_from_snapshot.
  destruct (String.eqb ebs_type "io1"); [|destruct (String.eqb ebs_type "gp2")].
  - apply create_failed_creates_only_if_returns.
    apply silent_step_creates_nothing; [intros; apply log_getitem | intros ? ?].
    apply silent_step_creates_nothing;
      [intros; apply log_validate_io1_config | intros ? ?].
    apply silent_step_creates_nothing; [intros; apply log_param_str | intros ? ?].
    apply silent_step_creates_nothing; [intros; apply log_param_str | intros ? ?].
    apply create_call_creates_only_if_returns.
  - apply create_failed_creates_only_if_returns.
    apply silent_step_creates_nothing; [intros; apply log_param_str | intros ? ?].
    apply silent_step_creates_nothing; [intros; apply log_param_str | intros ? ?].
    apply create_call_creates_only_if_returns.
  - right. reflexivity.
Qed.

(** Splits on whether the first step of the chain in the goal returns. *)
Ltac split_bind a Ha Hh :=
  match goal with
  | |- context [log (bind ?m ?f ?w)] =>
      let Hl := fresh "Hl" in
      let h := fresh "h" in
      destruct (bind_cases m f w) as [(a & Ha & _ & Hl)|(h & Hh & _ & Hl)];
      rewrite Hl; clear Hl; cbv beta
  end.

Lemma reconstitute_loop_any build_az ebs_type items acc (w : W) :
  exists n,
    map fst (creations (log (reconstitute_loop build_az ebs_type items acc w)))
    = firstn n (map (fun item => (fst item, original_device (snd item))) items).
Proof.
  revert acc w. induction items as [|[snapshot attrs] rest IH]; intros acc w.
  - exists 0%nat. reflexivity.
  - cbn [reconstitute_loop].
    split_bind original_ec2 Hec2 Hh; rewrite log_getitem; cbn [app];
      [|exists 0%nat; reflexivity].
    split_bind device_value Hdev Hh; rewrite log_getitem; cbn [app];
      [|exists 0%nat; reflexivity].
    split_bind u Hu Hh; [|exists 0%nat; reflexivity].
    rewrite creations_app. cbn [print_ tell log]. 
    change (creations [EvPrint ("Creating " ++ ebs_type ++ " volume from "
                                  ++ snapshot ++ "... ")])
      with (@nil (string * option string * string)).
    cbn [app].
    split_bind v Hv Hh.
    + destruct (create_from_snapshot_ret _ _ _ _ _ _ _ _ Hv)
        as (device & -> & Htag & Hc).
      apply getitem_ret_inv in Hdev.
      assert (Hdevice : original_device attrs = Some device)
        by (unfold original_device; rewrite Hdev; reflexivity).
      rewrite creations_app, Hc.
      match goal with
      | |- context [reconstitute_loop _ _ rest ?acc' ?w'] =>
          destruct (IH acc' w') as [n Hn]
      end.
      exists (S n). cbn [app map firstn fst snd]. rewrite Hn, Hdevice. reflexivity.
    + exists 0%nat.
      destruct (create_from_snapshot_creates_only_if_returns
                  build_az ebs_type snapshot attrs original_ec2 device_value
                  (world (print_ ("Creating " ++ ebs_type ++ " volume from "
                                    ++ snapshot ++ "... ")
                                 (world (getitem attrs (SNAP_DEV_TAG cfg)
                                           (world (getitem attrs (SNAP_EC2_ID_TAG cfg) w)))))))
        as [(v & Hv)|Hnone]; [congruence|].
      rewrite Hnone. reflexivity.
Qed.

Lemma attach_loop_any instance ebs_info previous (w : W) :
  exists m,
    map (fun a => (Some (fst a), snd a))
        (attachments (log (attach_loop instance ebs_info previous w)))
    = firstn m (map (fun v => (tag_value "Original Attachment" (VolumeTags v),
                               VolumeId v)) ebs_info).
Proof.
  revert previous w. induction ebs_info as [|v rest IH]; intros previous w.
  - exists 0%nat. reflexivity.
  - cbn [attach_loop].
    split_bind attach_point Hpoint Hh; rewrite first_tag_log; cbn [app];
      [|exists 0%nat; reflexivity].
    apply first_tag_ret in Hpoint as [Htag _].
    split_bind u Hu Hh; [|exists 0%nat; reflexivity].
    split_bind u' Hu' Hh; [|exists 0%nat; reflexivity].
    rewrite !attachments_app.
    change (attachments (log (print_ ("Attaching " ++ VolumeId v ++ " to "
                                        ++ instance ++ " at ") _)))
      with (@nil (string * string)).
    change (attachments (log (print (attach_point ++ "...") _)))
      with (@nil (string * string)).
    cbn [app].
    match goal with
    | |- context [log (bind (call ?r) ?f ?w')] =>
        assert (Hcall : attachments (log (call r w')) = [(attach_point, VolumeId v)])
          by (unfold call; destruct (client w' r); reflexivity)
    end.
    split_bind answer Hanswer Hh; rewrite ?attachments_app, Hcall.
    + match goal with
      | |- context [attach_loop instance rest ?p ?w'] =>
          destruct (IH p w') as [m Hm]
      end.
      exists (S m). cbn [app map firstn fst snd]. rewrite Hm, Htag. reflexivity.
    + exists 1%nat. cbn [map firstn fst snd]. rewrite Htag. reflexivity.
Qed.

Lemma ebs_reconstitution_attach_any instance ebs_info (w : W) :
  exists m,
    map (fun a => (Some (fst a), snd a))
        (attachments (log (ebs_reconstitution_attach instance ebs_info w)))
    = firstn m (map (fun v => (tag_value "Original Attachment" (VolumeTags v),
                               VolumeId v)) ebs_info).
Proof.
  unfold ebs_reconstitution_attach.
  split_bind u Hu Hh; [|exists 0%nat; reflexivity].
  rewrite attachments_app.
  change (attachments (log (print (nl ++ "Getting ready to attach reconstituted EBS volumes") w)))
    with (@nil (string * string)).
  cbn [app].
  split_bind output Houtput Hh;
    match goal with
    | |- context [attach_loop instance ebs_info None ?w'] =>
        destruct (attach_loop_any instance ebs_info None w') as [m Hm]
    end;
    exists m; [|exact Hm].
  rewrite attachments_app.
  destruct output as [x|]; cbn [ret raise halt_with log attachments flat_map];
    rewrite app_nil_r; exact Hm.
Qed.

Lemma quiet_uninvolved r : quiet r = true -> uninvolved r = true.
Proof. destruct r; simpl; auto; discriminate. Qed.

(** A step of a returning chain that neither creates nor attaches adds
    nothing to either tally. *)
Lemma bind_skip {A B} (m : M A) (f : A -> M B) (w : W) (b : B) P R H :
  triple m P R H ->
  (forall r, P r = true -> uninvolved r = true) ->
  out (bind m f w) = Ret b ->
  exists a w',
    R a /\ out (f a w') = Ret b /\
    creations (log (bind m f w)) = creations (log (f a w')) /\
    attachments (log (bind m f w)) = attachments (log (f a w')).
Proof.
  intros Hm HP Hb. apply bind_ret_inv in Hb as (a & Ha & Hb & ->).
  destruct (triple_weaken _ _ uninvolved _ R _ H Hm HP (fun _ HR => HR) (fun _ Hh => Hh) w)
    as [Hl Ho].
  rewrite Ha in Ho.
  exists a, (world (m w)). repeat split; auto.
  - rewrite creations_app, (creations_none _ _ Hl); [reflexivity|reflexivity].
  - rewrite attachments_app, (attachments_none _ _ Hl); [reflexivity|reflexivity].
Qed.

Lemma bind_keep {A B} (m : M A) (f : A -> M B) (w : W) (b : B) :
  out (bind m f w) = Ret b ->
  exists a w',
    out (m w) = Ret a /\ out (f a w') = Ret b /\
    creations (log (bind m f w))
    = (creations (log (m w)) ++ creations (log (f a w')))%list /\
    attachments (log (bind m f w))
    = (attachments (log (m w)) ++ attachments (log (f a w')))%list.
Proof.
  intros Hb. apply bind_ret_inv in Hb as (a & Ha & Hb & ->).
  exists a, (world (m w)). rewrite creations_app, attachments_app. auto.
Qed.

Lemma ebs_snap_tags_to_attribs_known (snaps : list snapshot_info) :
  (forall w, fst (client w (DescribeSnapshots ("tag:" ++ SNAP_SEARCH_TAG cfg)
                                              (SNAP_SEARCH_VAL cfg)))
             = Some (RSnapshots snaps)) ->
  triple (ebs_snap_tags_to_attribs (SNAP_SEARCH_VAL cfg)) quiet
         (fun attrs => attrs = tags_to_attribs snaps /\ snaps <> []) aborted.
Proof.
  intros Hsnaps. unfold ebs_snap_tags_to_attribs, ebs_get_snap_info.
  eapply triple_bind with (R := fun l => l = snaps /\ snaps <> []).
  - eapply triple_bind with (R := fun r => r = RSnapshots snaps).
    + apply triple_call; [reflexivity | | intros _; exact I].
      intros w x Hx. rewrite Hsnaps in Hx. congruence.
    + intros r ->. unfold snapshots_of.
      eapply triple_bind with (R := fun l => l = snaps);
        [apply triple_ret; reflexivity | intros l ->].
      destruct snaps; [triple_auto | apply triple_ret; split; [reflexivity|discriminate]].
  - intros l [-> Hne]. apply triple_ret. auto.
Qed.

Lemma instances_of_quiet r : triple (instances_of r) quiet anything anyhow.
Proof. unfold instances_of. triple_auto. Qed.

Lemma index0_quiet {A} (l : list A) : triple (index0 l) quiet anything anyhow.
Proof. unfold index0. triple_auto. Qed.

Lemma print__quiet text : triple (print_ text) quiet anything anyhow.
Proof. triple_auto. Qed.

Lemma add_access_if_quiet instance groups :
  triple (if truthy (SECURITY_GROUPS cfg)
          then recovery_ec2_add_access instance groups
          else ret tt) quiet anything anyhow.
Proof.
  destruct (truthy (SECURITY_GROUPS cfg));
    [apply recovery_ec2_add_access_quiet | triple_auto].
Qed.

Lemma inject_if_quiet (content : option string) instance :
  triple (match content with
          | Some text => userdata_inject instance text
          | None => ret tt
          end) quiet anything anyhow.
Proof. destruct content; [apply userdata_inject_quiet | triple_auto]. Qed.

Lemma clone_if_quiet instance attrs :
  triple (if USERDATA_BOOL cfg then userdata_clone instance attrs else ret tt)
         quiet anything anyhow.
Proof.
  destruct (USERDATA_BOOL cfg); [apply userdata_clone_quiet | triple_auto].
Qed.

Lemma power_on_if_quiet fuel instance :
  triple (if POWER_ON cfg
          then recovery_ec2_power_on instance ;;
               recovery_ec2_monitor_transition fuel instance "online" "ok" ;;
               recovery_ec2_get_connect instance
          else ret tt) quiet anything anyhow.
Proof.
  destruct (POWER_ON cfg); [|triple_auto].
  eapply triple_bind with (R := anything);
    [apply recovery_ec2_power_on_quiet | intros ? _].
  eapply triple_bind with (R := anything);
    [apply recovery_ec2_monitor_transition_quiet | intros ? _].
  apply recovery_ec2_get_connect_quiet.
Qed.

Lemma ebs_snap_reconstitute_unattached build_az ebs_type attrs :
  triple (ebs_snap_reconstitute build_az ebs_type attrs)
         (fun r => negb (attaches r)) anything anyhow.
Proof.
  unfold ebs_snap_reconstitute. apply reconstitute_loop_triple. reflexivity.
Qed.

(** Skips the next step of the chain [H] says returns; [T] is the
    step's triple. *)
Tactic Notation "skip" hyp(H) uconstr(T) :=
  let a := fresh "a" in
  let w' := fresh "w" in
  let Hc := fresh "Hc" in
  let Ha := fresh "Ha" in
  eapply (bind_skip _ _ _ _ _ _ _ T) in H;
  [ destruct H as (a & w' & _ & H & Hc & Ha);
    rewrite Hc, Ha; clear Hc Ha; cbv beta in H |- *
  | first [ exact quiet_uninvolved | intros [] ?; first [reflexivity | discriminate] ] ].

Lemma main_tallies (snaps : list snapshot_info) (fuel : nat) (w : W) :
  (forall w, fst (client w (DescribeSnapshots ("tag:" ++ SNAP_SEARCH_TAG cfg)
                                              (SNAP_SEARCH_VAL cfg)))
             = Some (RSnapshots snaps)) ->
  out (main fuel w) = Ret tt ->
  snaps <> [] /\
  exists build_az w1 vols instance w2 answer,
    out (ebs_snap_reconstitute build_az (EBS_TYPE cfg) (tags_to_attribs snaps) w1)
    = Ret vols /\
    out (ebs_reconstitution_attach instance vols w2) = Ret answer /\
    creations (log (main fuel w))
    = creations (log (ebs_snap_reconstitute build_az (EBS_TYPE cfg)
                                            (tags_to_attribs snaps) w1)) /\
    attachments (log (main fuel w))
    = attachments (log (ebs_reconstitution_attach instance vols w2)).
Proof.
  intros Hsnaps H. unfold main in H |- *.
  skip H prelude_quiet.
  skip H userdata_content_quiet.
  skip H validate_ami_id_quiet.
  skip H (validate_subnet_quiet _).
  skip H validate_security_group_quiet.
  skip H validate_provision_key_quiet.
  eapply (bind_skip _ _ _ _ _ _ _ (ebs_snap_tags_to_attribs_known snaps Hsnaps)) in H;
    [|exact quiet_uninvolved].
  destruct H as (attrs & w7 & [-> Hne] & H & -> & ->). cbv beta in H |- *.
  split; [exact Hne|].
  skip H (recovery_ec2_get_az_quiet _ _).
  apply bind_keep in H. destruct H as (vols & w9 & Hvols & H & -> & ->).
  cbv beta in H |- *.
  rewrite (attachments_none _ _ (proj1 (ebs_snap_reconstitute_unattached _ _ _ _)))
    by reflexivity.
  skip H (recovery_ec2_make_triple uninvolved _ (fun _ _ _ _ _ => eq_refl)).
  skip H (instances_of_quiet _).
  skip H (index0_quiet _).
  skip H (print__quiet _).
  skip H (recovery_ec2_monitor_transition_quiet _ _ _ _).
  skip H (recovery_ec2_stop_quiet _).
  skip H (recovery_ec2_monitor_transition_quiet _ _ _ _).
  skip H (nuke_root_ebs_quiet _ _).
  apply bind_keep in H. destruct H as (answer & w18 & Hanswer & H & -> & ->).
  cbv beta in H |- *.
  rewrite (creations_none _ _ (proj1 (ebs_reconstitution_attach_settles _ _ _)))
    by reflexivity.
  skip H (add_access_if_quiet _ _).
  skip H (inject_if_quiet _ _).
  skip H (clone_if_quiet _ _).
  match goal with
  | |- context [creations (log (?last ?w'))] =>
      rewrite (creations_none (log (last w')) quiet (proj1 (power_on_if_quiet _ _ w')))
        by reflexivity;
      rewrite (attachments_none (log (last w')) quiet (proj1 (power_on_if_quiet _ _ w')))
        by reflexivity
  end.
  rewrite !app_nil_r. cbn [app].
  do 6 eexists. split; [exact Hvols|]. split; [exact Hanswer|]. split; reflexivity.
Qed.

(** A step that neither creates nor attaches leaves a property of the
    two tallies to the rest of the chain. *)
Lemma tally_skip {A B}
    (G : list (string * option string * string) -> list (string * string) -> Prop)
    (m : M A) (f : A -> M B) (w : W) P R H :
  triple m P R H ->
  (forall r, P r = true -> uninvolved r = true) ->
  G [] [] ->
  (forall a w', R a -> G (creations (log (f a w'))) (attachments (log (f a w')))) ->
  G (creations (log (bind m f w))) (attachments (log (bind m f w))).
Proof.
  intros Hm HP Hbase Hrest.
  destruct (triple_weaken _ _ uninvolved _ R _ H Hm HP (fun _ HR => HR) (fun _ Hh => Hh) w)
    as [Hl Ho].
  pose proof (creations_none _ _ Hl (fun _ _ _ _ _ => eq_refl)) as Hc.
  pose proof (attachments_none _ _ Hl (fun _ _ _ => eq_refl)) as Ha.
  destruct (bind_cases m f w) as [(a & Hret & _ & ->)|(h & _ & _ & ->)].
  - rewrite creations_app, attachments_app, Hc, Ha. cbn [app].
    apply Hrest. rewrite Hret in Ho. exact Ho.
  - rewrite Hc, Ha. exact Hbase.
Qed.

Lemma tally_keep {A B}
    (G : list (string * option string * string) -> list (string * string) -> Prop)
    (m : M A) (f : A -> M B) (w : W) :
  (forall h, out (m w) = Halt h ->
             G (creations (log (m w))) (attachments (log (m w)))) ->
  (forall a w', out (m w) = Ret a ->
                G (creations (log (m w)) ++ creations (log (f a w')))%list
                  (attachments (log (m w)) ++ attachments (log (f a w')))%list) ->
  G (creations (log (bind m f w))) (attachments (log (bind m f w))).
Proof.
  intros Hhalt Hret.
  destruct (bind_cases m f w) as [(a & Ha & _ & ->)|(h & Hh & _ & ->)].
  - rewrite creations_app, attachments_app. apply Hret, Ha.
  - apply Hhalt with h, Hh.
Qed.

(** Applies [tally_skip] to the chain in the goal; [T] is the triple of
    its first step and [Hbase] the property of empty tallies. *)
Tactic Notation "pass" uconstr(T) "with" constr(Hbase) :=
  match goal with
  | |- context [creations (log (bind ?m ?f ?w))] =>
      pattern (creations (log (bind m f w))), (attachments (log (bind m f w)));
      eapply (tally_skip _ m f w _ _ _ T);
      [ first [ exact quiet_uninvolved
              | intros [] ?; first [reflexivity | discriminate] ]
      | exact Hbase
      | let a := fresh "a" in
        let w' := fresh "w" in
        intros a w' _; cbv beta ]
  end.

Lemma main_orderly (snaps : list snapshot_info) (fuel : nat) (w : W) :
  (forall w, fst (client w (DescribeSnapshots ("tag:" ++ SNAP_SEARCH_TAG cfg)
                                              (SNAP_SEARCH_VAL cfg)))
             = Some (RSnapshots snaps)) ->
  orderly (map (fun item => (fst item, original_device (snd item)))
               (tags_to_attribs snaps))
          (creations (log (main fuel w))) (attachments (log (main fuel w))).
Proof.
  intros Hsnaps.
  set (expected := map (fun item => (fst item, original_device (snd item)))
                       (tags_to_attribs snaps)).
  assert (Hnone : orderly expected [] [])
    by (split; exists 0%nat; reflexivity).
  unfold main.
  pass prelude_quiet with Hnone.
  pass userdata_content_quiet with Hnone.
  pass validate_ami_id_quiet with Hnone.
  pass (validate_subnet_quiet _) with Hnone.
  pass validate_security_group_quiet with Hnone.
  pass validate_provision_key_quiet with Hnone.
  match goal with
  | |- context [creations (log (bind ?m ?f ?w'))] =>
      pattern (creations (log (bind m f w'))), (attachments (log (bind m f w')));
      eapply (tally_skip _ m f w' _ _ _ (ebs_snap_tags_to_attribs_known snaps Hsnaps));
      [exact quiet_uninvolved | exact Hnone | intros attrs w7 [-> _]; cbv beta]
  end.
  pass (recovery_ec2_get_az_quiet _ _) with Hnone.
  match goal with
  | |- context [creations (log (bind ?m ?f ?w'))] =>
      pattern (creations (log (bind m f w'))), (attachments (log (bind m f w')));
      apply tally_keep; cbv beta;
      rewrite (attachments_none _ _ (proj1 (ebs_snap_reconstitute_unattached _ _ _ w')))
        by reflexivity
  end.
  { intros h _. split; [apply reconstitute_loop_any | exists 0%nat; reflexivity]. }
  intros vols w10 Hvols. cbn [app].
  unfold ebs_snap_reconstitute in Hvols |- *.
  destruct (reconstitute_loop_ret _ _ _ _ _ _ Hvols) as (new & Hnew & Hitems & Htags).
  cbn [app] in Hnew. subst new. fold expected in Hitems.
  match type of Hitems with
  | map fst (creations ?l) = _ => remember (creations l) as created eqn:Hcreated
  end.
  clear Hcreated Hvols.
  assert (Hcreated : orderly expected (created ++ []) []).
  { split; [|exists 0%nat; reflexivity].
    exists (List.length expected). rewrite app_nil_r, firstn_all. exact Hitems. }
  pass (recovery_ec2_make_triple uninvolved _ (fun _ _ _ _ _ => eq_refl)) with Hcreated.
  pass (instances_of_quiet _) with Hcreated.
  pass (index0_quiet _) with Hcreated.
  pass (print__quiet _) with Hcreated.
  pass (recovery_ec2_monitor_transition_quiet _ _ _ _) with Hcreated.
  pass (recovery_ec2_stop_quiet _) with Hcreated.
  pass (recovery_ec2_monitor_transition_quiet _ _ _ _) with Hcreated.
  pass (nuke_root_ebs_quiet _ _) with Hcreated.
  match goal with
  | |- context [creations (log (bind ?m ?f ?w'))] =>
      pattern (creations (log (bind m f w'))), (attachments (log (bind m f w')));
      apply tally_keep; cbv beta;
      rewrite (creations_none _ _ (proj1 (ebs_reconstitution_attach_settles _ _ w')))
        by reflexivity
  end.
  { intros h _. split.
    - exists (List.length expected). rewrite app_nil_r, firstn_all. exact Hitems.
    - rewrite app_nil_r, Htags. apply ebs_reconstitution_attach_any. }
  intros answer w19 Hanswer. cbn [app].
  pose proof (ebs_reconstitution_attach_ret _ _ _ _ Hanswer) as Hattach.
  match type of Hattach with
  | map _ (attachments ?l) = _ => remember (attachments l) as attached eqn:Hattached
  end.
  clear Hattached Hanswer.
  assert (Hdone : orderly expected (created ++ []) (attached ++ [])).
  { split.
    - exists (List.length expected). rewrite app_nil_r, firstn_all. exact Hitems.
    - exists (List.length (map (fun c : string * option string * string =>
                                  (snd (fst c), snd c)) created)).
      rewrite !app_nil_r, firstn_all, Htags. exact Hattach. }
  pass (add_access_if_quiet _ _) with Hdone.
  pass (inject_if_quiet _ _) with Hdone.
  pass (clone_if_quiet _ _) with Hdone.
  match goal with
  | |- context [creations (log (?last ?w'))] =>
      rewrite (creations_none (log (last w')) quiet (proj1 (power_on_if_quiet _ _ w')))
        by reflexivity;
      rewrite (attachments_none (log (last w')) quiet (proj1 (power_on_if_quiet _ _ w')))
        by reflexivity
  end.
  exact Hdone.
Qed.

Lemma main_returned_faithful
    (snaps : list snapshot_info) (fuel : nat) (w : W) :
  (forall w, fst (client w (DescribeSnapshots ("tag:" ++ SNAP_SEARCH_TAG cfg)
                                              (SNAP_SEARCH_VAL cfg)))
             = Some (RSnapshots snaps)) ->
  out (main fuel w) = Ret tt ->
  snaps <> [] /\
  map fst (creations (log (main fuel w)))
  = map (fun item => (fst item, original_device (snd item))) (tags_to_attribs snaps) /\
  map (fun a => (Some (fst a), snd a)) (attachments (log (main fuel w)))
  = map (fun c => (snd (fst c), snd c)) (creations (log (main fuel w))) /\
  map (fun a => Some (fst a)) (attachments (log (main fuel w)))
  = map (fun item => original_device (snd item)) (tags_to_attribs snaps) /\
  (NoDup (map SnapshotId snaps) ->
   map (fun a => Some (fst a)) (attachments (log (main fuel w)))
   = map (fun info => original_device (snap_attributes_of info)) snaps).
Proof.
  intros Hsnaps Hret.
  destruct (main_tallies snaps fuel w Hsnaps Hret)
    as (Hne & build_az & w1 & vols & instance & w2 & answer
        & Hvols & Hanswer & Hc & Ha).
  unfold ebs_snap_reconstitute in Hvols, Hc.
  destruct (reconstitute_loop_ret _ _ _ _ _ _ Hvols) as (new & Hnew & Hitems & Htags).
  cbn [app] in Hnew. subst new.
  pose proof (ebs_reconstitution_attach_ret _ _ _ _ Hanswer) as Hattach.
  rewrite <- Hc in Hitems, Htags. rewrite <- Ha in Hattach.
  assert (Hpaths :
            map (fun a => Some (fst a)) (attachments (log (main fuel w)))
            = map (fun item => original_device (snd item)) (tags_to_attribs snaps)).
  { transitivity (map fst (map (fun a : string * string => (Some (fst a), snd a))
                               (attachments (log (main fuel w))))).
    - rewrite map_map. reflexivity.
    - rewrite Hattach, <- Htags, map_map. cbn [fst].
      transitivity (map snd (map fst (creations (log (main fuel w))))).
      + rewrite map_map. reflexivity.
      + rewrite Hitems, map_map. reflexivity. }
  split; [exact Hne|]. split; [exact Hitems|].
  split; [rewrite Hattach, Htags; reflexivity|].
  split; [exact Hpaths|].
  intros Hdistinct. rewrite Hpaths, (tags_to_attribs_distinct _ Hdistinct), map_map.
  reflexivity.
Qed.

(** *** The instance the volumes are attached to *)

Lemma launches_app l l' : launches (l ++ l') = (launches l ++ launches l')%list.
Proof. apply flat_map_app. Qed.

Lemma attached_to_app l l' :
  attached_to (l ++ l') = (attached_to l ++ attached_to l')%list.
Proof. apply flat_map_app. Qed.

Lemma bystander_log (l : list event) :
  forallb (allowed bystander) l = true -> attached_to l = [] /\ launches l = [].
Proof.
  induction l as [|e l IH]; [split; reflexivity|].
  cbn [forallb]. intros Hl. apply andb_prop in Hl as [He Hl].
  destruct (IH Hl) as [Ha Hn].
  change (e :: l) with ([e] ++ l)%list. rewrite attached_to_app, launches_app, Ha, Hn.
  destruct e as [r a| |]; [|split; reflexivity | split; reflexivity].
  destruct r; try discriminate He; split; reflexivity.
Qed.

Lemma serves_log (instance : string) (l : list event) :
  forallb (allowed (serves instance)) l = true ->
  launches l = [] /\ forall i, In i (attached_to l) -> i = instance.
Proof.
  induction l as [|e l IH]; [split; [reflexivity | intros i []]|].
  cbn [forallb]. intros Hl. apply andb_prop in Hl as [He Hl].
  destruct (IH Hl) as [Hn Ha].
  change (e :: l) with ([e] ++ l)%list. rewrite attached_to_app, launches_app, Hn.
  destruct e as [r a| |]; [|split; [reflexivity | exact Ha] | split; [reflexivity | exact Ha]].
  destruct r; try discriminate He; try (split; [reflexivity | exact Ha]).
  cbn in He. apply String.eqb_eq in He. subst.
  split; [reflexivity|]. intros i [<-|Hin]; [reflexivity | exact (Ha i Hin)].
Qed.

Lemma attached_to_length (l : list event) :
  List.length (attached_to l) = List.length (attachments l).
Proof.
  induction l as [|e l IH]; [reflexivity|].
  change (e :: l) with ([e] ++ l)%list.
  rewrite attached_to_app, attachments_app, !length_app, IH.
  destruct e as [r a| |]; [|reflexivity | reflexivity].
  destruct r; reflexivity.
Qed.

Lemma to_launched_nil : to_launched [].
Proof. intros i []. Qed.

Lemma to_launched_skip (l l' : list event) :
  forallb (allowed bystander) l = true -> to_launched l' -> to_launched (l ++ l')%list.
Proof.
  intros Hl Hrest. destruct (bystander_log l Hl) as [Ha Hn].
  unfold to_launched. rewrite attached_to_app, launches_app, Ha, Hn. exact Hrest.
Qed.

Lemma log_instances_of r (w : W) : log (instances_of r w) = [].
Proof. destruct r; reflexivity. Qed.

Lemma recovery_ec2_make_launches az (w : W) :
  attached_to (log (recovery_ec2_make az w)) = [] /\
  forall x,
    out (recovery_ec2_make az w) = Ret x ->
    launches (log (recovery_ec2_make az w))
    = match x with
      | RInstances (instance :: _) => [instance]
      | _ => []
      end.
Proof.
  unfold recovery_ec2_make. destruct (AMI_ID cfg) as [image|].
  - unfold bind, call. cbn [ret out world log app].
    destruct (client w _) as [[x|] w']; cbn [out world log app];
      (split; [reflexivity|]); intros y Hy; [|discriminate Hy].
    injection Hy as <-. destruct x as [| | | |[|i ids]| | | |]; reflexivity.
  - split; [reflexivity | discriminate].
Qed.

Lemma launch_to_launched fuel az vols groups content attrs (w : W) :
  to_launched
    (log ((launched <- recovery_ec2_make az ;;
           instances <- instances_of launched ;;
           instance <- index0 instances ;;
           after_launch fuel instance vols groups content attrs) w)).
Proof.
  destruct (recovery_ec2_make_launches az w) as [Hnone Hlaunch].
  unfold to_launched.
  match goal with
  | |- context [log (bind ?m ?f w)] =>
      destruct (bind_cases m f w) as [(x & Hx & _ & ->)|(h & _ & _ & ->)]
  end; [|rewrite Hnone; intros i []].
  rewrite attached_to_app, launches_app, Hnone, (Hlaunch x Hx). cbn [app].
  match goal with
  | |- context [log (bind ?m ?f ?w')] =>
      destruct (bind_cases m f w') as [(ids & Hids & _ & ->)|(h & _ & _ & ->)]
  end; rewrite log_instances_of; [|intros i []].
  destruct x; try discriminate Hids. injection Hids as ->. cbn [app].
  match goal with
  | |- context [log (bind ?m ?f ?w')] =>
      destruct (bind_cases m f w') as [(i & Hi & _ & ->)|(h & _ & _ & ->)]
  end; rewrite log_index0; [|intros i []].
  destruct ids as [|i' ids]; [discriminate Hi|]. injection Hi as ->. cbn [app].
  match goal with
  | |- context [log (after_launch ?f' i ?v ?g ?c ?a ?w')] =>
      destruct (serves_log i _ (proj1 (after_launch_asks (serves i) f' i v g c a
                                          eq_refl eq_refl eq_refl
                                          (fun _ => eq_refl) (fun _ => eq_refl)
                                          (fun _ => eq_refl)
                                          (fun _ _ => String.eqb_refl i)
                                          (fun _ => eq_refl) (fun _ _ => eq_refl)
                                          (fun _ _ => eq_refl) (fun _ => eq_refl) w')))
        as [Hn Ha]
  end.
  rewrite Hn. intros j Hj. rewrite (Ha j Hj). reflexivity.
Qed.

Lemma validate_subnet_asks P subnet_id :
  P (DescribeSubnets subnet_id) = true ->
  triple (validate_subnet subnet_id) P anything aborted.
Proof.
  intros H1. unfold validate_subnet, subnets_of. triple_auto.
  apply index0_triple. exact I.
Qed.

Lemma ebs_snap_tags_to_attribs_asks P value :
  (forall filter, P (DescribeSnapshots filter value) = true) ->
  triple (ebs_snap_tags_to_attribs value) P anything aborted.
Proof.
  intros H1. unfold ebs_snap_tags_to_attribs, ebs_get_snap_info, snapshots_of.
  triple_auto.
Qed.

Lemma main_to_launched (fuel : nat) (w : W) : to_launched (log (main fuel w)).
Proof.
  rewrite main_unfold.
  eapply log_skip;
    [apply (prelude_silent bystander) | exact to_launched_skip | exact to_launched_nil
    | intros _ ? _].
  eapply log_skip;
    [apply (userdata_content_silent bystander) | exact to_launched_skip
    | exact to_launched_nil | intros content ? _].
  unfold checked_run.
  eapply log_skip;
    [apply (validate_ami_id_asks bystander); reflexivity | exact to_launched_skip
    | exact to_launched_nil | intros _ ? _].
  eapply log_skip;
    [apply (validate_subnet_asks bystander); reflexivity | exact to_launched_skip
    | exact to_launched_nil | intros az ? _].
  eapply log_skip;
    [apply (validate_security_group_asks bystander); reflexivity | exact to_launched_skip
    | exact to_launched_nil | intros groups ? _].
  eapply log_skip;
    [apply (validate_provision_key_asks bystander); reflexivity | exact to_launched_skip
    | exact to_launched_nil | intros _ ? _].
  eapply log_skip;
    [apply (ebs_snap_tags_to_attribs_asks bystander); reflexivity | exact to_launched_skip
    | exact to_launched_nil | intros attrs ? _].
  unfold rebuild.
  eapply log_skip;
    [apply (recovery_ec2_get_az_silent _ _ bystander) | exact to_launched_skip
    | exact to_launched_nil | intros build ? _].
  eapply log_skip;
    [unfold ebs_snap_reconstitute; apply (reconstitute_loop_triple bystander); reflexivity
    | exact to_launched_skip | exact to_launched_nil | intros vols ? _].
  apply launch_to_launched.
Qed.

Lemma original_device_tag (info : snapshot_info) :
  original_device (snap_attributes_of info) = device_tag info.
Proof.
  unfold original_device, device_tag. rewrite snap_attributes_get.
  destruct (tag_value (SNAP_DEV_TAG cfg) (rev (Tags info))); [reflexivity|].
  destruct (String.eqb (SNAP_DEV_TAG cfg) "VolumeSize"); reflexivity.
Qed.

Lemma batch_devices (snaps : list snapshot_info) :
  NoDup (map SnapshotId snaps) ->
  map (fun item => (fst item, original_device (snd item))) (tags_to_attribs snaps)
  = map (fun info => (SnapshotId info, device_tag info)) snaps.
Proof.
  intros Hdistinct. rewrite (tags_to_attribs_distinct _ Hdistinct), map_map.
  apply map_ext. intros info. cbn [fst snd]. rewrite original_device_tag. reflexivity.
Qed.

Lemma all_the_same {X Y} (x : X) (l : list X) (s : list Y) :
  (forall y, In y l -> y = x) -> List.length l = List.length s ->
  l = map (fun _ => x) s.
Proof.
  revert s. induction l as [|y l IH]; intros [|z s] Hall Hlen; try discriminate Hlen.
  - reflexivity.
  - cbn [map]. rewrite (Hall y (or_introl eq_refl)). f_equal.
    apply IH; [intros y' Hy'; apply Hall; right; exact Hy' | injection Hlen as Hlen; exact Hlen].
Qed.

(** C1. With a provider that answers each volume creation with the tags
    it was asked to set, and over the batch of snapshots, of distinct
    identifiers, that it reports: however far a run gets, the volumes it
    has created are those of the first snapshots of the batch, in order,
    each tagged with the original device its snapshot is tagged with; the
    attachments it has requested are of the first of these volumes, in
    order, each at the device that volume was tagged with, so no volume
    is ever attached at another volume's path; and every attachment is to
    the instance the run has launched.  In a run that returns the batch
    is not empty, every snapshot has its volume and every volume is
    attached: the device paths of the attachments are, in order and so as
    a set, the original-device tag values of the batch, snapshot by
    snapshot, and all of them are attachments to the one recovery
    instance. *)
Theorem C1_volumes_attach_at_original_devices (snaps : list snapshot_info) :
  (forall w, fst (client w (DescribeSnapshots ("tag:" ++ SNAP_SEARCH_TAG cfg)
                                              (SNAP_SEARCH_VAL cfg)))
             = Some (RSnapshots snaps)) ->
  NoDup (map SnapshotId snaps) ->
  (forall fuel w,
      orderly (map (fun info => (SnapshotId info, device_tag info)) snaps)
              (creations (log (main fuel w))) (attachments (log (main fuel w))) /\
      to_launched (log (main fuel w))) /\
  (forall fuel w,
      out (main fuel w) = Ret tt ->
      snaps <> [] /\
      map fst (creations (log (main fuel w)))
      = map (fun info => (SnapshotId info, device_tag info)) snaps /\
      map (fun a => (Some (fst a), snd a)) (attachments (log (main fuel w)))
      = map (fun c => (snd (fst c), snd c)) (creations (log (main fuel w))) /\
      map (fun a => Some (fst a)) (attachments (log (main fuel w)))
      = map device_tag snaps /\
      exists instance,
        launches (log (main fuel w)) = [instance] /\
        attached_to (log (main fuel w)) = map (fun _ => instance) snaps).
Proof.
  intros Hsnaps Hdistinct. split.
  - intros fuel w. split; [|apply main_to_launched].
    rewrite <- (batch_devices snaps Hdistinct). apply main_orderly. exact Hsnaps.
  - intros fuel w Hret.
    destruct (main_returned_faithful snaps fuel w Hsnaps Hret)
      as (Hne & Hcreated & Hattached & _ & Hpaths).
    specialize (Hpaths Hdistinct).
    assert (Hdevices : map (fun a : string * string => Some (fst a))
                           (attachments (log (main fuel w)))
                       = map device_tag snaps).
    { rewrite Hpaths. apply map_ext. intros info. apply original_device_tag. }
    split; [exact Hne|]. split; [rewrite Hcreated; apply batch_devices, Hdistinct|].
    split; [exact Hattached|]. split; [exact Hdevices|].
    assert (Hlen : List.length (attached_to (log (main fuel w))) = List.length snaps).
    { rewrite attached_to_length.
      rewrite <- (length_map (fun a : string * string => Some (fst a))), Hdevices.
      apply length_map. }
    pose proof (main_to_launched fuel w) as Hto. unfold to_launched in Hto.
    destruct (attached_to (log (main fuel w))) as [|instance others] eqn:Eto.
    { destruct snaps; [contradiction Hne; reflexivity | discriminate Hlen]. }
    pose proof (Hto instance (or_introl eq_refl)) as Hlaunched.
    exists instance. split; [exact Hlaunched|].
    apply all_the_same; [|exact Hlen].
    intros i Hi. apply Hto in Hi. rewrite Hlaunched in Hi. injection Hi as ->.
    reflexivity.
Qed.

End Echo.


(** * Further properties of the script *)

(** ** Logs, requests and sleeps *)

Lemma requests_app l l' : requests (l ++ l') = (requests l ++ requests l')%list.
Proof. apply flat_map_app. Qed.

Lemma sleeps_app l l' : sleeps (l ++ l') = (sleeps l ++ sleeps l')%list.
Proof. apply flat_map_app. Qed.

Lemma rhythm_app poll l l' :
  rhythm poll (l ++ l') = (rhythm poll l ++ rhythm poll l')%list.
Proof. apply flat_map_app. Qed.

Lemma run_of {A} (m : M A) (w : W) o :
  out (m w) = o -> m w = {| out := o; world := world (m w); log := log (m w) |}.
Proof. intros <-. apply result_eta. Qed.

Lemma emits_ret {A} (a : A) Q : emits (ret a) Q.
Proof. intros w. reflexivity. Qed.

Lemma emits_halt {A} h Q : emits (@halt_with A h) Q.
Proof. intros w. reflexivity. Qed.

Lemma emits_tell e Q : Q e = true -> emits (tell e) Q.
Proof. intros He w. simpl. rewrite He. reflexivity. Qed.

Lemma emits_call r Q : (forall a, Q (EvCall r a) = true) -> emits (call r) Q.
Proof.
  intros Hr w. unfold call. destruct (client w r) as [a w']. simpl.
  rewrite Hr. reflexivity.
Qed.

Lemma emits_bind {A B} (m : M A) (f : A -> M B) Q :
  emits m Q -> (forall a, emits (f a) Q) -> emits (bind m f) Q.
Proof.
  intros Hm Hf w.
  destruct (bind_cases m f w) as [(a & _ & _ & ->)|(h & _ & _ & ->)].
  - rewrite forallb_app, Hm, Hf. reflexivity.
  - apply Hm.
Qed.

Lemma emits_try {A} (m : M A) hd Q :
  emits m Q -> (forall e k, hd e = Some k -> emits k Q) -> emits (try_except m hd) Q.
Proof.
  intros Hm Hk w. unfold try_except.
  destruct (out (m w)) as [a|[msg|e|]]; try apply Hm.
  destruct (hd e) as [k|] eqn:Ek; [|apply Hm].
  simpl. rewrite forallb_app, Hm, (Hk e k Ek). reflexivity.
Qed.

Ltac emits_step :=
  match goal with
  | |- emits (bind _ _) _ => apply emits_bind; [|intros ?]
  | |- emits (ret _) _ => apply emits_ret
  | |- emits (halt_with _) _ => apply emits_halt
  | |- emits (sys_exit _) _ => apply emits_halt
  | |- emits (raise _) _ => apply emits_halt
  | |- emits out_of_fuel _ => apply emits_halt
  | |- emits (tell _) _ => apply emits_tell
  | |- emits (print _) _ => apply emits_tell
  | |- emits (print_ _) _ => apply emits_tell
  | |- emits (sleep _) _ => apply emits_tell
  | |- emits (call _) _ => apply emits_call; intros ?
  | |- emits (try_except _ _) _ =>
      apply emits_try; [|let e := fresh "e" in
                         intros e ? ?; destruct e; try discriminate;
                         match goal with
                         | Hk : Some _ = Some _ |- _ => injection Hk as <-
                         end]
  | |- emits (match ?x with _ => _ end) _ => destruct x eqn:?
  end.

Ltac emits_auto :=
  repeat (emits_step ||
          match goal with
          | |- _ = true => first [reflexivity | solve [auto]]
          end).

Lemma rhythm_none poll (l : list event) Q :
  forallb Q l = true ->
  (forall e, Q e = true -> rhythm poll [e] = []) ->
  rhythm poll l = [].
Proof.
  intros Hl HQ. induction l as [|e l IH]; [reflexivity|].
  cbn [forallb] in Hl. apply andb_prop in Hl as [He Hl].
  change (e :: l) with ([e] ++ l)%list. rewrite rhythm_app, (HQ e He), (IH Hl).
  reflexivity.
Qed.

Lemma sleeps_none (l : list event) :
  forallb awake l = true -> sleeps l = [].
Proof.
  intros Hl. induction l as [|e l IH]; [reflexivity|].
  cbn [forallb] in Hl. apply andb_prop in Hl as [He Hl].
  unfold sleeps in *. cbn [flat_map]. rewrite (IH Hl).
  destruct e; [reflexivity | reflexivity | discriminate].
Qed.

Lemma offbeat_silent poll e : offbeat poll e = true -> rhythm poll [e] = [].
Proof.
  destruct e as [r a|text|n]; cbn; [|reflexivity|discriminate].
  destruct (poll r); [discriminate | reflexivity].
Qed.

Lemma offbeat_awake poll e : offbeat poll e = true -> awake e = true.
Proof. destruct e; simpl; auto. Qed.

Lemma rhythm_bind_first {A B} poll (m : M A) (f : A -> M B) (w : W) :
  (forall a, emits (f a) (offbeat poll)) ->
  rhythm poll (log (bind m f w)) = rhythm poll (log (m w)).
Proof.
  intros Hf.
  destruct (bind_cases m f w) as [(a & _ & _ & ->)|(h & _ & _ & ->)]; [|reflexivity].
  rewrite rhythm_app, (rhythm_none poll _ _ (Hf a _) (offbeat_silent poll)).
  apply app_nil_r.
Qed.

(** A [try] whose body halts only in ways [H'], each of them handled or
    let through. *)
Lemma triple_try_caught {A} (m : M A) hd P R (H' H : halt -> Prop) :
  triple m P R H' ->
  (forall h, H' h ->
             match h with
             | Raise e => match hd e with
                          | Some k => triple k P R H
                          | None => H h
                          end
             | _ => H h
             end) ->
  triple (try_except m hd) P R H.
Proof.
  intros Hm Hk w. unfold try_except.
  destruct (Hm w) as [Hl Ho].
  destruct (out (m w)) as [a|h] eqn:E; [rewrite E; auto|].
  specialize (Hk h Ho).
  destruct h as [msg|e|]; try (rewrite E; auto).
  destruct (hd e) as [k|]; [|rewrite E; auto].
  destruct (Hk (world (m w))) as [Hl' Ho']. cbn [out log].
  rewrite forallb_app, Hl, Hl'. auto.
Qed.

Lemma log_try_call r hd (w : W) :
  (forall k w', hd ClientError = Some k -> log (k w') = []) ->
  log (try_except (call r) hd w) = [EvCall r (fst (client w r))].
Proof.
  intros Hk. unfold try_except, call.
  destruct (client w r) as [[x|] w']; cbn [out world log fst]; [reflexivity|].
  destruct (hd ClientError) as [k|] eqn:Ek; [|reflexivity].
  cbn [log]. rewrite (Hk k w' eq_refl). reflexivity.
Qed.

(** ** The state of the recovery instance *)

Lemma recovery_ec2_check_state_rhythm ec2_id (w : W) :
  rhythm is_status_poll (log (recovery_ec2_check_state ec2_id w)) = [true].
Proof.
  unfold recovery_ec2_check_state.
  rewrite rhythm_bind_first.
  - rewrite log_try_call; [reflexivity|]. intros k w' [= <-]. reflexivity.
  - intros ec2_status. unfold reservations_of, statuses_of, index0. emits_auto.
Qed.

Lemma rhythm_sleeps poll l : rhythm poll l = [true] -> sleeps l = [].
Proof.
  induction l as [|e l IH]; [reflexivity|].
  change (e :: l) with ([e] ++ l)%list. rewrite rhythm_app, sleeps_app.
  destruct e as [r a|text|n]; cbn [rhythm sleeps flat_map app].
  - destruct (poll r); cbn [app]; [|exact IH].
    intros [= Hl]. clear IH. induction l as [|e l IH]; [reflexivity|].
    change (e :: l) with ([e] ++ l)%list in *. rewrite rhythm_app in Hl.
    rewrite sleeps_app. apply app_eq_nil in Hl as [He Hl]. rewrite (IH Hl).
    destruct e; [reflexivity | reflexivity | discriminate].
  - exact IH.
  - discriminate.
Qed.

Lemma recovery_ec2_check_state_unsettled ec2_id :
  triple (recovery_ec2_check_state ec2_id) quiet anything unsettled.
Proof.
  unfold recovery_ec2_check_state.
  eapply triple_bind with (R := anything); [|intros ec2_status _].
  { eapply triple_try_caught with (H' := fun h => h = Raise ClientError).
    - apply triple_call; [reflexivity | intros; exact I | reflexivity].
    - intros h ->. cbn. apply triple_halt. exact I. }
  eapply triple_bind with (R := anything); [|intros ec2_info _].
  { eapply triple_try_caught with (H' := fun h => h = Raise ClientError).
    - apply triple_call; [reflexivity | intros; exact I | reflexivity].
    - intros h ->. cbn. apply triple_halt. exact I. }
  unfold reservations_of, statuses_of, index0. triple_auto; exact I.
Qed.

Lemma recovery_ec2_check_state_prints ec2_id (w : W) state :
  out (recovery_ec2_check_state ec2_id w) = Ret state ->
  exists l, log (recovery_ec2_check_state ec2_id w) = (l ++ [EvPrint (state ++ nl)])%list.
Proof.
  unfold recovery_ec2_check_state. intros H.
  invert_bind H ec2_status Hstatus.
  invert_bind H ec2_info Hinfo.
  invert_bind H reservations Hreservations.
  invert_bind H instances Hinstances.
  invert_bind H instance Hinstance.
  invert_bind H current_state Hcurrent.
  invert_bind H u Hu.
  cbn in H. injection H as ->.
  eexists. cbn [print tell ret log]. rewrite !app_assoc, app_nil_r. reflexivity.
Qed.

Lemma monitor_unfold fuel ec2_id target_state target_status :
  recovery_ec2_monitor_transition (S fuel) ec2_id target_state target_status
  = (done <- monitor_round ec2_id target_state target_status ;;
     if done then ret tt
     else recovery_ec2_monitor_transition fuel ec2_id target_state target_status).
Proof. reflexivity. Qed.

Lemma monitor_round_cases ec2_id target_state target_status (w : W) :
  let b := monitor_round ec2_id target_state target_status w in
  (out b = Ret true /\
   (exists l, log b = (l ++ [EvPrint (target_status ++ nl)])%list) /\
   rhythm is_status_poll (log b) = [true] /\ sleeps (log b) = []) \/
  (out b = Ret false /\
   rhythm is_status_poll (log b) = [true; false] /\ sleeps (log b) = [10]) \/
  (exists h, out b = Halt h /\ misread h /\
             rhythm is_status_poll (log b) = [true] /\ sleeps (log b) = []).
Proof.
  intros b. subst b. unfold monitor_round.
  pose proof (recovery_ec2_check_state_rhythm ec2_id w) as Hrhythm.
  pose proof (rhythm_sleeps _ _ Hrhythm) as Hsleeps.
  pose proof (proj2 (recovery_ec2_check_state_unsettled ec2_id w)) as Hhalt.
  destruct (out (recovery_ec2_check_state ec2_id w)) as [state|h] eqn:E.
  - destruct (String.eqb state target_status) eqn:Estate.
    + left. apply String.eqb_eq in Estate. subst state.
      erewrite run_try_ret
        by (eapply run_bind_ret;
            [apply run_of; exact E | cbv beta; rewrite String.eqb_refl; reflexivity]).
      cbn [out log]. rewrite app_nil_r.
      split; [reflexivity|]. split; [|split; assumption].
      apply recovery_ec2_check_state_prints, E.
    + right. left.
      erewrite run_try_ret
        by (eapply run_bind_ret;
            [apply run_of; exact E | cbv beta; rewrite Estate; run_chain]).
      cbn [out log]. rewrite rhythm_app, sleeps_app, Hrhythm, Hsleeps.
      split; [reflexivity|]. split; reflexivity.
  - destruct h as [msg|e|]; try contradiction.
    destruct e; try contradiction.
    + right. left.
      erewrite run_try_handled
        by (first [ eapply run_bind_halt; apply run_of; exact E
                  | reflexivity
                  | run_chain ]).
      cbn [out log]. rewrite rhythm_app, sleeps_app, Hrhythm, Hsleeps.
      split; [reflexivity|]. split; reflexivity.
    + right. right. eexists.
      erewrite run_try_passed
        by (first [ eapply run_bind_halt; apply run_of; exact E | reflexivity ]).
      cbn [out log]. repeat split; assumption.
    + right. right. eexists.
      erewrite run_try_passed
        by (first [ eapply run_bind_halt; apply run_of; exact E | reflexivity ]).
      cbn [out log]. repeat split; assumption.
Qed.

Lemma run_getitem_missing {V} (d : dict V) k (w : W) :
  dict_get k d = None ->
  getitem d k w = {| out := Halt (Raise (KeyError k)); world := w; log := [] |}.
Proof. intros Hk. unfold getitem. rewrite Hk. reflexivity. Qed.

(** Runs a chain step by step, taking the answers of the provider, the
    dictionary lookups and the values of the tests from the hypotheses. *)
Ltac run_calls :=
  cbv beta iota;
  lazymatch goal with
  | |- bind _ _ _ = _ =>
      first [ eapply run_bind_ret; [solve [run_calls] | run_calls]
            | eapply run_bind_halt; solve [run_calls] ]
  | |- try_except _ _ _ = _ =>
      first [ eapply run_try_ret; solve [run_calls]
            | eapply run_try_handled; [solve [run_calls] | reflexivity | run_calls]
            | eapply run_try_passed; [solve [run_calls] | solve [exact I | reflexivity]] ]
  | |- (if ?c then _ else _) _ = _ =>
      match goal with
      | H : c = _ |- _ => rewrite H; run_calls
      end
  | |- (match ?c with Some _ => _ | None => _ end) _ = _ =>
      match goal with
      | H : c = _ |- _ => rewrite H; run_calls
      end
  | |- _ =>
      first [ eassumption
            | apply run_getitem; eassumption
            | apply run_getitem_missing; eassumption
            | apply run_call_ok; eassumption
            | apply run_call_rejected; eassumption
            | reflexivity ]
  end.

(** X1. When the provider answers both queries, [recovery_ec2_check_state]
    asks for the status, then for the instance, prints the state it
    settles on and returns it: the state name of the instance unless that
    is running, else the first status entry, else TRANSITIONING when
    there is no status entry yet. *)
Theorem check_state_reports_state_or_health
    (ec2_id : string) (w w1 w2 : W) (statuses : list string)
    (instance : instance_desc) (instances : list instance_desc)
    (reservations : list (list instance_desc)) :
  client w (DescribeInstanceStatus ec2_id) = (Some (RStatuses statuses), w1) ->
  client w1 (DescribeInstances ec2_id)
  = (Some (RReservations ((instance :: instances) :: reservations)), w2) ->
  recovery_ec2_check_state ec2_id w
  = {| out := Ret (reported_state instance statuses);
       world := w2;
       log := [EvCall (DescribeInstanceStatus ec2_id) (Some (RStatuses statuses));
               EvCall (DescribeInstances ec2_id)
                      (Some (RReservations ((instance :: instances) :: reservations)));
               EvPrint (reported_state instance statuses ++ nl)] |}.
Proof.
  intros Hstatus Hinfo. unfold recovery_ec2_check_state, reported_state.
  destruct (String.eqb (StateName instance) "running") eqn:Erunning;
    [destruct statuses as [|status statuses]|];
    (etransitivity; [run_calls | reflexivity]).
Qed.

Lemma recovery_ec2_check_state_status_rejected ec2_id (w w1 : W) :
  client w (DescribeInstanceStatus ec2_id) = (None, w1) ->
  recovery_ec2_check_state ec2_id w
  = {| out := Halt (Raise (ValueError ("ERROR: Failed fetching status from " ++ ec2_id)));
       world := w1;
       log := [EvCall (DescribeInstanceStatus ec2_id) None] |}.
Proof.
  intros Hstatus. unfold recovery_ec2_check_state.
  etransitivity; [run_calls | reflexivity].
Qed.

Lemma recovery_ec2_check_state_info_rejected ec2_id (w w1 w2 : W) ec2_status :
  client w (DescribeInstanceStatus ec2_id) = (Some ec2_status, w1) ->
  client w1 (DescribeInstances ec2_id) = (None, w2) ->
  recovery_ec2_check_state ec2_id w
  = {| out := Halt (Raise (ValueError ("ERROR: Failed querying info from " ++ ec2_id)));
       world := w2;
       log := [EvCall (DescribeInstanceStatus ec2_id) (Some ec2_status);
               EvCall (DescribeInstances ec2_id) None] |}.
Proof.
  intros Hstatus Hinfo. unfold recovery_ec2_check_state.
  etransitivity; [run_calls | reflexivity].
Qed.

(** X2. A query the provider rejects makes [recovery_ec2_check_state]
    raise a ValueError that names the query: for a rejected status query
    the instance is not asked about at all.  The function never exits the
    process and never lets the provider's rejection through; what else it
    raises comes from reading an answer (a missing key, an empty list). *)
Theorem check_state_turns_rejections_into_value_errors (ec2_id : string) (w : W) :
  (forall w1,
      client w (DescribeInstanceStatus ec2_id) = (None, w1) ->
      recovery_ec2_check_state ec2_id w
      = {| out := Halt (Raise (ValueError ("ERROR: Failed fetching status from " ++ ec2_id)));
           world := w1;
           log := [EvCall (DescribeInstanceStatus ec2_id) None] |}) /\
  (forall ec2_status w1 w2,
      client w (DescribeInstanceStatus ec2_id) = (Some ec2_status, w1) ->
      client w1 (DescribeInstances ec2_id) = (None, w2) ->
      recovery_ec2_check_state ec2_id w
      = {| out := Halt (Raise (ValueError ("ERROR: Failed querying info from " ++ ec2_id)));
           world := w2;
           log := [EvCall (DescribeInstanceStatus ec2_id) (Some ec2_status);
                   EvCall (DescribeInstances ec2_id) None] |}) /\
  (forall h,
      out (recovery_ec2_check_state ec2_id w) = Halt h ->
      (exists msg, h = Raise (ValueError msg)) \/ misread h).
Proof.
  split; [|split].
  - intros w1. apply recovery_ec2_check_state_status_rejected.
  - intros ec2_status w1 w2. apply recovery_ec2_check_state_info_rejected.
  - intros h Hh.
    pose proof (proj2 (recovery_ec2_check_state_unsettled ec2_id w)) as Hhalt.
    rewrite Hh in Hhalt.
    destruct h as [msg|e|]; try contradiction.
    destruct e; try contradiction; first [left; eexists; reflexivity | right; exact I].
Qed.

(** ** The wait for the recovery instance *)

(** X3. [recovery_ec2_monitor_transition] returns only when the state
    check has just reported the awaited status: the last thing a
    returning wait printed is that status.  A rejected query never ends
    the wait; it stops short only by an exception from reading an answer
    (or, here, by using up the iteration budget). *)
Theorem monitor_transition_breaks_only_at_target
    (fuel : nat) (ec2_id target_state target_status : string) (w : W) :
  (out (recovery_ec2_monitor_transition fuel ec2_id target_state target_status w) = Ret tt ->
   exists l,
     log (recovery_ec2_monitor_transition fuel ec2_id target_state target_status w)
     = (l ++ [EvPrint (target_status ++ nl)])%list) /\
  (forall h,
      out (recovery_ec2_monitor_transition fuel ec2_id target_state target_status w) = Halt h ->
      h = OutOfFuel \/ misread h).
Proof.
  revert w. induction fuel as [|fuel IH]; intros w.
  - split; [discriminate|]. intros h [= <-]. left. reflexivity.
  - rewrite monitor_unfold.
    destruct (monitor_round_cases ec2_id target_state target_status w)
      as [(Ho & (l & Hl) & _)|[(Ho & _)|(h & Ho & Hmis & _)]].
    + erewrite run_bind_ret by (first [apply run_of; exact Ho | reflexivity]).
      cbn [out log]. rewrite app_nil_r. split; [intros _; eauto | discriminate].
    + destruct (bind_cases (monitor_round ec2_id target_state target_status)
                  (fun done : bool =>
                     if done then ret tt
                     else recovery_ec2_monitor_transition fuel ec2_id
                            target_state target_status) w)
        as [(done & Hdone & -> & ->)|(h & Hh & _)]; [|congruence].
      rewrite Ho in Hdone. injection Hdone as <-.
      destruct (IH (world (monitor_round ec2_id target_state target_status w)))
        as [Hret Hhalt].
      split; [|exact Hhalt].
      intros Hr. destruct (Hret Hr) as (l & ->).
      eexists. rewrite app_assoc. reflexivity.
    + erewrite run_bind_halt by (apply run_of; exact Ho).
      cbn [out]. split; [discriminate|]. intros h' [= <-]. right. exact Hmis.
Qed.

(** X4. Between two status polls [recovery_ec2_monitor_transition] always
    sleeps, and always for 10: the polls and sleeps of any run alternate,
    starting with a poll, and end with a poll unless the iteration budget
    ran out. *)
Theorem monitor_transition_sleeps_between_polls
    (fuel : nat) (ec2_id target_state target_status : string) (w : W) :
  exists n,
    sleeps (log (recovery_ec2_monitor_transition fuel ec2_id target_state target_status w))
    = repeat 10 n /\
    rhythm is_status_poll
           (log (recovery_ec2_monitor_transition fuel ec2_id target_state target_status w))
    = (List.concat (repeat [true; false] n)
       ++ match out (recovery_ec2_monitor_transition fuel ec2_id
                       target_state target_status w) with
          | Halt OutOfFuel => []
          | _ => [true]
          end)%list.
Proof.
  revert w. induction fuel as [|fuel IH]; intros w.
  - exists 0%nat. split; reflexivity.
  - rewrite monitor_unfold.
    destruct (monitor_round_cases ec2_id target_state target_status w)
      as [(Ho & _ & Hr & Hs)|[(Ho & Hr & Hs)|(h & Ho & Hmis & Hr & Hs)]].
    + erewrite run_bind_ret by (first [apply run_of; exact Ho | reflexivity]).
      cbn [out log]. rewrite app_nil_r. exists 0%nat. split; assumption.
    + destruct (bind_cases (monitor_round ec2_id target_state target_status)
                  (fun done : bool =>
                     if done then ret tt
                     else recovery_ec2_monitor_transition fuel ec2_id
                            target_state target_status) w)
        as [(done & Hdone & -> & ->)|(h & Hh & _)]; [|congruence].
      rewrite Ho in Hdone. injection Hdone as <-.
      destruct (IH (world (monitor_round ec2_id target_state target_status w)))
        as (n & Hsleeps & Hrhythm).
      exists (S n). rewrite sleeps_app, rhythm_app, Hs, Hr, Hsleeps, Hrhythm.
      split; reflexivity.
    + erewrite run_bind_halt by (apply run_of; exact Ho).
      cbn [out log]. exists 0%nat. split; [assumption|].
      destruct h as [msg|e|]; try contradiction. exact Hr.
Qed.

Lemma monitor_round_rejected ec2_id target_state target_status (w w1 : W) :
  client w (DescribeInstanceStatus ec2_id) = (None, w1) ->
  monitor_round ec2_id target_state target_status w
  = {| out := Ret false; world := w1;
       log := [EvCall (DescribeInstanceStatus ec2_id) None;
               EvPrint ("pending" ++ nl); EvSleep 10] |}.
Proof.
  intros Hstatus. unfold monitor_round.
  etransitivity.
  - eapply run_try_handled.
    + eapply run_bind_halt.
      apply recovery_ec2_check_state_status_rejected. exact Hstatus.
    + reflexivity.
    + run_chain.
  - reflexivity.
Qed.

(** X5. The wait has no retry limit of its own: as long as the provider
    rejects the status query, each round prints pending, sleeps for 10
    and asks again, so that however many rounds are allowed, all of them
    are used and the wait has not ended. *)
Theorem monitor_transition_retries_without_limit
    (ec2_id target_state target_status : string) :
  (forall w, fst (client w (DescribeInstanceStatus ec2_id)) = None) ->
  forall fuel w,
    out (recovery_ec2_monitor_transition fuel ec2_id target_state target_status w)
    = Halt OutOfFuel /\
    requests (log (recovery_ec2_monitor_transition fuel ec2_id target_state target_status w))
    = repeat (DescribeInstanceStatus ec2_id) fuel /\
    sleeps (log (recovery_ec2_monitor_transition fuel ec2_id target_state target_status w))
    = repeat 10 fuel.
Proof.
  intros Hrejects fuel. induction fuel as [|fuel IH]; intros w.
  - repeat split.
  - rewrite monitor_unfold.
    destruct (client w (DescribeInstanceStatus ec2_id)) as [a w1] eqn:Hclient.
    pose proof (Hrejects w) as Ha. rewrite Hclient in Ha. cbn in Ha. subst a.
    destruct (IH w1) as (Ho & Hr & Hs).
    erewrite run_bind_ret
      by (first [ apply monitor_round_rejected; exact Hclient
                | cbv beta iota; apply result_eta ]).
    cbn [out log app requests sleeps flat_map repeat].
    fold (requests (log (recovery_ec2_monitor_transition fuel ec2_id
                           target_state target_status w1))).
    fold (sleeps (log (recovery_ec2_monitor_transition fuel ec2_id
                         target_state target_status w1))).
    rewrite Ho, Hr, Hs. repeat split.
Qed.

(** ** The removal of the boot volume *)

Lemma index0_ret_inv {A} (l : list A) (w : W) x :
  out (index0 l w) = Ret x -> exists rest, l = x :: rest.
Proof. destruct l as [|y l]; cbn; [discriminate|]. intros [= ->]. eauto. Qed.

Lemma log_volumes_of r (w : W) : log (volumes_of r w) = [].
Proof. destruct r; reflexivity. Qed.

Lemma volumes_of_ret_inv r (w : W) l : out (volumes_of r w) = Ret l -> r = RVolumes l.
Proof. destruct r; cbn; congruence. Qed.

Lemma log_reservations_of r (w : W) : log (reservations_of r w) = [].
Proof. destruct r; reflexivity. Qed.

Lemma reservations_of_ret_inv r (w : W) l :
  out (reservations_of r w) = Ret l -> r = RReservations l.
Proof. destruct r; cbn; congruence. Qed.

Lemma wait_available_ret fuel target_ebs (w : W) :
  out (wait_available fuel target_ebs w) = Ret tt ->
  exists k l others,
    log (wait_available fuel target_ebs w)
    = (l ++ [EvCall (DescribeVolumes target_ebs)
                    (Some (RVolumes ("available" :: others)))])%list /\
    requests (log (wait_available fuel target_ebs w))
    = (List.concat (repeat [DescribeVolumes target_ebs; DescribeVolumes target_ebs] k)
       ++ [DescribeVolumes target_ebs])%list /\
    rhythm is_volume_poll (log (wait_available fuel target_ebs w))
    = (List.concat (repeat [true; true; false] k) ++ [true])%list /\
    sleeps (log (wait_available fuel target_ebs w)) = repeat 10 k.
Proof.
  revert w. induction fuel as [|fuel IH]; intros w H; [discriminate|].
  cbn [wait_available] in H |- *.
  invert_bind H r Hr. apply call_ret_inv in Hr as [Hr ->].
  invert_bind H volumes Hvolumes. rewrite log_volumes_of.
  apply volumes_of_ret_inv in Hvolumes. subst r.
  invert_bind H state Hstate. rewrite log_index0.
  apply index0_ret_inv in Hstate as (others & ->).
  destruct (String.eqb_spec state "available") as [->|Hbusy].
  - exists 0%nat, [], others. cbn. auto.
  - invert_bind H r' Hr'. apply call_ret_inv in Hr' as [Hr' ->].
    invert_bind H volumes' Hvolumes'. rewrite log_volumes_of.
    invert_bind H volume_state Hvolume_state. rewrite log_index0.
    invert_bind H u Hu. invert_bind H u' Hu'.
    destruct (IH _ H) as (k & l & others' & Hlog & Hrequests & Hrhythm & Hsleeps).
    exists (S k). eexists. exists others'.
    rewrite !requests_app, !rhythm_app, !sleeps_app, Hrequests, Hrhythm, Hsleeps.
    split; [|split; [|split]]; try reflexivity.
    rewrite Hlog. cbn [app print sleep tell log].
    rewrite !app_comm_cons. reflexivity.
Qed.

Lemma wait_deleted_ret fuel target_ebs (w : W) :
  out (wait_deleted fuel target_ebs w) = Ret tt ->
  exists m l,
    log (wait_deleted fuel target_ebs w)
    = (l ++ [EvCall (DescribeVolumes target_ebs) None;
             EvPrint (("Successfully deleted " ++ target_ebs) ++ nl)])%list /\
    requests (log (wait_deleted fuel target_ebs w))
    = repeat (DescribeVolumes target_ebs) (S m).
Proof.
  revert w. induction fuel as [|fuel IH]; intros w H; [discriminate|].
  destruct (client w (DescribeVolumes target_ebs)) as [[x|] w'] eqn:Hclient.
  - rewrite (wait_deleted_still_there _ _ _ _ _ Hclient) in H |- *.
    cbn [out log] in H |- *.
    destruct (IH _ H) as (m & l & Hlog & Hrequests).
    exists (S m). eexists. rewrite Hlog. split.
    + rewrite !app_comm_cons. reflexivity.
    + rewrite <- Hlog.
      change (requests (?e1 :: ?e2 :: ?l'))
        with (requests [e1; e2] ++ requests l')%list.
      rewrite Hrequests. reflexivity.
  - rewrite (wait_deleted_gone _ _ _ _ Hclient). cbn [log].
    exists 0%nat, []. split; reflexivity.
Qed.

(** X6. The wait for the detached boot volume asks the provider twice in
    every round that finds the volume not yet available (once to test,
    once more for the state it prints) and then sleeps for 10; it ends
    with the query that was answered available. *)
Theorem detach_wait_asks_twice_then_sleeps (fuel : nat) (target_ebs : string) (w : W) :
  out (wait_available fuel target_ebs w) = Ret tt ->
  exists k l others,
    log (wait_available fuel target_ebs w)
    = (l ++ [EvCall (DescribeVolumes target_ebs)
                    (Some (RVolumes ("available" :: others)))])%list /\
    rhythm is_volume_poll (log (wait_available fuel target_ebs w))
    = (List.concat (repeat [true; true; false] k) ++ [true])%list /\
    sleeps (log (wait_available fuel target_ebs w)) = repeat 10 k.
Proof.
  intros H.
  destruct (wait_available_ret fuel target_ebs w H)
    as (k & l & others & Hlog & _ & Hrhythm & Hsleeps).
  exists k, l, others. auto.
Qed.

(** X7. A run of [nuke_root_ebs] that returns has touched one volume
    only, the first block device the provider lists for the instance: it
    asked for the instance, detached that volume, polled it until it was
    available, deleted it, and polled it again until the provider no
    longer knew it.  These are all its requests, in this order. *)
Theorem nuke_root_ebs_removes_first_block_device
    (fuel : nat) (instance : string) (w : W) :
  out (nuke_root_ebs fuel instance w) = Ret tt ->
  exists desc instances reservations target_ebs mappings k m,
    fst (client w (DescribeInstances instance))
    = Some (RReservations ((desc :: instances) :: reservations)) /\
    BlockDeviceMappings desc = target_ebs :: mappings /\
    requests (log (nuke_root_ebs fuel instance w))
    = ([DescribeInstances instance; DetachVolume instance target_ebs]
       ++ List.concat (repeat [DescribeVolumes target_ebs; DescribeVolumes target_ebs] k)
       ++ [DescribeVolumes target_ebs; DeleteVolume target_ebs]
       ++ repeat (DescribeVolumes target_ebs) (S m))%list.
Proof.
  unfold nuke_root_ebs. intros H.
  invert_bind H r Hr. apply call_ret_inv in Hr as [Hr ->].
  invert_bind H reservations Hreservations. rewrite log_reservations_of.
  apply reservations_of_ret_inv in Hreservations. subst r.
  invert_bind H instances Hinstances. rewrite log_index0.
  apply index0_ret_inv in Hinstances as (reservations' & ->).
  invert_bind H desc Hdesc. rewrite log_index0.
  apply index0_ret_inv in Hdesc as (instances' & ->).
  invert_bind H target_ebs Htarget. rewrite log_index0.
  apply index0_ret_inv in Htarget as (mappings & Hmappings).
  invert_bind H u Hu.
  invert_bind H r Hdetach. apply call_ret_inv in Hdetach as [_ ->].
  invert_bind H u1 Hwait. destruct u1.
  destruct (wait_available_ret _ _ _ Hwait) as (k & _ & _ & _ & Hpolls & _).
  invert_bind H u2 Hu2. invert_bind H u3 Hu3.
  invert_bind H r' Hdelete. apply call_ret_inv in Hdelete as [_ ->].
  destruct (wait_deleted_ret _ _ _ H) as (m & _ & _ & Hgone).
  exists desc, instances', reservations', target_ebs, mappings, k, m.
  split; [exact Hr|]. split; [exact Hmappings|].
  rewrite !requests_app, Hpolls, Hgone.
  cbn [print tell log requests flat_map app]. rewrite <- !app_assoc. reflexivity.
Qed.

(** ** The lookups of the validation *)

Lemma validate_ami_id_inquires : triple validate_ami_id inquiry anything aborted.
Proof. unfold validate_ami_id. triple_auto. Qed.

Lemma validate_subnet_inquires subnet_id :
  triple (validate_subnet subnet_id) inquiry anything aborted.
Proof.
  unfold validate_subnet, subnets_of. triple_auto.
  apply index0_triple. exact I.
Qed.

Lemma trim_loop_inquires budget l : triple (trim_loop budget l) inquiry anything aborted.
Proof.
  revert l. induction budget as [|budget IH]; intros l; simpl.
  - triple_auto.
  - triple_auto. apply IH.
Qed.

Lemma check_security_group_inquires security_group :
  triple (check_security_group security_group) inquiry anything aborted.
Proof. unfold check_security_group. triple_auto. Qed.

Lemma validate_security_group_inquires :
  triple validate_security_group inquiry anything aborted.
Proof.
  unfold validate_security_group, trim_security_groups. triple_auto.
  - apply trim_loop_inquires.
  - apply for_each_triple, check_security_group_inquires.
Qed.

Lemma validate_provision_key_inquires :
  triple validate_provision_key inquiry anything aborted.
Proof. unfold validate_provision_key. triple_auto. Qed.

Lemma ebs_snap_tags_to_attribs_inquires value :
  triple (ebs_snap_tags_to_attribs value) inquiry (fun attrs => attrs <> []) aborted.
Proof.
  unfold ebs_snap_tags_to_attribs.
  eapply triple_bind with (R := fun snaps => snaps <> []).
  - unfold ebs_get_snap_info, snapshots_of. triple_auto. discriminate.
  - intros snaps Hne. apply triple_ret. apply attribs_nonempty. left. exact Hne.
Qed.

(** ** What the command line lets a run ask *)

Lemma allowed_requests P (l : list event) :
  forallb (allowed P) l = true <-> forall r, In r (requests l) -> P r = true.
Proof.
  induction l as [|e l IH]; [split; [intros _ r [] | reflexivity]|].
  cbn [forallb]. rewrite andb_true_iff, IH.
  change (e :: l) with ([e] ++ l)%list. rewrite requests_app.
  split.
  - intros [He Hl] r Hin. apply in_app_or in Hin as [Hin|Hin]; [|auto].
    destruct e as [r' a| |]; cbn in Hin; try contradiction.
    destruct Hin as [<-|[]]. exact He.
  - intros Hall. split.
    + destruct e as [r' a| |]; try reflexivity. apply Hall, in_or_app. left. left. reflexivity.
    + intros r Hin. apply Hall, in_or_app. right. exact Hin.
Qed.

Lemma userdata_content_from_file P :
  triple (match USERDATA_FILE cfg with
          | Some file => if truthy (Some file)
                         then content <- userdata_read_file file ;; ret (Some content)
                         else ret None
          | None => ret None
          end) P from_file aborted.
Proof.
  destruct (USERDATA_FILE cfg) as [file|] eqn:Efile.
  - destruct (truthy (Some file)) eqn:Etruthy.
    + eapply triple_bind with (R := anything);
        [apply userdata_read_file_silent | intros content _].
      apply triple_ret. intros text _. exists file. split; [exact Efile|].
      intros ->. discriminate Etruthy.
    + apply triple_ret. intros text. discriminate.
  - apply triple_ret. intros text. discriminate.
Qed.

Lemma validate_security_group_kept :
  triple validate_security_group inquiry kept_groups aborted.
Proof.
  unfold validate_security_group.
  eapply triple_bind with (R := anything); [triple_auto | intros _ _].
  destruct (SECURITY_GROUPS cfg) as [flag|] eqn:Eflag.
  - eapply triple_bind with (R := fun l => l = split_on "," flag);
      [apply triple_ret; reflexivity | intros l ->].
    eapply triple_bind with (R := fun kept => kept = firstn 5 (split_on "," flag)).
    + destruct (Nat.ltb_spec 5 (List.length (split_on "," flag))) as [Hlong|Hshort].
      * eapply triple_bind with (R := anything); [triple_auto | intros _ _].
        intros w. rewrite trim_security_groups_run. cbn [out log]. split; [|reflexivity].
        induction (rev (skipn 5 (split_on "," flag))); simpl; auto.
      * apply triple_ret. rewrite firstn_all2 by exact Hshort. reflexivity.
    + intros kept ->.
      eapply triple_bind with (R := anything);
        [apply for_each_triple, check_security_group_inquires | intros _ _].
      apply triple_ret. exists flag. auto.
  - eapply triple_bind with (R := nothing); [apply triple_halt; exact I | intros ? []].
Qed.

Lemma checked_run_triple P fuel content :
  (forall r, inquiry r = true -> P r = true) ->
  (forall az groups attrs,
      kept_groups groups -> attrs <> [] ->
      triple (rebuild fuel az groups content attrs) P anything anyhow) ->
  triple (checked_run fuel content) P anything anyhow.
Proof.
  intros HP Hrebuild. unfold checked_run.
  chain_lookup ltac:(apply validate_ami_id_inquires) (@anything unit). intros _ _.
  chain_lookup ltac:(apply validate_subnet_inquires) (@anything string). intros az _.
  chain_lookup ltac:(apply validate_security_group_kept) kept_groups. intros groups Hgroups.
  chain_lookup ltac:(apply validate_provision_key_inquires) (@anything unit). intros _ _.
  chain_lookup ltac:(apply ebs_snap_tags_to_attribs_inquires)
               (fun attrs : dict (dict attr_val) => attrs <> []).
  intros attrs Hattrs. apply Hrebuild; assumption.
Qed.

Lemma main_triple P fuel :
  (forall content,
      from_file content -> triple (checked_run fuel content) P anything anyhow) ->
  triple (main fuel) P anything anyhow.
Proof.
  intros Hchecked. rewrite main_unfold.
  chain_lookup ltac:(apply prelude_silent) (@anything unit). intros _ _.
  chain_lookup ltac:(apply userdata_content_from_file) from_file.
  intros content Hcontent. apply Hchecked, Hcontent.
Qed.

(** X8. What the command line does not ask for is never requested: in
    every run, however far it gets, the instance is started only with the
    power-on flag, the user data of the source instance is read only with
    the clone flag, user data is set on the recovery instance only with
    the clone or the file flag, and its security groups are changed only
    when a non-empty group list was given. *)
Theorem flags_gate_the_optional_requests (fuel : nat) (w : W) :
  forall r, In r (requests (log (main fuel w))) -> enabled r = true.
Proof.
  apply allowed_requests. revert w.
  enough (Hmain : triple (main fuel) enabled anything anyhow)
    by (intros w; exact (proj1 (Hmain w))).
  apply main_triple. intros content Hcontent.
  apply checked_run_triple.
  { intros []; cbn; intros; first [reflexivity | discriminate]. }
  intros az groups attrs _ _.
  apply rebuild_triple; try reflexivity.
  intros instance vols.
  apply after_launch_asks; try reflexivity; try (intros; assumption).
  intros text [->|Hclone]; cbn.
  - destruct (Hcontent text eq_refl) as (file & -> & Hfile).
    apply String.eqb_neq in Hfile. cbn. rewrite Hfile. apply orb_true_r.
  - rewrite Hclone. reflexivity.
Qed.

(** X9. A run acts on no instance but the one it launched: when the
    provider answers the launch with the instance [instance], every
    request of the run that names an instance to describe, stop, start or
    change, or to detach a volume from or attach one to, names
    [instance].  (The user data to clone is read from another instance,
    the source.) *)
Theorem only_the_launched_instance_is_touched (instance : string) :
  (forall w image kind key subnet az label ids,
      fst (client w (RunInstances image kind key subnet az label))
      = Some (RInstances ids) ->
      hd_error ids = Some instance) ->
  forall fuel w r,
    In r (requests (log (main fuel w))) -> about_instance instance r = true.
Proof.
  intros Hlaunch fuel w. apply allowed_requests. revert w.
  enough (Hmain : triple (main fuel) (about_instance instance) anything anyhow)
    by (intros w; exact (proj1 (Hmain w))).
  apply main_triple. intros content _.
  apply checked_run_triple.
  { intros []; cbn; intros; first [reflexivity | discriminate]. }
  intros az groups attrs _ _. unfold rebuild.
  chain_lookup ltac:(apply recovery_ec2_get_az_silent) (@anything string). intros build _.
  eapply triple_bind with (R := anything); [|intros vols _].
  { unfold ebs_snap_reconstitute. apply reconstitute_loop_triple. reflexivity. }
  eapply triple_bind
    with (R := fun r => forall ids, r = RInstances ids -> hd_error ids = Some instance).
  { unfold recovery_ec2_make.
    eapply triple_bind with (R := anything); [triple_auto | intros image _].
    apply triple_call; [reflexivity | | intros _; exact I].
    intros w x Hx ids ->. exact (Hlaunch _ _ _ _ _ _ _ _ Hx). }
  intros launched Hlaunched.
  eapply triple_bind with (R := fun ids => hd_error ids = Some instance).
  { unfold instances_of. destruct launched; try (apply triple_halt; exact I).
    apply triple_ret. apply Hlaunched. reflexivity. }
  intros ids Hids.
  eapply triple_bind with (R := fun i => i = instance).
  { destruct ids as [|i ids]; [discriminate|]. injection Hids as ->.
    apply triple_ret. reflexivity. }
  intros i ->.
  apply after_launch_asks; intros; cbn; first [apply String.eqb_refl | reflexivity].
Qed.

(** ** The order of a run *)

Lemma forallb_requests P (l : list event) :
  forallb (allowed P) l = true -> forallb P (requests l) = true.
Proof.
  intros Hl. apply forallb_forall. intros r Hin.
  exact (proj1 (allowed_requests P l) Hl r Hin).
Qed.

Lemma staged_nil : staged [].
Proof. exists [], [], []. repeat split. left. reflexivity. Qed.

Lemma staged_lookup l l' :
  forallb (allowed inquiry) l = true -> staged l' -> staged (l ++ l')%list.
Proof.
  intros Hl (lookups & creations & rest & -> & Hlookups & Hcreations & Hrest).
  exists (l ++ lookups)%list, creations, rest.
  rewrite forallb_app, Hl, Hlookups, app_assoc. auto.
Qed.

Lemma create_from_snapshot_answered build_az ebs_type snapshot attrs
    original_ec2 original_device (w : W) (v : volume_info) :
  out (create_from_snapshot build_az ebs_type snapshot attrs
                            original_ec2 original_device w) = Ret v ->
  forallb answered (log (create_from_snapshot build_az ebs_type snapshot attrs
                                              original_ec2 original_device w)) = true.
Proof.
  unfold create_from_snapshot. intros H.
  destruct (String.eqb ebs_type "io1"); [|destruct (String.eqb ebs_type "gp2")].
  - rewrite (try_ret_inv _ _ _ _ H
               (fun e k w' Hk => create_failed_exits e k w' v Hk)) in H |- *.
    invert_bind H size Hsize. rewrite log_getitem.
    invert_bind H iops Hiops. rewrite log_validate_io1_config.
    invert_bind H ec2 Hec2. rewrite log_param_str.
    invert_bind H device Hdevice. rewrite log_param_str.
    invert_bind H r Hr. apply call_ret_inv in Hr as [Hr ->].
    invert_bind H v' Hv. rewrite log_volume_of.
    apply volume_of_ret_inv in Hv. subst r.
    invert_bind H u Hu. reflexivity.
  - rewrite (try_ret_inv _ _ _ _ H
               (fun e k w' Hk => create_failed_exits e k w' v Hk)) in H |- *.
    invert_bind H ec2 Hec2. rewrite log_param_str.
    invert_bind H device Hdevice. rewrite log_param_str.
    invert_bind H r Hr. apply call_ret_inv in Hr as [Hr ->].
    invert_bind H v' Hv. rewrite log_volume_of.
    apply volume_of_ret_inv in Hv. subst r.
    invert_bind H u Hu. reflexivity.
  - discriminate.
Qed.

Lemma reconstitute_loop_answered build_az ebs_type items acc (w : W) vols :
  out (reconstitute_loop build_az ebs_type items acc w) = Ret vols ->
  forallb answered (log (reconstitute_loop build_az ebs_type items acc w)) = true.
Proof.
  revert acc w vols.
  induction items as [|[snapshot attrs] rest IH]; intros acc w vols H; [reflexivity|].
  cbn [reconstitute_loop] in H |- *.
  invert_bind H original_ec2 Hec2. rewrite log_getitem.
  invert_bind H device_value Hdev. rewrite log_getitem.
  invert_bind H u Hu.
  invert_bind H v Hv.
  rewrite !forallb_app, (create_from_snapshot_answered _ _ _ _ _ _ _ _ Hv), (IH _ _ _ H).
  reflexivity.
Qed.

Lemma recovery_ec2_make_log az (w : W) :
  requests (log (recovery_ec2_make az w)) = [] \/
  exists launch,
    is_launch launch = true /\ requests (log (recovery_ec2_make az w)) = [launch].
Proof.
  unfold recovery_ec2_make. destruct (AMI_ID cfg) as [image|].
  - right. eexists. split; [|unfold bind, call; cbn [ret out world log];
                             destruct (client w _) as [[x|] w']; reflexivity].
    reflexivity.
  - left. reflexivity.
Qed.

Lemma recovery_ec2_make_ret az (w : W) launched :
  out (recovery_ec2_make az w) = Ret launched ->
  exists launch,
    is_launch launch = true /\ requests (log (recovery_ec2_make az w)) = [launch].
Proof.
  unfold recovery_ec2_make. destruct (AMI_ID cfg) as [image|]; [|discriminate].
  intros _. eexists. split; [|unfold bind, call; cbn [ret out world log];
                              destruct (client w _) as [[x|] w']; reflexivity].
  reflexivity.
Qed.

Lemma after_launch_aftercare fuel instance vols groups content attrs :
  triple (after_launch fuel instance vols groups content attrs) aftercare anything anyhow.
Proof. apply after_launch_asks; reflexivity. Qed.

Lemma launch_and_after fuel az vols groups content attrs (w : W) :
  let tail :=
    (launched <- recovery_ec2_make az ;;
     instances <- instances_of launched ;;
     instance <- index0 instances ;;
     after_launch fuel instance vols groups content attrs) in
  requests (log (tail w)) = [] \/
  exists launch others,
    requests (log (tail w)) = launch :: others /\
    is_launch launch = true /\
    forallb aftercare others = true.
Proof.
  intros tail. subst tail.
  assert (Hrest : forall launched,
             triple (instances <- instances_of launched ;;
                     instance <- index0 instances ;;
                     after_launch fuel instance vols groups content attrs)
                    aftercare anything anyhow).
  { intros launched.
    eapply triple_bind with (R := anything);
      [unfold instances_of; triple_auto | intros instances _].
    eapply triple_bind with (R := anything);
      [unfold index0; triple_auto | intros instance _].
    apply after_launch_aftercare. }
  destruct (bind_cases (recovery_ec2_make az)
              (fun launched =>
                 instances <- instances_of launched ;;
                 instance <- index0 instances ;;
                 after_launch fuel instance vols groups content attrs) w)
    as [(launched & Hret & _ & ->)|(h & _ & _ & ->)].
  - rewrite requests_app.
    pose proof (forallb_requests _ _ (proj1 (Hrest launched (world (recovery_ec2_make az w)))))
      as Hothers.
    destruct (recovery_ec2_make_ret az w launched Hret) as (launch & Hlaunch & ->).
    right. exists launch. eexists. split; [reflexivity|]. split; assumption.
  - destruct (recovery_ec2_make_log az w) as [->|(launch & Hlaunch & ->)];
      [left; reflexivity|].
    right. exists launch, []. auto.
Qed.

(** X10. Every run goes through its stages in order and none is entered
    early: its log is a stretch of validation lookups, then a stretch of
    volume creations, then the rest.  The rest begins with the launch of
    the recovery instance, contains no second launch, no creation and no
    validation lookup, and is reached only when every create-volume
    request before it was answered with a volume. *)
Theorem run_validates_then_creates_then_launches (fuel : nat) (w : W) :
  staged (log (main fuel w)).
Proof.
  rewrite main_unfold.
  eapply log_skip;
    [apply (prelude_silent inquiry) | exact staged_lookup | exact staged_nil | intros _ ? _].
  eapply log_skip;
    [apply (userdata_content_silent inquiry) | exact staged_lookup | exact staged_nil
    | intros content ? _].
  unfold checked_run.
  eapply log_skip;
    [apply validate_ami_id_inquires | exact staged_lookup | exact staged_nil | intros _ ? _].
  eapply log_skip;
    [apply validate_subnet_inquires | exact staged_lookup | exact staged_nil | intros az ? _].
  eapply log_skip;
    [apply validate_security_group_inquires | exact staged_lookup | exact staged_nil
    | intros groups ? _].
  eapply log_skip;
    [apply validate_provision_key_inquires | exact staged_lookup | exact staged_nil
    | intros _ ? _].
  eapply log_skip;
    [apply ebs_snap_tags_to_attribs_inquires | exact staged_lookup | exact staged_nil
    | intros attrs w7 _].
  unfold rebuild.
  eapply log_skip;
    [apply (recovery_ec2_get_az_silent _ _ inquiry) | exact staged_lookup | exact staged_nil
    | intros build w8 _].
  pose proof (proj1 (reconstitute_loop_triple is_create build (EBS_TYPE cfg) attrs []
                       (fun _ _ _ _ => eq_refl) w8)) as Hcreates.
  fold (ebs_snap_reconstitute build (EBS_TYPE cfg) attrs) in Hcreates.
  match goal with
  | |- staged (log (bind ?m ?f ?w')) =>
      destruct (bind_cases m f w') as [(vols & Hvols & _ & ->)|(h & _ & _ & ->)]
  end.
  - exists [], (log (ebs_snap_reconstitute build (EBS_TYPE cfg) attrs w8)).
    eexists. split; [reflexivity|]. split; [reflexivity|]. split; [exact Hcreates|].
    destruct (launch_and_after fuel az vols groups content attrs
                (world (ebs_snap_reconstitute build (EBS_TYPE cfg) attrs w8)))
      as [Hnone|(launch & others & Hrest & Hlaunch & Hothers)].
    + left. exact Hnone.
    + right. exists launch, others. repeat split; try assumption.
      apply (reconstitute_loop_answered _ _ _ _ _ _ Hvols).
  - exists [], (log (ebs_snap_reconstitute build (EBS_TYPE cfg) attrs w8)), [].
    rewrite app_nil_r. repeat split; [exact Hcreates|]. left. reflexivity.
Qed.

(** ** The volumes that are requested *)

Lemma validate_io1_config_bounds snap_size P :
  triple (validate_io1_config snap_size) P (fun iops => 100 <= iops <= 64000) anyhow.
Proof.
  intros w. unfold validate_io1_config.
  destruct snap_size as [n|s]; [|split; [reflexivity | exact I]].
  destruct (n <? 4); [split; [reflexivity | exact I]|].
  unfold bind.
  destruct (EBS_IOPS cfg >? 0); [|split; [reflexivity | exact I]].
  destruct ((EBS_IOPS cfg <? 3) || (EBS_IOPS cfg >? 50));
    [split; [reflexivity | exact I]|].
  cbn [ret out world log app forallb]. split; [reflexivity|].
  rewrite Z.gtb_ltb.
  destruct (Z.ltb_spec (n * EBS_IOPS cfg) 100);
    [|destruct (Z.ltb_spec 64000 (n * EBS_IOPS cfg))]; lia.
Qed.

Lemma create_from_snapshot_well_made build_az ebs_type snapshot attrs ec2 device :
  triple (create_from_snapshot build_az ebs_type snapshot attrs ec2 device)
         (well_made build_az ebs_type) anything anyhow.
Proof.
  unfold create_from_snapshot.
  destruct (String.eqb ebs_type "io1") eqn:Eio1;
    [|destruct (String.eqb ebs_type "gp2") eqn:Egp2].
  - apply triple_try.
    + eapply triple_bind with (R := anything);
        [apply getitem_triple; exact I | intros size _].
      eapply triple_bind; [apply validate_io1_config_bounds | intros iops [Hlow Hhigh]].
      eapply triple_bind with (R := anything);
        [unfold param_str; triple_auto | intros ec2' _].
      eapply triple_bind with (R := anything);
        [unfold param_str; triple_auto | intros device' _].
      eapply triple_bind with (R := anything); [|intros r _; unfold volume_of; triple_auto].
      apply triple_call; [|intros; exact I | intros; exact I].
      cbn. rewrite !String.eqb_refl, Eio1. cbn.
      apply Z.leb_le in Hlow, Hhigh. rewrite Hlow, Hhigh. reflexivity.
    + intros [] k Hk; try discriminate; injection Hk as <-; triple_auto.
  - apply triple_try.
    + eapply triple_bind with (R := anything);
        [unfold param_str; triple_auto | intros ec2' _].
      eapply triple_bind with (R := anything);
        [unfold param_str; triple_auto | intros device' _].
      eapply triple_bind with (R := anything); [|intros r _; unfold volume_of; triple_auto].
      apply triple_call; [|intros; exact I | intros; exact I].
      cbn. rewrite !String.eqb_refl, Egp2. reflexivity.
    + intros [] k Hk; try discriminate; injection Hk as <-; triple_auto.
  - triple_auto.
Qed.

Lemma reconstitute_loop_well_made build_az ebs_type items acc :
  triple (reconstitute_loop build_az ebs_type items acc)
         (well_made build_az ebs_type) anything anyhow.
Proof.
  revert acc. induction items as [|[snapshot attrs] rest IH]; intros acc;
    cbn [reconstitute_loop].
  - triple_auto.
  - unfold getitem.
    eapply triple_bind with (R := anything); [triple_auto | intros ? _].
    eapply triple_bind with (R := anything); [triple_auto | intros ? _].
    eapply triple_bind with (R := anything); [triple_auto | intros ? _].
    eapply triple_bind with (R := anything);
      [apply create_from_snapshot_well_made | intros ? _; apply IH].
Qed.

(** X11. [ebs_snap_reconstitute] asks the provider for nothing but
    volumes, and every volume it asks for is in the build zone, of the
    requested kind, tagged with exactly the two provenance tags under
    the keys Original Instance and Original Attachment (whatever tag
    names the command line selects on the snapshots), and carries an IOPS
    figure only when the kind is io1, the figure then lying between 100
    and 64000; a gp2 request never carries one. *)
Theorem reconstitute_requests_are_well_made
    (build_az ebs_type : string) (snapshot_attributes : dict (dict attr_val)) (w : W) :
  forall r,
    In r (requests (log (ebs_snap_reconstitute build_az ebs_type snapshot_attributes w))) ->
    well_made build_az ebs_type r = true.
Proof.
  apply allowed_requests.
  exact (proj1 (reconstitute_loop_well_made build_az ebs_type snapshot_attributes [] w)).
Qed.

(** ** What [validate_io1_config] refuses *)

Lemma validate_io1_config_too_small n (w : W) :
  n < 4 ->
  validate_io1_config (VInt n) w
  = {| out := Halt (Raise (ValueError (too_small_message n))); world := w; log := [] |}.
Proof.
  intros Hn. unfold validate_io1_config.
  destruct (Z.ltb_spec n 4); [reflexivity | lia].
Qed.

Lemma validate_io1_config_no_ratio n (w : W) :
  4 <= n -> EBS_IOPS cfg <= 0 ->
  validate_io1_config (VInt n) w
  = {| out := Halt (Exit no_ratio_message); world := w; log := [] |}.
Proof.
  intros Hn Hratio. unfold validate_io1_config, bind. rewrite Z.gtb_ltb.
  destruct (Z.ltb_spec n 4); [lia|].
  destruct (Z.ltb_spec 0 (EBS_IOPS cfg)); [lia | reflexivity].
Qed.

Lemma validate_io1_config_ratio_range n (w : W) :
  4 <= n -> 0 < EBS_IOPS cfg -> EBS_IOPS cfg < 3 \/ 50 < EBS_IOPS cfg ->
  validate_io1_config (VInt n) w
  = {| out := Halt (Exit ratio_range_message); world := w; log := [] |}.
Proof.
  intros Hn Hpositive Hratio. unfold validate_io1_config, bind. rewrite !Z.gtb_ltb.
  destruct (Z.ltb_spec n 4); [lia|].
  destruct (Z.ltb_spec 0 (EBS_IOPS cfg)); [|lia].
  destruct (Z.ltb_spec (EBS_IOPS cfg) 3); [reflexivity|].
  destruct (Z.ltb_spec 50 (EBS_IOPS cfg)); [reflexivity | lia].
Qed.

(** X12. The refusals of [validate_io1_config], in the order it checks:
    a size below 4 raises a ValueError that quotes the size, whatever the
    ratio is; otherwise a ratio of zero or less exits with the message
    that no ratio was given, and a ratio of 1 or 2 or above 50 exits with
    the out-of-range message.  In [ebs_snap_reconstitute] the ValueError
    is caught and becomes an exit with FAILED, the message and Aborting,
    while the two exits pass the handlers unchanged; in each case no
    volume is requested. *)
Theorem io1_refusals_and_their_messages
    (n : Z) (w : W) (build_az snapshot : string) (attrs : dict attr_val)
    (rest : dict (dict attr_val)) (original_ec2 original_device : attr_val) :
  dict_get (SNAP_EC2_ID_TAG cfg) attrs = Some original_ec2 ->
  dict_get (SNAP_DEV_TAG cfg) attrs = Some original_device ->
  dict_get "VolumeSize" attrs = Some (VInt n) ->
  let run := ebs_snap_reconstitute build_az "io1" ((snapshot, attrs) :: rest) w in
  let announced := [EvPrint ("Creating io1 volume from " ++ snapshot ++ "... ")] in
  (n < 4 ->
   out (validate_io1_config (VInt n) w) = Halt (Raise (ValueError (too_small_message n))) /\
   run = {| out := Halt (Exit ("FAILED: " ++ too_small_message n ++ " Aborting... "));
            world := w; log := announced |}) /\
  (4 <= n -> EBS_IOPS cfg <= 0 ->
   out (validate_io1_config (VInt n) w) = Halt (Exit no_ratio_message) /\
   run = {| out := Halt (Exit no_ratio_message); world := w; log := announced |}) /\
  (4 <= n -> 0 < EBS_IOPS cfg -> EBS_IOPS cfg < 3 \/ 50 < EBS_IOPS cfg ->
   out (validate_io1_config (VInt n) w) = Halt (Exit ratio_range_message) /\
   run = {| out := Halt (Exit ratio_range_message); world := w; log := announced |}).
Proof.
  intros Hec2 Hdev Hsize run announced. subst run announced.
  unfold ebs_snap_reconstitute. cbn [reconstitute_loop].
  unfold create_from_snapshot. rewrite String.eqb_refl.
  split; [|split].
  - intros Hn. pose proof (validate_io1_config_too_small n w Hn) as Hrun.
    split; [rewrite Hrun; reflexivity|].
    etransitivity; [run_chain | reflexivity].
  - intros Hn Hratio. pose proof (validate_io1_config_no_ratio n w Hn Hratio) as Hrun.
    split; [rewrite Hrun; reflexivity|].
    etransitivity; [run_chain | reflexivity].
  - intros Hn Hpositive Hratio.
    pose proof (validate_io1_config_ratio_range n w Hn Hpositive Hratio) as Hrun.
    split; [rewrite Hrun; reflexivity|].
    etransitivity; [run_chain | reflexivity].
Qed.

(** ** Cloned user data *)

(** X13. [userdata_clone] looks for the source instance under the tag
    Source Instance Id of the first snapshot, whatever tag the command
    line names for the original instance: without that tag it raises a
    KeyError before it asks anything.  When the provider rejects the
    query for the source's user data, the handler prints its message and
    the function then fails on the unbound [userdata_text], so nothing is
    injected.  When the query is answered and the payload decodes, the
    decoded text is what is set on the recovery instance. *)
Theorem userdata_clone_reads_source_instance_id
    (recovery_ec2_id snapshot : string) (attrs : dict attr_val)
    (rest : dict (dict attr_val)) (w : W) :
  (dict_get "Source Instance Id" attrs = None ->
   userdata_clone recovery_ec2_id ((snapshot, attrs) :: rest) w
   = {| out := Halt (Raise (KeyError "Source Instance Id")); world := w; log := [] |}) /\
  (forall source w1,
      dict_get "Source Instance Id" attrs = Some (VStr source) ->
      client w (DescribeInstanceAttribute "userData" source) = (None, w1) ->
      userdata_clone recovery_ec2_id ((snapshot, attrs) :: rest) w
      = {| out := Halt (Raise (UnboundLocalError "userdata_text"));
           world := w1;
           log := [EvCall (DescribeInstanceAttribute "userData" source) None;
                   EvPrint ("ERROR: Unable to determine source instance-Id from snapshot attributes"
                              ++ nl)] |}) /\
  (forall source encoded text answer w1 w2,
      dict_get "Source Instance Id" attrs = Some (VStr source) ->
      client w (DescribeInstanceAttribute "userData" source)
      = (Some (RUserData encoded), w1) ->
      b64decode encoded = Some text ->
      client w1 (ModifyInstanceUserData recovery_ec2_id text) = (Some answer, w2) ->
      userdata_clone recovery_ec2_id ((snapshot, attrs) :: rest) w
      = {| out := Ret tt;
           world := w2;
           log := [EvCall (DescribeInstanceAttribute "userData" source)
                          (Some (RUserData encoded));
                   EvPrint ((nl ++ "Injecting userData into recovery-instance") ++ nl);
                   EvCall (ModifyInstanceUserData recovery_ec2_id text) (Some answer)] |}).
Proof.
  assert (Hfirst : dict_get snapshot ((snapshot, attrs) :: rest) = Some attrs)
    by (cbn [dict_get]; rewrite String.eqb_refl; reflexivity).
  unfold userdata_clone, userdata_inject. cbn [dict_keys map fst].
  split; [|split].
  - intros Hnone. etransitivity; [run_calls | reflexivity].
  - intros source w1 Hsource Hrejected. etransitivity; [run_calls | reflexivity].
  - intros source encoded text answer w1 w2 Hsource Hanswered Hdecoded Hset.
    etransitivity; [run_calls | reflexivity].
Qed.

(** ** The attachment of the volumes *)

Lemma first_tag_none key tags (w : W) :
  tag_value key tags = None ->
  first_tag key tags w = {| out := Halt (Raise StopIteration); world := w; log := [] |}.
Proof.
  induction tags as [|[k v] tags IH]; cbn [first_tag tag_value]; [reflexivity|].
  destruct (String.eqb k key); [discriminate | exact IH].
Qed.

Lemma attach_loop_last instance ebs_info previous (w : W) r :
  out (attach_loop instance ebs_info previous w) = Ret r ->
  (ebs_info = [] /\ r = previous) \/
  (exists l device volume x,
      r = Some x /\
      log (attach_loop instance ebs_info previous w)
      = (l ++ [EvCall (AttachVolume device instance volume) (Some x)])%list).
Proof.
  revert previous w. induction ebs_info as [|v rest IH]; intros previous w H.
  - left. cbn in H. injection H as <-. auto.
  - right. cbn [attach_loop] in H |- *.
    invert_bind H attach_point Hpoint. rewrite first_tag_log.
    invert_bind H u Hu. invert_bind H u' Hu'.
    invert_bind H answer Hanswer. apply call_ret_inv in Hanswer as [_ Hcall].
    rewrite Hcall.
    destruct (IH _ _ H) as [[-> ->]|(l & device & volume & x & -> & Hlog)].
    + eexists. exists attach_point, (VolumeId v), answer. split; [reflexivity|].
      cbn [attach_loop ret log]. rewrite app_nil_r.
      rewrite !app_assoc. reflexivity.
    + eexists. exists device, volume, x. split; [reflexivity|].
      rewrite Hlog, !app_assoc. reflexivity.
Qed.

(** X14. [ebs_reconstitution_attach] needs at least one volume: on an
    empty list it announces the attachments and then fails on the unbound
    [attachment_output].  A volume without an Original Attachment tag
    stops it with StopIteration before that volume, or any later one, is
    attached.  When it returns, what it returns is the provider's answer
    to the last attachment, which is the last thing it did. *)
Theorem attach_needs_volumes_and_returns_last_answer (instance : string) :
  (forall w,
      ebs_reconstitution_attach instance [] w
      = {| out := Halt (Raise (UnboundLocalError "attachment_output"));
           world := w;
           log := [EvPrint ((nl ++ "Getting ready to attach reconstituted EBS volumes")
                              ++ nl)] |}) /\
  (forall ebs_object rest w,
      tag_value "Original Attachment" (VolumeTags ebs_object) = None ->
      ebs_reconstitution_attach instance (ebs_object :: rest) w
      = {| out := Halt (Raise StopIteration);
           world := w;
           log := [EvPrint ((nl ++ "Getting ready to attach reconstituted EBS volumes")
                              ++ nl)] |}) /\
  (forall ebs_info w answer,
      out (ebs_reconstitution_attach instance ebs_info w) = Ret answer ->
      ebs_info <> [] /\
      exists l device volume,
        log (ebs_reconstitution_attach instance ebs_info w)
        = (l ++ [EvCall (AttachVolume device instance volume) (Some answer)])%list).
Proof.
  split; [|split].
  - intros w. reflexivity.
  - intros ebs_object rest w Hnone. unfold ebs_reconstitution_attach.
    cbn [attach_loop].
    pose proof (first_tag_none "Original Attachment" (VolumeTags ebs_object) w Hnone)
      as Hfirst.
    etransitivity; [run_calls | reflexivity].
  - intros ebs_info w answer H. unfold ebs_reconstitution_attach in H |- *.
    invert_bind H u Hu. invert_bind H output Houtput.
    destruct (attach_loop_last _ _ _ _ _ Houtput)
      as [[-> ->]|(l & device & volume & x & -> & Hlog)]; [discriminate|].
    cbn in H. injection H as ->.
    split; [intros ->; discriminate Houtput|].
    eexists. exists device, volume.
    rewrite Hlog. cbn [ret log]. rewrite app_nil_r, !app_assoc. reflexivity.
Qed.

(** ** Stops before the provider is asked anything *)

(** X15. Two mistakes in the user-data flags end the run before its first
    request and before it prints anything: the clone flag together with a
    user-data file is refused as mutually exclusive, and a user-data
    file that cannot be opened aborts the run at once, not when the
    content would be needed after the launch. *)
Theorem user_data_flags_are_settled_first (fuel : nat) (w : W) :
  (USERDATA_BOOL cfg = true -> truthy (USERDATA_FILE cfg) = true ->
   main fuel w
   = {| out := Halt (Exit "ERROR: `-u` and `-U` are mutually-exclusive options");
        world := w; log := [] |}) /\
  (forall file,
      USERDATA_BOOL cfg = false -> USERDATA_FILE cfg = Some file -> file <> "" ->
      read_file w file = None ->
      main fuel w
      = {| out := Halt (Exit (nl ++ "ABORTING: Failed while opening " ++ file));
           world := w; log := [] |}).
Proof.
  split.
  - intros Hclone Hfile. rewrite main_unfold, Hclone, Hfile. reflexivity.
  - intros file Hclone Hfile Hname Hmissing. rewrite main_unfold, Hclone, Hfile.
    apply String.eqb_neq in Hname.
    cbn [andb truthy]. rewrite Hname. cbn [negb].
    etransitivity.
    + eapply run_bind_ret; [reflexivity|].
      eapply run_bind_halt. eapply run_bind_halt.
      unfold userdata_read_file. rewrite Hmissing. reflexivity.
    + reflexivity.
Qed.

(** ** The zone of last resort *)

(** X16. Given an empty zone, [recovery_ec2_get_az] takes the zone from
    the tag Original AZ of the first snapshot and of no other; it raises
    a KeyError when that snapshot has no such tag, and StopIteration when
    there is no snapshot at all.  It asks the provider nothing. *)
Theorem get_az_falls_back_on_first_snapshot
    (snapshot : string) (attrs : dict attr_val) (rest : dict (dict attr_val)) (w : W) :
  (forall zone,
      dict_get "Original AZ" attrs = Some (VStr zone) ->
      recovery_ec2_get_az "" ((snapshot, attrs) :: rest) w
      = {| out := Ret zone; world := w;
           log := [EvPrint ((nl ++ "Building resources in: " ++ zone ++ nl) ++ nl)] |}) /\
  (dict_get "Original AZ" attrs = None ->
   recovery_ec2_get_az "" ((snapshot, attrs) :: rest) w
   = {| out := Halt (Raise (KeyError "Original AZ")); world := w; log := [] |}) /\
  recovery_ec2_get_az "" [] w
  = {| out := Halt (Raise StopIteration); world := w; log := [] |}.
Proof.
  assert (Hfirst : dict_get snapshot ((snapshot, attrs) :: rest) = Some attrs)
    by (cbn [dict_get]; rewrite String.eqb_refl; reflexivity).
  unfold recovery_ec2_get_az. cbn [String.eqb dict_keys map fst].
  split; [|split].
  - intros zone Hzone. etransitivity; [run_calls | reflexivity].
  - intros Hnone. etransitivity; [run_calls | reflexivity].
  - reflexivity.
Qed.

(** ** The subnet and the key *)

(** X17. [validate_subnet] returns the zone of the first subnet the
    provider reports; a rejected query exits with the message that the
    subnet was not found, and an answer without a subnet raises
    IndexError.  [validate_provision_key] passes when the provider
    answers for the key and exits with a message naming the key when it
    rejects the query.  Each asks exactly once. *)
Theorem subnet_and_key_are_checked_by_one_query (w w1 : W) :
  (forall subnet_id zone zones,
      client w (DescribeSubnets subnet_id) = (Some (RSubnets (zone :: zones)), w1) ->
      validate_subnet subnet_id w
      = {| out := Ret zone; world := w1;
           log := [EvCall (DescribeSubnets subnet_id)
                          (Some (RSubnets (zone :: zones)))] |}) /\
  (forall subnet_id,
      client w (DescribeSubnets subnet_id) = (Some (RSubnets []), w1) ->
      validate_subnet subnet_id w
      = {| out := Halt (Raise IndexError); world := w1;
           log := [EvCall (DescribeSubnets subnet_id) (Some (RSubnets []))] |}) /\
  (forall subnet_id,
      client w (DescribeSubnets subnet_id) = (None, w1) ->
      validate_subnet subnet_id w
      = {| out := Halt (Exit (nl ++ "ERROR: Subnet " ++ subnet_id
                                ++ " not found. Aborting..."));
           world := w1;
           log := [EvCall (DescribeSubnets subnet_id) None] |}) /\
  (forall answer,
      client w (DescribeKeyPairs (PROV_KEY cfg)) = (Some answer, w1) ->
      validate_provision_key w
      = {| out := Ret tt; world := w1;
           log := [EvCall (DescribeKeyPairs (PROV_KEY cfg)) (Some answer)] |}) /\
  (client w (DescribeKeyPairs (PROV_KEY cfg)) = (None, w1) ->
   validate_provision_key w
   = {| out := Halt (Exit ("ERROR: requested provisioning-key [" ++ PROV_KEY cfg
                             ++ "] not found. Aborting..."));
        world := w1;
        log := [EvCall (DescribeKeyPairs (PROV_KEY cfg)) None] |}).
Proof.
  unfold validate_subnet, validate_provision_key.
  split; [|split; [|split; [|split]]]; intros;
    (etransitivity; [run_calls | reflexivity]).
Qed.

(** ** The security groups that are looked up *)

Lemma no_request_requests (l : list event) :
  forallb (allowed no_request) l = true -> requests l = [].
Proof.
  intros Hl. induction l as [|e l IH]; [reflexivity|].
  cbn [forallb] in Hl. apply andb_prop in Hl as [He Hl].
  change (e :: l) with ([e] ++ l)%list. rewrite requests_app, (IH Hl).
  destruct e; [discriminate | reflexivity | reflexivity].
Qed.

(** A property of the outcome and the log of a chain survives a first
    step that always returns and asks only what [P] allows. *)
Lemma run_skip {A B} (G : outcome B -> list event -> Prop)
    (m : M A) (f : A -> M B) (w : W) P R :
  triple m P R nothing ->
  (forall o l l', forallb (allowed P) l = true -> G o l' -> G o (l ++ l')%list) ->
  (forall a w', R a -> G (out (f a w')) (log (f a w'))) ->
  G (out (bind m f w)) (log (bind m f w)).
Proof.
  intros Hm Hpre Hf. destruct (Hm w) as [Hl Ho].
  destruct (bind_cases m f w) as [(a & Ha & -> & ->)|(h & Hh & _ & _)].
  - apply Hpre; [exact Hl|]. apply Hf. rewrite Ha in Ho. exact Ho.
  - rewrite Hh in Ho. destruct Ho.
Qed.

Lemma check_security_group_asks_once (sg : string) (w : W) :
  (out (check_security_group sg w) = Ret tt /\
   requests (log (check_security_group sg w)) = [DescribeSecurityGroups sg]) \/
  (exists h,
      out (check_security_group sg w) = Halt h /\
      (requests (log (check_security_group sg w)) = [] \/
       requests (log (check_security_group sg w)) = [DescribeSecurityGroups sg])).
Proof.
  unfold check_security_group.
  unfold bind, try_except, call.
  pose proof (id_cases "sg-" sg sg_prefix_ascii) as Hcases. cbn in Hcases.
  destruct Hcases as [(E8 & Em & Hwf)|[(E8 & Em & Hlen & Hwf)|[(E8 & E17 & Em & Hwf)
                     |[(E8 & E17 & Em & Hlen & Hwf)|(E8 & E17 & Hlen)]]]];
    rewrite ?E8, ?E17; cbn [ret sys_exit halt_with out world log]; rewrite ?Em;
    try rewrite String.eqb_refl.
  - destruct (client w (DescribeSecurityGroups sg)) as [[x|] w']; cbn; eauto 6.
  - right. cbn. eauto.
  - destruct (client w (DescribeSecurityGroups sg)) as [[x|] w']; cbn; eauto 6.
  - right. cbn. eauto.
  - right. cbn. eauto.
Qed.

Lemma for_each_check_requests (l : list string) (w : W) :
  exists n,
    requests (log (for_each l check_security_group w))
    = map DescribeSecurityGroups (firstn n l) /\
    (out (for_each l check_security_group w) = Ret tt ->
     requests (log (for_each l check_security_group w)) = map DescribeSecurityGroups l).
Proof.
  revert w. induction l as [|sg l IH]; intros w.
  - exists 0%nat. split; reflexivity.
  - cbn [for_each].
    destruct (bind_cases (check_security_group sg)
                (fun _ => for_each l check_security_group) w)
      as [(u & Hu & -> & ->)|(h & Hh & -> & ->)].
    + destruct (check_security_group_asks_once sg w) as [[_ Hone]|(h & Hh & _)];
        [|congruence].
      destruct (IH (world (check_security_group sg w))) as (n & Hn & Hall).
      exists (S n). rewrite requests_app, Hone, Hn. split; [reflexivity|].
      intros Hret. rewrite <- Hn, (Hall Hret). reflexivity.
    + destruct (check_security_group_asks_once sg w) as [[Hret _]|(h' & _ & [Hnone|Hone])];
        [congruence| |].
      * exists 0%nat. rewrite Hnone. split; [reflexivity | discriminate].
      * exists 1%nat. rewrite Hone. split; [reflexivity | discriminate].
Qed.

Lemma removal_notices_ask_nothing (dropped : list string) :
  forallb (allowed no_request) (map removal_notice dropped) = true.
Proof. induction dropped as [|d l IH]; [reflexivity | exact IH]. Qed.

(** X18. [validate_security_group] looks the groups up one by one, in
    the order of the command line, and stops at the first one it
    refuses: its requests are the lookups of an initial stretch of the
    (at most five) groups it keeps, and of all of them, each once, when
    it returns.  A group dropped by the truncation is never looked up. *)
Theorem security_groups_are_looked_up_in_order (flag : string) (w : W) :
  SECURITY_GROUPS cfg = Some flag ->
  exists n,
    requests (log (validate_security_group w))
    = map DescribeSecurityGroups (firstn n (firstn 5 (split_on "," flag))) /\
    (forall kept,
        out (validate_security_group w) = Ret kept ->
        kept = firstn 5 (split_on "," flag) /\
        requests (log (validate_security_group w)) = map DescribeSecurityGroups kept).
Proof.
  intros Hflag. unfold validate_security_group. rewrite Hflag.
  set (G := fun (o : outcome (list string)) (l : list event) =>
              exists n,
                requests l
                = map DescribeSecurityGroups (firstn n (firstn 5 (split_on "," flag))) /\
                (forall kept,
                    o = Ret kept ->
                    kept = firstn 5 (split_on "," flag) /\
                    requests l = map DescribeSecurityGroups kept)).
  assert (Hpre : forall o l l',
             forallb (allowed no_request) l = true -> G o l' -> G o (l ++ l')%list).
  { intros o l l' Hl (n & Hn & Hkept). exists n.
    rewrite requests_app, (no_request_requests l Hl). auto. }
  change (G (out ((print "Validating list of security-groups:" ;;
                   security_group_list <- ret (split_on "," flag) ;;
                   security_group_list <-
                     (if (5 <? List.length security_group_list)%nat
                      then print "List of security-groups too long. Truncating..." ;;
                           trim_security_groups security_group_list
                      else ret security_group_list) ;;
                   for_each security_group_list check_security_group ;;
                   ret security_group_list) w))
            (log ((print "Validating list of security-groups:" ;;
                   security_group_list <- ret (split_on "," flag) ;;
                   security_group_list <-
                     (if (5 <? List.length security_group_list)%nat
                      then print "List of security-groups too long. Truncating..." ;;
                           trim_security_groups security_group_list
                      else ret security_group_list) ;;
                   for_each security_group_list check_security_group ;;
                   ret security_group_list) w))).
  eapply run_skip with (P := no_request) (R := anything);
    [triple_auto | exact Hpre | intros _ w1 _].
  eapply run_skip with (P := no_request) (R := fun l => l = split_on "," flag);
    [apply triple_ret; reflexivity | exact Hpre | intros l w2 ->].
  eapply run_skip with (P := no_request)
                       (R := fun kept => kept = firstn 5 (split_on "," flag));
    [|exact Hpre | intros kept w3 ->].
  { destruct (Nat.ltb_spec 5 (List.length (split_on "," flag))) as [Hlong|Hshort].
    - eapply triple_bind with (R := anything); [triple_auto | intros _ _].
      intros w'. rewrite trim_security_groups_run. cbn [out log].
      split; [apply removal_notices_ask_nothing | reflexivity].
    - apply triple_ret. rewrite firstn_all2 by exact Hshort. reflexivity. }
  destruct (for_each_check_requests (firstn 5 (split_on "," flag)) w3)
    as (n & Hn & Hall).
  destruct (bind_cases (for_each (firstn 5 (split_on "," flag)) check_security_group)
              (fun _ => ret (firstn 5 (split_on "," flag))) w3)
    as [([] & Hret & -> & ->)|(h & Hh & -> & ->)].
  - exists n. cbn [ret out log]. rewrite app_nil_r. split; [exact Hn|].
    intros kept [= <-]. split; [reflexivity | exact (Hall Hret)].
  - exists n. split; [exact Hn | discriminate].
Qed.

(** ** The attribute records *)

Lemma dict_set_keys {V} (k : string) (v : V) (d : dict V) :
  dict_keys (dict_set k v d)
  = if in_dec string_dec k (dict_keys d) then dict_keys d else (dict_keys d ++ [k])%list.
Proof.
  unfold dict_keys. induction d as [|[k' v'] d IH]; cbn [dict_set map fst app].
  - destruct (in_dec string_dec k []) as [[]|_]. reflexivity.
  - destruct (String.eqb_spec k k') as [->|Hne]; cbn [map fst].
    + destruct (in_dec string_dec k' (k' :: map fst d)) as [_|Hout];
        [reflexivity | exfalso; apply Hout; left; reflexivity].
    + rewrite IH.
      destruct (in_dec string_dec k (map fst d)) as [Hin|Hout];
        destruct (in_dec string_dec k (k' :: map fst d)) as [Hin'|Hout'];
        try reflexivity.
      * exfalso. apply Hout'. right. exact Hin.
      * exfalso. destruct Hin' as [Heq|Hin']; [congruence | exact (Hout Hin')].
Qed.

Lemma fold_dict_set_keys {X V} (key : X -> string) (val : X -> V)
    (xs : list X) (acc : dict V) :
  NoDup (dict_keys acc) ->
  NoDup (dict_keys (fold_left (fun d x => dict_set (key x) (val x) d) xs acc)) /\
  (forall k,
      In k (dict_keys (fold_left (fun d x => dict_set (key x) (val x) d) xs acc))
      <-> In k (dict_keys acc) \/ In k (map key xs)).
Proof.
  revert acc. induction xs as [|x xs IH]; intros acc Hacc; cbn [fold_left map].
  - split; [exact Hacc|]. intros k. split; [auto | intros [H|[]]; exact H].
  - assert (Hstep : NoDup (dict_keys (dict_set (key x) (val x) acc)) /\
                    forall k, In k (dict_keys (dict_set (key x) (val x) acc))
                              <-> In k (dict_keys acc) \/ key x = k).
    { rewrite dict_set_keys.
      destruct (in_dec string_dec (key x) (dict_keys acc)) as [Hin|Hout].
      - split; [exact Hacc|]. intros k. split; [auto | intros [H|<-]; assumption].
      - split.
        + apply NoDup_app; [exact Hacc | repeat constructor; intros [] |].
          intros k Hk [<-|[]]. exact (Hout Hk).
        + intros k. rewrite in_app_iff. cbn [In]. split.
          * intros [H|[H|[]]]; auto.
          * intros [H|H]; auto. } 
    destruct Hstep as [Hnodup Hkeys].
    destruct (IH _ Hnodup) as [Hnodup' Hkeys'].
    split; [exact Hnodup'|]. intros k. rewrite Hkeys', Hkeys. cbn [In].
    split; [intros [[H|H]|H] | intros [H|[H|H]]]; auto.
Qed.

(** X19. The attribute record made of a snapshot holds, under each tag
    name, the value of the last tag of that name, and under VolumeSize
    the size of the snapshot, unless the snapshot has a tag named
    VolumeSize, whose value then takes the place of the size. *)
Theorem attribute_record_holds_last_tag_of_each_name
    (snapshot_info : snapshot_info) (key : string) :
  dict_get key (snap_attributes_of snapshot_info)
  = match tag_value key (rev (Tags snapshot_info)) with
    | Some value => Some (VStr value)
    | None => if String.eqb key "VolumeSize"
              then Some (VInt (VolumeSize snapshot_info))
              else None
    end.
Proof.
  unfold snap_attributes_of.
  rewrite (fold_dict_set_get fst (fun tag => VStr (snd tag))), tag_value_find.
  destruct (find (fun tag => String.eqb (fst tag) key) (rev (Tags snapshot_info)));
    reflexivity.
Qed.

(** X20. The dictionary [ebs_snap_tags_to_attribs] builds has one entry
    for each snapshot identifier the provider returned, however often it
    returned it: its keys are the identifiers, without repetition, and
    the record under an identifier is that of the last snapshot
    returned with it.  So a batch never yields more records, or volumes,
    than it has distinct identifiers. *)
Theorem one_record_per_snapshot_identifier (snapshots : list snapshot_info) :
  NoDup (dict_keys (tags_to_attribs snapshots)) /\
  (forall id, In id (dict_keys (tags_to_attribs snapshots))
              <-> In id (map SnapshotId snapshots)) /\
  (forall id,
      dict_get id (tags_to_attribs snapshots)
      = option_map snap_attributes_of
          (find (fun info => String.eqb (SnapshotId info) id) (rev snapshots))) /\
  (List.length (tags_to_attribs snapshots) <= List.length snapshots)%nat.
Proof.
  unfold tags_to_attribs.
  destruct (fold_dict_set_keys SnapshotId snap_attributes_of snapshots []
              (NoDup_nil _)) as [Hnodup Hkeys].
  split; [exact Hnodup|]. split; [|split].
  - intros id. rewrite Hkeys. cbn [dict_keys map In]. split; [intros [[]|H] | auto]; exact H.
  - intros id. rewrite (fold_dict_set_get SnapshotId snap_attributes_of).
    destruct (find (fun info => String.eqb (SnapshotId info) id) (rev snapshots));
      reflexivity.
  - rewrite <- (length_map SnapshotId snapshots).
    rewrite <- (length_map fst
                  (fold_left (fun d x => dict_set (SnapshotId x) (snap_attributes_of x) d)
                             snapshots [])).
    apply NoDup_incl_length; [exact Hnodup|].
    intros id Hin. apply Hkeys in Hin as [[]|Hin]. exact Hin.
Qed.

(** ** What reaches the recovery instance *)

(** X21. The security groups set on the recovery instance are the ones
    that were validated: every request of a run that changes the
    instance's groups carries the first five entries of the command
    line's list (all of them when there are no more than five), in their
    order, in one request. *)
Theorem groups_set_are_the_groups_kept (flag : string) :
  SECURITY_GROUPS cfg = Some flag ->
  forall fuel w groups instance,
    In (ModifyInstanceGroups groups instance) (requests (log (main fuel w))) ->
    groups = firstn 5 (split_on "," flag).
Proof.
  intros Hflag fuel w groups instance Hin.
  enough (Hmain : triple (main fuel) (sets_groups (firstn 5 (split_on "," flag)))
                         anything anyhow).
  { pose proof (proj1 (allowed_requests _ _) (proj1 (Hmain w)) _ Hin) as Hsets.
    unfold sets_groups in Hsets.
    destruct (list_eq_dec string_dec groups (firstn 5 (split_on "," flag)));
      [assumption | discriminate Hsets]. }
  apply main_triple. intros content _.
  apply checked_run_triple.
  { intros []; cbn; intros; first [reflexivity | discriminate]. }
  intros az kept attrs (flag' & Hflag' & ->) _.
  assert (flag' = flag) as -> by congruence.
  apply rebuild_triple; try reflexivity.
  intros instance' vols.
  apply after_launch_asks; try reflexivity.
  intros _. unfold sets_groups.
  destruct (list_eq_dec string_dec (firstn 5 (split_on "," flag))
              (firstn 5 (split_on "," flag))); [reflexivity | congruence].
Qed.

Lemma checked_run_sets_user_data fuel (content : option string) :
  USERDATA_BOOL cfg = false ->
  forall w instance text,
    In (ModifyInstanceUserData instance text)
       (requests (log (checked_run fuel content w))) ->
    content = Some text.
Proof.
  intros Hclone w instance text Hin.
  destruct content as [text0|].
  - enough (Hrun : triple (checked_run fuel (Some text0)) (sets_user_data text0)
                          anything anyhow).
    { pose proof (proj1 (allowed_requests _ _) (proj1 (Hrun w)) _ Hin) as Hsets.
      cbn in Hsets. apply String.eqb_eq in Hsets. congruence. }
    apply checked_run_triple.
    { intros []; cbn; intros; first [reflexivity | discriminate]. }
    intros az groups attrs _ _.
    apply rebuild_triple; try reflexivity.
    intros instance' vols.
    apply after_launch_asks; try reflexivity; try (intros; reflexivity).
    + intros text' [[= <-]|Hclone']; [apply String.eqb_refl | congruence].
  - exfalso.
    enough (Hrun : triple (checked_run fuel None)
                          (fun r => match r with
                                    | ModifyInstanceUserData _ _ => false
                                    | _ => true
                                    end) anything anyhow).
    { pose proof (proj1 (allowed_requests _ _) (proj1 (Hrun w)) _ Hin) as Hsets.
      discriminate Hsets. }
    apply checked_run_triple.
    { intros []; cbn; intros; first [reflexivity | discriminate]. }
    intros az groups attrs _ _.
    apply rebuild_triple; try reflexivity.
    intros instance' vols.
    apply after_launch_asks; try reflexivity; try (intros; reflexivity).
    + intros text' [Hsome|Hclone']; [discriminate | congruence].
Qed.

(** X22. Without the clone flag, the only user data a run ever sets on
    the recovery instance is the content the user-data file had when the
    run began: the file is read once, before the first request, and what
    was read then is what is injected after the launch. *)
Theorem user_data_set_is_the_file_read_at_the_start (fuel : nat) (w : W) :
  USERDATA_BOOL cfg = false ->
  forall instance text,
    In (ModifyInstanceUserData instance text) (requests (log (main fuel w))) ->
    exists file,
      USERDATA_FILE cfg = Some file /\ file <> "" /\ read_file w file = Some text.
Proof.
  intros Hclone instance text. rewrite main_unfold, Hclone. cbn [andb].
  destruct (USERDATA_FILE cfg) as [file|] eqn:Efile.
  - destruct (String.eqb_spec file "") as [->|Hname].
    + cbn [truthy String.eqb negb].
      erewrite run_bind_ret
        by (first [reflexivity | eapply run_bind_ret; [reflexivity | apply result_eta]]).
      cbn [log app]. intros Hin.
      pose proof (checked_run_sets_user_data fuel None Hclone w instance text Hin).
      discriminate.
    + pose proof Hname as Hneq. apply String.eqb_neq in Hname.
      cbn [truthy]. rewrite Hname. cbn [negb].
      destruct (read_file w file) as [text0|] eqn:Eread.
      * erewrite run_bind_ret
          by (first [ reflexivity
                    | eapply run_bind_ret;
                      [ eapply run_bind_ret;
                        [unfold userdata_read_file; rewrite Eread; reflexivity
                        | reflexivity]
                      | apply result_eta ] ]).
        cbn [log app]. intros Hin.
        pose proof (checked_run_sets_user_data fuel (Some text0) Hclone w instance text Hin)
          as Hsame.
        injection Hsame as ->. exists file. auto.
      * erewrite run_bind_ret
          by (first [ reflexivity
                    | eapply run_bind_halt; eapply run_bind_halt;
                      unfold userdata_read_file; rewrite Eread; reflexivity ]).
        cbn [log app requests flat_map]. intros [].
  - erewrite run_bind_ret
      by (first [reflexivity | eapply run_bind_ret; [reflexivity | apply result_eta]]).
    cbn [log app]. intros Hin.
    pose proof (checked_run_sets_user_data fuel None Hclone w instance text Hin).
    discriminate.
Qed.

(** ** The image identifier *)

Lemma validate_ami_id_absent (w : W) :
  AMI_ID cfg = None ->
  validate_ami_id w
  = {| out := Halt (Raise TypeError); world := w;
       log := [EvPrint ("Making sure requesed AMI is valid... " ++ nl)] |}.
Proof. intros Hnone. unfold validate_ami_id, bind. rewrite Hnone. reflexivity. Qed.

(** X23. The image flag is not enforced by the option parser: without
    it [validate_ami_id] fails with a TypeError on the length of the
    absent value, right after its announcement, and the whole run stops
    without a single request to the provider. *)
Theorem absent_image_stops_the_run_unasked :
  AMI_ID cfg = None ->
  (forall w,
      validate_ami_id w
      = {| out := Halt (Raise TypeError); world := w;
           log := [EvPrint ("Making sure requesed AMI is valid... " ++ nl)] |}) /\
  (forall fuel w,
      requests (log (main fuel w)) = [] /\
      exists h, out (main fuel w) = Halt h /\ aborted h).
Proof.
  intros Hnone. split; [intros w; apply validate_ami_id_absent, Hnone|].
  intros fuel.
  enough (Hmain : triple (main fuel) no_request nothing aborted).
  { intros w. destruct (triple_run _ _ _ Hmain w) as [Hl Hh].
    split; [apply no_request_requests, Hl | exact Hh]. }
  rewrite main_unfold.
  eapply triple_bind with (R := anything); [apply prelude_silent | intros _ _].
  eapply triple_bind with (R := anything);
    [apply userdata_content_silent | intros content _].
  unfold checked_run.
  eapply triple_bind with (R := nothing); [|intros ? []].
  intros w. rewrite (validate_ami_id_absent w Hnone). cbn. auto.
Qed.

Lemma append_cancel (s a b : string) : s ++ a = s ++ b -> a = b.
Proof.
  induction s as [|c s IH]; cbn; [auto|]. intros [= H]. auto.
Qed.

(** X24. The last branch of [validate_ami_id], which would report an
    invalid value, is never taken: an identifier of an accepted length
    that the pattern matches is matched as a whole, so whatever the
    identifier and the provider are, the function does not exit with that
    message. *)
Theorem invalid_value_message_is_never_given (ami : string) (w : W) :
  AMI_ID cfg = Some ami ->
  out (validate_ami_id w) <> Halt (Exit (ami_invalid_value ami)).
Proof.
  intros Hami Hexit.
  destruct (validate_ami_id_run ami w Hami)
    as [(_ & E)|[(_ & _ & E)|[(_ & _ & E)|(_ & _ & E)]]];
    rewrite E in Hexit; try discriminate; injection Hexit as Hmsg;
    unfold ami_bad_length, ami_bad_characters, ami_not_found, ami_invalid_value in Hmsg.
  - apply (f_equal String.length) in Hmsg.
    cbn in Hmsg. rewrite !length_append in Hmsg. cbn in Hmsg. lia.
  - apply (f_equal String.length) in Hmsg.
    cbn in Hmsg. rewrite !length_append in Hmsg. cbn in Hmsg. lia.
  - apply append_cancel in Hmsg. discriminate Hmsg.
Qed.

(** ** Chains that agree step by step *)

Lemma bind_ext {A B} (m m' : M A) (f f' : A -> M B) (w : W) :
  m w = m' w ->
  (forall a w', f a w' = f' a w') ->
  bind m f w = bind m' f' w.
Proof.
  intros Hm Hf. unfold bind. rewrite Hm.
  destruct (out (m' w)); [rewrite Hf|]; reflexivity.
Qed.

End Orchestrator.

(** * The script on the simulated provider *)

Local Abbreviation sim_main acct cfg :=
  (main (Sim.client acct) (Sim.read_file acct) Sim.b64decode cfg).

Lemma sim_echoes_tags (acct : Sim.account) :
  forall w az iops snapshot tags kind v,
    fst (Sim.client acct w (CreateVolume az iops snapshot tags kind)) = Some (RVolume v) ->
    VolumeTags v = tags.
Proof. intros w az iops snapshot tags kind v H. cbn in H. injection H as <-. reflexivity. Defined.

(** Proves that the identifiers of a given batch are distinct. *)
Ltac distinct :=
  repeat first
    [ apply NoDup_nil
    | apply NoDup_cons;
      [ cbn; intros Hin; repeat (destruct Hin as [Hin|Hin]; [discriminate Hin|]);
        exact Hin
      | ] ].

(** Finds a given event in a computed log. *)
Ltac find_event := vm_compute; repeat (first [left; reflexivity | right]).

(** The scenario of the specification, with one security group so that
    the run gets through its validators: both volumes are attached where
    their snapshots were, to the instance that was launched. *)
Lemma C1_web01_attached_at_sdf_and_sdg :
  out (sim_main (Sim.web01_account true) (Sim.command_line "gp2" 0 (Some "sg-0123abcd"))
                5 Sim.start) = Ret tt /\
  map (fun a => Some (fst a))
      (attachments (log (sim_main (Sim.web01_account true)
                                  (Sim.command_line "gp2" 0 (Some "sg-0123abcd"))
                                  5 Sim.start)))
  = [Some "/dev/sdf"; Some "/dev/sdg"] /\
  attached_to (log (sim_main (Sim.web01_account true)
                             (Sim.command_line "gp2" 0 (Some "sg-0123abcd"))
                             5 Sim.start))
  = ["i-new"; "i-new"].
Proof.
  assert (Hret : out (sim_main (Sim.web01_account true)
                               (Sim.command_line "gp2" 0 (Some "sg-0123abcd"))
                               5 Sim.start) = Ret tt)
    by (vm_compute; reflexivity).
  assert (Hdistinct : NoDup (map SnapshotId Sim.web01)) by distinct.
  split; [exact Hret|].
  destruct (proj2 (C1_volumes_attach_at_original_devices _
                     (Sim.client (Sim.web01_account true))
                     (Sim.read_file (Sim.web01_account true))
                     Sim.b64decode (Sim.command_line "gp2" 0 (Some "sg-0123abcd"))
                     (sim_echoes_tags (Sim.web01_account true)) Sim.web01
                     (fun w => eq_refl) Hdistinct)
                  5%nat Sim.start Hret)
    as (_ & _ & _ & Hpaths & instance & Hlaunched & Hto).
  split; [rewrite Hpaths; reflexivity|].
  rewrite Hto. vm_compute in Hlaunched. injection Hlaunched as <-. reflexivity.
Defined.

(** A rejected group change on the recovery instance. *)
Lemma C2_rejected_change_on_the_simulation :
  out (recovery_ec2_add_access (Sim.client (Sim.web01_account false))
                               (Sim.command_line "gp2" 0 (Some "sg-0123abcd"))
                               "i-new" ["sg-0123abcd"] Sim.start)
  = Halt (Raise (NameError "security_group")).
Proof.
  rewrite (C2_rejected_group_change_raises_name_error _
             (Sim.client (Sim.web01_account false))
             (Sim.command_line "gp2" 0 (Some "sg-0123abcd"))
             "i-new" ["sg-0123abcd"] Sim.start eq_refl).
  reflexivity.
Defined.

(** The whole run with a provider that rejects the group change: it dies
    in the handler, after the volumes were attached. *)
Example C2_run_dies_in_the_handler :
  out (sim_main (Sim.web01_account false) (Sim.command_line "gp2" 0 (Some "sg-0123abcd"))
                5 Sim.start)
  = Halt (Raise (NameError "security_group")).
Proof. vm_compute. reflexivity. Qed.

(** The gp2 scenario without the security-group flag. *)
Lemma C3_scenario_without_groups :
  out (validate_security_group (Sim.client (Sim.web01_account true))
                               (Sim.command_line "gp2" 0 None) Sim.start)
  = Halt (Raise (AttributeError "split")) /\
  forallb (allowed quiet)
          (log (sim_main (Sim.web01_account true) (Sim.command_line "gp2" 0 None)
                         5 Sim.start)) = true.
Proof.
  destruct (C3_no_security_groups_never_completes _
              (Sim.client (Sim.web01_account true)) (Sim.read_file (Sim.web01_account true))
              Sim.b64decode (Sim.command_line "gp2" 0 None) eq_refl)
    as [Hsplit Hrun].
  split; [exact (Hsplit eq_refl Sim.start) | exact (proj1 (Hrun 5%nat Sim.start))].
Defined.

Example C3_run_dies_in_the_validator :
  out (sim_main (Sim.web01_account true) (Sim.command_line "gp2" 0 None) 5 Sim.start)
  = Halt (Raise (AttributeError "split")).
Proof. vm_compute. reflexivity. Qed.

(** The three computations of the specification, and a run without a
    ratio. *)
Lemma C4_examples :
  out (validate_io1_config (W := Sim.world) (Sim.command_line "io1" 5 None)
                           (VInt 10) Sim.start) = Ret 100 /\
  out (validate_io1_config (W := Sim.world) (Sim.command_line "io1" 50 None)
                           (VInt 2000) Sim.start) = Ret 64000 /\
  out (validate_io1_config (W := Sim.world) (Sim.command_line "io1" 3 None)
                           (VInt 4) Sim.start) = Ret 100 /\
  exists msg,
    out (ebs_snap_reconstitute (Sim.client (Sim.web01_account true))
                               (Sim.command_line "io1" 0 None)
                               "us-east-1a" "io1" [("snap-1", Sim.first_record)]
                               Sim.start)
    = Halt (Exit msg).
Proof.
  split; [|split; [|split]].
  - rewrite (proj1 (C4_io1_iops_is_clamped_product _
                      (Sim.client (Sim.web01_account true))
                      (Sim.command_line "io1" 5 None) 10 Sim.start));
      [reflexivity | cbn; lia | cbn; lia].
  - rewrite (proj1 (C4_io1_iops_is_clamped_product _
                      (Sim.client (Sim.web01_account true))
                      (Sim.command_line "io1" 50 None) 2000 Sim.start));
      [reflexivity | cbn; lia | cbn; lia].
  - rewrite (proj1 (C4_io1_iops_is_clamped_product _
                      (Sim.client (Sim.web01_account true))
                      (Sim.command_line "io1" 3 None) 4 Sim.start));
      [reflexivity | cbn; lia | cbn; lia].
  - destruct (proj2 (C4_io1_iops_is_clamped_product _
                       (Sim.client (Sim.web01_account true))
                       (Sim.command_line "io1" 0 None) 10 Sim.start)
                    (or_intror (or_introl eq_refl))
                    "us-east-1a" "snap-1" Sim.first_record []
                    (VStr "i-aaa") (VStr "/dev/sdf") eq_refl eq_refl eq_refl)
      as (msg & Hrun).
    exists msg. rewrite Hrun. reflexivity.
Defined.

(** The delete-confirmation wait while the deleted volume lingers. *)
Lemma C5_lingering_volume_is_polled_back_to_back :
  forallb awake (log (wait_deleted (Sim.client (Sim.web01_account true)) 3
                                   "vol-root" Sim.lingering)) = true /\
  exists answer rest,
    log (wait_deleted (Sim.client (Sim.web01_account true)) 3 "vol-root" Sim.lingering)
    = EvCall (DescribeVolumes "vol-root") (Some (RVolumes ["deleting"]))
      :: EvPrint (("Waiting for " ++ "vol-root" ++ " to die...") ++ nl)
      :: EvCall (DescribeVolumes "vol-root") answer
      :: rest.
Proof.
  exact (C5_delete_wait_polls_without_delay _
           (Sim.client (Sim.web01_account true)) 1 "vol-root" Sim.lingering
           (RVolumes ["deleting"]) eq_refl).
Defined.

(** The same wait, event by event; and the wait for the detached volume,
    which does sleep between its polls. *)
Example C5_delete_wait_log :
  log (wait_deleted (Sim.client (Sim.web01_account true)) 3 "vol-root" Sim.lingering)
  = [EvCall (DescribeVolumes "vol-root") (Some (RVolumes ["deleting"]));
     EvPrint ("Waiting for vol-root to die..." ++ nl);
     EvCall (DescribeVolumes "vol-root") (Some (RVolumes ["deleting"]));
     EvPrint ("Waiting for vol-root to die..." ++ nl);
     EvCall (DescribeVolumes "vol-root") None;
     EvPrint ("Successfully deleted vol-root" ++ nl)].
Proof. vm_compute. reflexivity. Qed.

Example C5_detach_wait_log :
  log (wait_available (Sim.client (Sim.web01_account true)) 3 "vol-root"
                      (Sim.with_root Sim.start (Sim.InUse 2)))
  = [EvCall (DescribeVolumes "vol-root") (Some (RVolumes ["in-use"]));
     EvCall (DescribeVolumes "vol-root") (Some (RVolumes ["in-use"]));
     EvPrint ("Volume vol-root is still in-use..." ++ nl);
     EvSleep 10;
     EvCall (DescribeVolumes "vol-root") (Some (RVolumes ["available"]))].
Proof. vm_compute. reflexivity. Qed.

Lemma well_formed_example_image : well_formed_id "ami-" "ami-0123abcd".
Proof.
  exists "0123abcd". split; [reflexivity|]. split; [left; reflexivity|].
  unfold all_lower_hex. cbn [list_ascii_of_string].
  repeat (constructor; [apply is_lower_hex_spec; reflexivity|]). constructor.
Defined.

(** A well-formed image identifier the account knows, and one of a
    wrong length. *)
Lemma well_formed_example_group : well_formed_id "sg-" "sg-0123abcd".
Proof.
  exists "0123abcd". split; [reflexivity|]. split; [left; reflexivity|].
  unfold all_lower_hex. cbn [list_ascii_of_string].
  repeat (constructor; [apply is_lower_hex_spec; reflexivity|]). constructor.
Defined.

Lemma C6_known_image_passes_short_one_fails :
  out (validate_ami_id (Sim.client (Sim.web01_account true))
                       (Sim.command_line "gp2" 0 None) Sim.start) = Ret tt /\
  out (check_security_group (Sim.client (Sim.web01_account true)) "sg-12" Sim.start)
  = Halt (Exit (sg_bad_length "sg-12")) /\
  out (validate_security_group (Sim.client (Sim.web01_account true))
         (Sim.command_line "gp2" 0 (Some "sg-0123abcd,sg-12")) Sim.start)
  = Halt (Exit (sg_bad_length "sg-12")) /\
  out (validate_security_group (Sim.client (Sim.web01_account true))
         (Sim.command_line "gp2" 0 (Some "sg-0123abcd")) Sim.start)
  = Ret ["sg-0123abcd"].
Proof.
  destruct (C6_identifier_accepted_iff_well_formed_and_known
              _ (Sim.client (Sim.web01_account true)) (Sim.command_line "gp2" 0 None))
    as (Hami & Hsg & _).
  destruct (C6_identifier_accepted_iff_well_formed_and_known
              _ (Sim.client (Sim.web01_account true))
              (Sim.command_line "gp2" 0 (Some "sg-0123abcd,sg-12")))
    as (_ & _ & Hbad & _).
  destruct (C6_identifier_accepted_iff_well_formed_and_known
              _ (Sim.client (Sim.web01_account true))
              (Sim.command_line "gp2" 0 (Some "sg-0123abcd")))
    as (_ & _ & Hgood & _).
  assert (Hknown : all_confirmed (Sim.client (Sim.web01_account true)) Sim.start
                                 ["sg-0123abcd"])
    by (split; [discriminate | exact I]).
  split; [|split; [|split]].
  - apply (proj1 (Hami "ami-0123abcd" Sim.start eq_refl)).
    split; [exact well_formed_example_image | discriminate].
  - apply (proj1 (proj2 (Hsg "sg-12" Sim.start))).
    unfold right_length. cbn. intros [H|H]; discriminate.
  - apply (proj1 (proj2 (Hbad "sg-0123abcd,sg-12" Sim.start eq_refl)
                        ["sg-0123abcd"] "sg-12" [] eq_refl
                        (Forall_cons _ well_formed_example_group (Forall_nil _))
                        Hknown)).
    unfold right_length. cbn. intros [H|H]; discriminate.
  - apply (proj1 (Hgood "sg-0123abcd" Sim.start eq_refl) ["sg-0123abcd"]).
    split; [reflexivity|].
    split; [exact (Forall_cons _ well_formed_example_group (Forall_nil _)) | exact Hknown].
Defined.

(** An identifier of the right number of characters, one of them
    outside ASCII: the characters are at fault, not the length. *)
Example C6_accented_identifier :
  out (validate_ami_id (Sim.client (Sim.web01_account true))
         {| AMI_ID := Some "ami-0123abcé"; EBS_TYPE := "gp2"; EBS_IOPS := 0;
            EC2_LABEL := "recovery"; EC2_SUBNET := "subnet-1"; EC2_TYPE := "t3.large";
            POWER_ON := false; PROV_KEY := "ops"; ROOT_SNAP := None;
            SECURITY_GROUPS := None;
            SNAP_SEARCH_TAG := "Snapshot Group"; SNAP_SEARCH_VAL := "web-01";
            SNAP_EC2_ID_TAG := "Original Instance";
            SNAP_DEV_TAG := "Original Attachment";
            USERDATA_BOOL := false; USERDATA_FILE := None |} Sim.start)
  = Halt (Exit (ami_bad_characters "ami-0123abcé")).
Proof. vm_compute. reflexivity. Qed.

(** Seven groups in, the first five out. *)
Lemma C7_seven_groups_cut_to_five :
  out (validate_security_group (Sim.client (Sim.web01_account true))
                               (Sim.command_line "gp2" 0 (Some Sim.seven_groups))
                               Sim.start)
  = Ret ["sg-00000001"; "sg-00000002"; "sg-00000003"; "sg-00000004"; "sg-00000005"] /\
  ["sg-00000001"; "sg-00000002"; "sg-00000003"; "sg-00000004"; "sg-00000005"]
  = firstn 5 (split_on "," Sim.seven_groups).
Proof.
  assert (Hret : out (validate_security_group
                        (Sim.client (Sim.web01_account true))
                        (Sim.command_line "gp2" 0 (Some Sim.seven_groups)) Sim.start)
                 = Ret ["sg-00000001"; "sg-00000002"; "sg-00000003";
                        "sg-00000004"; "sg-00000005"])
    by (vm_compute; reflexivity).
  split; [exact Hret|].
  apply (proj2 (C7_security_groups_truncated_to_first_five
                  _ (Sim.client (Sim.web01_account true))
                  (Sim.command_line "gp2" 0 (Some Sim.seven_groups)))
               Sim.seven_groups Sim.start _ eq_refl).
  - vm_compute. lia.
  - exact Hret.
Defined.

(** An account without snapshots. *)
Lemma C8_bare_account_stops_the_run :
  out (ebs_get_snap_info (Sim.client Sim.bare_account)
                         (Sim.command_line "gp2" 0 (Some "sg-0123abcd"))
                         "web-01" Sim.start)
  = Halt (Exit "Found no matching snapshots to reconstitute: aborting") /\
  forallb (allowed quiet)
          (log (sim_main Sim.bare_account
                         (Sim.command_line "gp2" 0 (Some "sg-0123abcd"))
                         5 Sim.start)) = true.
Proof.
  destruct (C8_empty_inventory_stops_the_run
              _ (Sim.client Sim.bare_account) (Sim.read_file Sim.bare_account)
              Sim.b64decode (Sim.command_line "gp2" 0 (Some "sg-0123abcd"))
              (fun w => eq_refl))
    as [Hinfo Hrun].
  split; [exact (proj1 (Hinfo Sim.start)) | exact (proj1 (Hrun 5%nat Sim.start))].
Defined.

Example C8_bare_account_run :
  out (sim_main Sim.bare_account (Sim.command_line "gp2" 0 (Some "sg-0123abcd"))
                5 Sim.start)
  = Halt (Exit "Found no matching snapshots to reconstitute: aborting").
Proof. vm_compute. reflexivity. Qed.

(** The scenario with the kind io2: nothing is provisioned and the run
    exits with the unsupported-kind message; over the batch whose first
    snapshot has lost its device tag the run dies of a KeyError. *)
Lemma C9_io2_is_refused :
  forallb (allowed quiet)
          (log (sim_main (Sim.web01_account true)
                         (Sim.command_line "io2" 0 (Some "sg-0123abcd"))
                         5 Sim.start)) = true /\
  out (sim_main (Sim.web01_account true)
                (Sim.command_line "io2" 0 (Some "sg-0123abcd")) 5 Sim.start)
  = Halt (Exit (unsupported_message "io2")) /\
  out (sim_main (Sim.account_with Sim.stripped true)
                (Sim.command_line "io2" 0 (Some "sg-0123abcd")) 5 Sim.start)
  = Halt (Raise (KeyError "Original Attachment")).
Proof.
  assert (H1 : EBS_TYPE (Sim.command_line "io2" 0 (Some "sg-0123abcd")) <> "io1")
    by discriminate.
  assert (H2 : EBS_TYPE (Sim.command_line "io2" 0 (Some "sg-0123abcd")) <> "gp2")
    by discriminate.
  destruct (C9_unsupported_kind_aborts_before_provisioning
              _ (Sim.client (Sim.web01_account true))
              (Sim.read_file (Sim.web01_account true)) Sim.b64decode
              (Sim.command_line "io2" 0 (Some "sg-0123abcd")) H1 H2)
    as [Hquiet Htagged].
  destruct (C9_unsupported_kind_aborts_before_provisioning
              _ (Sim.client (Sim.account_with Sim.stripped true))
              (Sim.read_file (Sim.account_with Sim.stripped true)) Sim.b64decode
              (Sim.command_line "io2" 0 (Some "sg-0123abcd")) H1 H2)
    as [_ Hstripped].
  assert (Hzone : forall acct (w : Sim.world) zones,
             fst (Sim.client acct w (DescribeSubnets "subnet-1")) = Some (RSubnets zones) ->
             hd_error zones = Some "us-east-1a")
    by (intros acct w zones H; cbn in H; injection H as <-; reflexivity).
  pose (blank := {| SnapshotId := ""; VolumeSize := 0; Tags := [] |}).
  split; [exact (proj1 (Hquiet 5%nat Sim.start))|]. split.
  - refine (proj1 (Htagged "us-east-1a" (hd blank Sim.web01) (tl Sim.web01)
                           (Hzone _) _ 5%nat Sim.start _)
                  eq_refl eq_refl eq_refl).
    + cbn. distinct.
    + find_event.
  - refine (proj1 (proj2 (proj2 (Hstripped "us-east-1a" (hd blank Sim.stripped)
                                           (tl Sim.stripped)
                                           (Hzone _) _ 5%nat Sim.start _)))
                  eq_refl eq_refl eq_refl).
    + cbn. distinct.
    + find_event.
Defined.

(** The claim as the specification words it, at a batch of two snapshots
    whose first one lacks the device tag: the run of kind io2 does not
    end with a message, it dies of an uncaught KeyError. *)
Lemma C9_missing_tag_ends_without_message :
  Sim.stripped <> [] /\
  out (sim_main (Sim.account_with Sim.stripped true)
                (Sim.command_line "io2" 0 (Some "sg-0123abcd")) 5 Sim.start)
  = Halt (Raise (KeyError "Original Attachment")) /\
  forall message,
    out (sim_main (Sim.account_with Sim.stripped true)
                  (Sim.command_line "io2" 0 (Some "sg-0123abcd")) 5 Sim.start)
    <> Halt (Exit message).
Proof.
  split; [discriminate|].
  assert (Hout : out (sim_main (Sim.account_with Sim.stripped true)
                               (Sim.command_line "io2" 0 (Some "sg-0123abcd"))
                               5 Sim.start)
                 = Halt (Raise (KeyError "Original Attachment")))
    by (vm_compute; reflexivity).
  split; [exact Hout|]. intros message. rewrite Hout. discriminate.
Qed.

Example C9_io2_run :
  out (sim_main (Sim.web01_account true)
                (Sim.command_line "io2" 0 (Some "sg-0123abcd")) 5 Sim.start)
  = Halt (Exit (unsupported_message "io2")).
Proof. vm_compute. reflexivity. Qed.

(** The simulated subnet lies in us-east-1a, and so does everything the
    run provisions. *)
Lemma C10_everything_in_the_subnet_zone :
  forallb (allowed (in_zone "us-east-1a"))
          (log (sim_main (Sim.web01_account true)
                         (Sim.command_line "gp2" 0 (Some "sg-0123abcd"))
                         5 Sim.start)) = true.
Proof.
  apply (proj2 (C10_build_zone_is_the_subnet_zone
                  _ (Sim.client (Sim.web01_account true))
                  (Sim.read_file (Sim.web01_account true)) Sim.b64decode
                  (Sim.command_line "gp2" 0 (Some "sg-0123abcd")))
               "us-east-1a").
  - discriminate.
  - intros w zones H. cbn in H. injection H as <-. reflexivity.
Defined.

(** The fallback of [recovery_ec2_get_az] exists all the same: it is what
    an empty zone selects. *)
Example C10_fallback_reads_the_first_snapshot :
  out (recovery_ec2_get_az (W := Sim.world) ""
         [("snap-1", [("Original AZ", VStr "us-west-2b")])] Sim.start)
  = Ret "us-west-2b".
Proof. vm_compute. reflexivity. Qed.

(** * An option without effect *)

Lemma add_access_ignores_root_snap (W : Type)
    (client : W -> request -> option response * W) (cfg : config)
    (root_snap : option string) (ec2_id : string) (groups : list string) (w : W) :
  recovery_ec2_add_access client (with_root_snap cfg root_snap) ec2_id groups w
  = recovery_ec2_add_access client cfg ec2_id groups w.
Proof.
  unfold recovery_ec2_add_access, load_name. cbn [dict_get].
  rewrite !security_group_unbound. reflexivity.
Qed.

(** X25. The root-snapshot flag is accepted and then ignored: whatever
    value it is given, or none, the run is the same, request for request
    and message for message. *)
Theorem root_snapshot_flag_changes_nothing (W : Type)
    (client : W -> request -> option response * W)
    (read_file : W -> string -> option string)
    (b64decode : string -> option string)
    (cfg : config) (root_snap : option string) (fuel : nat) (w : W) :
  main client read_file b64decode (with_root_snap cfg root_snap) fuel w
  = main client read_file b64decode cfg fuel w.
Proof.
  unfold main.
  repeat (apply bind_ext; [reflexivity | intros ? ?]).
  apply bind_ext.
  - cbn [with_root_snap SECURITY_GROUPS].
    destruct (truthy (SECURITY_GROUPS cfg));
      [apply add_access_ignores_root_snap | reflexivity].
  - intros ? ?. reflexivity.
Qed.


(** * The further properties on the simulated provider *)

(** A running instance without a status entry. *)
Lemma booting_instance_is_reported_as_transitioning :
  out (recovery_ec2_check_state (Sim.client (Sim.web01_account true)) "i-new" Sim.booting)
  = Ret "TRANSITIONING".
Proof.
  rewrite (check_state_reports_state_or_health _ (Sim.client (Sim.web01_account true))
             "i-new" Sim.booting _ _ [] _ [] [] eq_refl eq_refl).
  reflexivity.
Defined.

(** A provider that rejects the status query. *)
Lemma refused_status_query_becomes_a_value_error :
  out (recovery_ec2_check_state Sim.refusing "i-new" Sim.start)
  = Halt (Raise (ValueError "ERROR: Failed fetching status from i-new")).
Proof.
  rewrite (proj1 (check_state_turns_rejections_into_value_errors
                    _ Sim.refusing "i-new" Sim.start) Sim.start eq_refl).
  reflexivity.
Defined.

(** The wait for the instance that has just been launched. *)
Lemma wait_for_booting_instance_ends_on_ok :
  out (recovery_ec2_monitor_transition (Sim.client (Sim.web01_account true))
         5 "i-new" "online" "ok" Sim.booting) = Ret tt /\
  exists l,
    log (recovery_ec2_monitor_transition (Sim.client (Sim.web01_account true))
           5 "i-new" "online" "ok" Sim.booting)
    = (l ++ [EvPrint ("ok" ++ nl)])%list.
Proof.
  assert (Hret : out (recovery_ec2_monitor_transition
                        (Sim.client (Sim.web01_account true))
                        5 "i-new" "online" "ok" Sim.booting) = Ret tt)
    by (vm_compute; reflexivity).
  split; [exact Hret|].
  exact (proj1 (monitor_transition_breaks_only_at_target
                  _ (Sim.client (Sim.web01_account true))
                  5 "i-new" "online" "ok" Sim.booting) Hret).
Defined.

(** Four rounds against a provider that rejects everything. *)
Lemma four_rounds_of_rejection_use_four_rounds :
  out (recovery_ec2_monitor_transition Sim.refusing 4 "i-new" "online" "ok" Sim.start)
  = Halt OutOfFuel /\
  sleeps (log (recovery_ec2_monitor_transition Sim.refusing 4 "i-new" "online" "ok"
                 Sim.start))
  = [10; 10; 10; 10].
Proof.
  destruct (monitor_transition_retries_without_limit
              _ Sim.refusing "i-new" "online" "ok" (fun w => eq_refl) 4%nat Sim.start)
    as (Hout & _ & Hsleeps).
  split; [exact Hout | exact Hsleeps].
Defined.

(** The wait for a volume that is in use for two more polls. *)
Lemma detach_wait_on_the_simulation :
  exists k l others,
    log (wait_available (Sim.client (Sim.web01_account true)) 3 "vol-root"
           (Sim.with_root Sim.start (Sim.InUse 2)))
    = (l ++ [EvCall (DescribeVolumes "vol-root")
                    (Some (RVolumes ("available" :: others)))])%list /\
    rhythm is_volume_poll
           (log (wait_available (Sim.client (Sim.web01_account true)) 3 "vol-root"
                   (Sim.with_root Sim.start (Sim.InUse 2))))
    = (List.concat (repeat [true; true; false] k) ++ [true])%list /\
    sleeps (log (wait_available (Sim.client (Sim.web01_account true)) 3 "vol-root"
                   (Sim.with_root Sim.start (Sim.InUse 2))))
    = repeat 10 k.
Proof.
  apply (detach_wait_asks_twice_then_sleeps _ (Sim.client (Sim.web01_account true))).
  vm_compute. reflexivity.
Defined.

(** The removal of the boot volume of the simulated instance. *)
Lemma boot_volume_of_the_simulation_is_removed :
  exists desc instances reservations target_ebs mappings k m,
    fst (Sim.client (Sim.web01_account true) Sim.start (DescribeInstances "i-new"))
    = Some (RReservations ((desc :: instances) :: reservations)) /\
    BlockDeviceMappings desc = target_ebs :: mappings /\
    requests (log (nuke_root_ebs (Sim.client (Sim.web01_account true)) 5 "i-new"
                                 Sim.start))
    = ([DescribeInstances "i-new"; DetachVolume "i-new" target_ebs]
       ++ List.concat (repeat [DescribeVolumes target_ebs; DescribeVolumes target_ebs] k)
       ++ [DescribeVolumes target_ebs; DeleteVolume target_ebs]
       ++ repeat (DescribeVolumes target_ebs) (S m))%list.
Proof.
  apply (nuke_root_ebs_removes_first_block_device
           _ (Sim.client (Sim.web01_account true))).
  vm_compute. reflexivity.
Defined.

(** The scenario with one security group and no other option: the group
    change is requested, and it is enabled. *)
Lemma group_change_of_the_scenario_is_enabled :
  In (ModifyInstanceGroups ["sg-0123abcd"] "i-new")
     (requests (log (sim_main (Sim.web01_account true)
                              (Sim.command_line "gp2" 0 (Some "sg-0123abcd"))
                              5 Sim.start))) /\
  enabled (Sim.command_line "gp2" 0 (Some "sg-0123abcd"))
          (ModifyInstanceGroups ["sg-0123abcd"] "i-new") = true.
Proof.
  assert (Hin : In (ModifyInstanceGroups ["sg-0123abcd"] "i-new")
                   (requests (log (sim_main (Sim.web01_account true)
                                            (Sim.command_line "gp2" 0 (Some "sg-0123abcd"))
                                            5 Sim.start))))
    by find_event.
  split; [exact Hin|].
  exact (flags_gate_the_optional_requests
           _ (Sim.client (Sim.web01_account true))
           (Sim.read_file (Sim.web01_account true)) Sim.b64decode
           (Sim.command_line "gp2" 0 (Some "sg-0123abcd")) 5%nat Sim.start _ Hin).
Defined.

(** The simulated provider launches i-new, and that is the instance the
    run stops. *)
Lemma the_scenario_stops_the_instance_it_launched :
  In (StopInstances "i-new")
     (requests (log (sim_main (Sim.web01_account true)
                              (Sim.command_line "gp2" 0 (Some "sg-0123abcd"))
                              5 Sim.start))) /\
  about_instance "i-new" (StopInstances "i-new") = true.
Proof.
  assert (Hin : In (StopInstances "i-new")
                   (requests (log (sim_main (Sim.web01_account true)
                                            (Sim.command_line "gp2" 0 (Some "sg-0123abcd"))
                                            5 Sim.start))))
    by find_event.
  assert (Hlaunch : forall (w : Sim.world) image kind key subnet az label ids,
             fst (Sim.client (Sim.web01_account true) w
                             (RunInstances image kind key subnet az label))
             = Some (RInstances ids) ->
             hd_error ids = Some "i-new")
    by (intros w image kind key subnet az label ids H; cbn in H;
        injection H as <-; reflexivity).
  split; [exact Hin|].
  apply (only_the_launched_instance_is_touched
           _ (Sim.client (Sim.web01_account true))
           (Sim.read_file (Sim.web01_account true)) Sim.b64decode
           (Sim.command_line "gp2" 0 (Some "sg-0123abcd")) "i-new" Hlaunch
           5%nat Sim.start _ Hin).
Defined.

(** An io1 volume for the first snapshot of web-01, at five IOPS per
    GiB. *)
Lemma io1_request_of_the_scenario_is_well_made :
  In (CreateVolume "us-east-1a" (Some 100) "snap-1"
                   [("Original Instance", "i-aaa"); ("Original Attachment", "/dev/sdf")]
                   "io1")
     (requests (log (ebs_snap_reconstitute (Sim.client (Sim.web01_account true))
                       (Sim.command_line "io1" 5 None) "us-east-1a" "io1"
                       [("snap-1", Sim.first_record)] Sim.start))) /\
  well_made "us-east-1a" "io1"
            (CreateVolume "us-east-1a" (Some 100) "snap-1"
                          [("Original Instance", "i-aaa");
                           ("Original Attachment", "/dev/sdf")] "io1") = true.
Proof.
  assert (Hin : In (CreateVolume "us-east-1a" (Some 100) "snap-1"
                      [("Original Instance", "i-aaa");
                       ("Original Attachment", "/dev/sdf")] "io1")
                   (requests (log (ebs_snap_reconstitute
                                     (Sim.client (Sim.web01_account true))
                                     (Sim.command_line "io1" 5 None) "us-east-1a" "io1"
                                     [("snap-1", Sim.first_record)] Sim.start))))
    by find_event.
  split; [exact Hin|].
  exact (reconstitute_requests_are_well_made
           _ (Sim.client (Sim.web01_account true)) (Sim.command_line "io1" 5 None)
           "us-east-1a" "io1" [("snap-1", Sim.first_record)] Sim.start _ Hin).
Defined.

(** A snapshot of size 3, and one of size 10 without a ratio and with a
    ratio of 2. *)
Lemma io1_refusals_on_the_simulation :
  out (ebs_snap_reconstitute (Sim.client (Sim.web01_account true))
         (Sim.command_line "io1" 5 None) "us-east-1a" "io1"
         [("snap-1", Sim.small_record)] Sim.start)
  = Halt (Exit "FAILED: Requested volume-size [3] is less than minimum allowed [4]. Aborting... ") /\
  out (ebs_snap_reconstitute (Sim.client (Sim.web01_account true))
         (Sim.command_line "io1" 0 None) "us-east-1a" "io1"
         [("snap-1", Sim.first_record)] Sim.start)
  = Halt (Exit "Specified EBS-type io1 but failed to specify an IOPs-ratio. Aborting...") /\
  out (ebs_snap_reconstitute (Sim.client (Sim.web01_account true))
         (Sim.command_line "io1" 2 None) "us-east-1a" "io1"
         [("snap-1", Sim.first_record)] Sim.start)
  = Halt (Exit "Value out of range: must be 3-50").
Proof.
  split; [|split].
  - rewrite (proj2 (proj1 (io1_refusals_and_their_messages
                             _ (Sim.client (Sim.web01_account true))
                             (Sim.command_line "io1" 5 None) 3 Sim.start
                             "us-east-1a" "snap-1" Sim.small_record []
                             (VStr "i-aaa") (VStr "/dev/sdf") eq_refl eq_refl eq_refl)
                          eq_refl)).
    reflexivity.
  - rewrite (proj2 (proj1 (proj2 (io1_refusals_and_their_messages
                                    _ (Sim.client (Sim.web01_account true))
                                    (Sim.command_line "io1" 0 None) 10 Sim.start
                                    "us-east-1a" "snap-1" Sim.first_record []
                                    (VStr "i-aaa") (VStr "/dev/sdf")
                                    eq_refl eq_refl eq_refl))
                          ltac:(lia) ltac:(cbn; lia))).
    reflexivity.
  - rewrite (proj2 (proj2 (proj2 (io1_refusals_and_their_messages
                                    _ (Sim.client (Sim.web01_account true))
                                    (Sim.command_line "io1" 2 None) 10 Sim.start
                                    "us-east-1a" "snap-1" Sim.first_record []
                                    (VStr "i-aaa") (VStr "/dev/sdf")
                                    eq_refl eq_refl eq_refl))
                          ltac:(lia) ltac:(cbn; lia) ltac:(left; cbn; lia))).
    reflexivity.
Defined.

(** Cloning from a snapshot that names its source, and from one of
    web-01, which does not. *)
Lemma cloning_on_the_simulation :
  out (userdata_clone (Sim.client (Sim.web01_account true)) Sim.b64decode "i-new"
         [("snap-1", Sim.sourced_record)] Sim.start) = Ret tt /\
  out (userdata_clone (Sim.client (Sim.web01_account true)) Sim.b64decode "i-new"
         [("snap-1", Sim.first_record)] Sim.start)
  = Halt (Raise (KeyError "Source Instance Id")) /\
  out (userdata_clone Sim.refusing Sim.b64decode "i-new"
         [("snap-1", Sim.sourced_record)] Sim.start)
  = Halt (Raise (UnboundLocalError "userdata_text")).
Proof.
  split; [|split].
  - rewrite (proj2 (proj2 (userdata_clone_reads_source_instance_id
                             _ (Sim.client (Sim.web01_account true)) Sim.b64decode
                             "i-new" "snap-1" Sim.sourced_record [] Sim.start))
               "i-aaa" "IyEvYmluL3No" "IyEvYmluL3No" RUnit Sim.start Sim.start
               eq_refl eq_refl eq_refl eq_refl).
    reflexivity.
  - rewrite (proj1 (userdata_clone_reads_source_instance_id
                      _ (Sim.client (Sim.web01_account true)) Sim.b64decode
                      "i-new" "snap-1" Sim.first_record [] Sim.start) eq_refl).
    reflexivity.
  - rewrite (proj1 (proj2 (userdata_clone_reads_source_instance_id
                             _ Sim.refusing Sim.b64decode
                             "i-new" "snap-1" Sim.sourced_record [] Sim.start))
               "i-aaa" Sim.start eq_refl eq_refl).
    reflexivity.
Defined.

(** One tagged volume, one untagged volume, no volume. *)
Lemma attachments_on_the_simulation :
  (exists l device volume,
      log (ebs_reconstitution_attach (Sim.client (Sim.web01_account true)) "i-new"
             [Sim.tagged_volume] Sim.start)
      = (l ++ [EvCall (AttachVolume device "i-new" volume) (Some RUnit)])%list) /\
  out (ebs_reconstitution_attach (Sim.client (Sim.web01_account true)) "i-new"
         [Sim.untagged_volume; Sim.tagged_volume] Sim.start)
  = Halt (Raise StopIteration) /\
  out (ebs_reconstitution_attach (Sim.client (Sim.web01_account true)) "i-new"
         [] Sim.start)
  = Halt (Raise (UnboundLocalError "attachment_output")).
Proof.
  destruct (attach_needs_volumes_and_returns_last_answer
              _ (Sim.client (Sim.web01_account true)) "i-new")
    as (Hnone & Huntagged & Hlast).
  split; [|split].
  - apply (Hlast [Sim.tagged_volume] Sim.start RUnit). vm_compute. reflexivity.
  - rewrite (Huntagged Sim.untagged_volume [Sim.tagged_volume] Sim.start eq_refl).
    reflexivity.
  - rewrite (Hnone Sim.start). reflexivity.
Defined.

(** Both user-data flags, and a user-data file that is not there. *)
Lemma user_data_flags_on_the_simulation :
  sim_main (Sim.scripted_account)
           (Sim.with_user_data (Sim.command_line "gp2" 0 (Some "sg-0123abcd"))
                               true (Some "boot.sh"))
           5 Sim.start
  = {| out := Halt (Exit "ERROR: `-u` and `-U` are mutually-exclusive options");
       world := Sim.start; log := [] |} /\
  sim_main (Sim.scripted_account)
           (Sim.with_user_data (Sim.command_line "gp2" 0 (Some "sg-0123abcd"))
                               false (Some "missing.sh"))
           5 Sim.start
  = {| out := Halt (Exit (nl ++ "ABORTING: Failed while opening missing.sh"));
       world := Sim.start; log := [] |}.
Proof.
  split.
  - exact (proj1 (user_data_flags_are_settled_first
                    _ (Sim.client Sim.scripted_account)
                    (Sim.read_file Sim.scripted_account) Sim.b64decode
                    (Sim.with_user_data (Sim.command_line "gp2" 0 (Some "sg-0123abcd"))
                                        true (Some "boot.sh"))
                    5%nat Sim.start) eq_refl eq_refl).
  - exact (proj2 (user_data_flags_are_settled_first
                    _ (Sim.client Sim.scripted_account)
                    (Sim.read_file Sim.scripted_account) Sim.b64decode
                    (Sim.with_user_data (Sim.command_line "gp2" 0 (Some "sg-0123abcd"))
                                        false (Some "missing.sh"))
                    5%nat Sim.start)
                 "missing.sh" eq_refl eq_refl ltac:(discriminate) eq_refl).
Defined.

(** The fallback zone of a snapshot taken in us-west-2b, and of one
    that does not say where it was taken. *)
Lemma fallback_zone_on_examples :
  out (recovery_ec2_get_az (W := Sim.world) ""
         [("snap-1", [("Original AZ", VStr "us-west-2b")])] Sim.start)
  = Ret "us-west-2b" /\
  out (recovery_ec2_get_az (W := Sim.world) "" [("snap-1", Sim.first_record)] Sim.start)
  = Halt (Raise (KeyError "Original AZ")).
Proof.
  destruct (get_az_falls_back_on_first_snapshot
              Sim.world "snap-1" [("Original AZ", VStr "us-west-2b")] [] Sim.start)
    as (Hzone & _ & _).
  destruct (get_az_falls_back_on_first_snapshot
              Sim.world "snap-1" Sim.first_record [] Sim.start)
    as (_ & Hmissing & _).
  split.
  - exact (f_equal (@out _ _) (Hzone "us-west-2b" eq_refl)).
  - exact (f_equal (@out _ _) (Hmissing eq_refl)).
Defined.

(** The subnet and the key of the scenario, and a provider that knows
    neither. *)
Lemma subnet_and_key_on_the_simulation :
  out (validate_subnet (Sim.client (Sim.web01_account true)) "subnet-1" Sim.start)
  = Ret "us-east-1a" /\
  out (validate_subnet Sim.refusing "subnet-1" Sim.start)
  = Halt (Exit (nl ++ "ERROR: Subnet subnet-1 not found. Aborting...")) /\
  out (validate_provision_key Sim.refusing (Sim.command_line "gp2" 0 None) Sim.start)
  = Halt (Exit "ERROR: requested provisioning-key [ops] not found. Aborting...").
Proof.
  split; [|split].
  - rewrite (proj1 (subnet_and_key_are_checked_by_one_query
                      _ (Sim.client (Sim.web01_account true))
                      (Sim.command_line "gp2" 0 None) Sim.start Sim.start)
               "subnet-1" "us-east-1a" [] eq_refl).
    reflexivity.
  - rewrite (proj1 (proj2 (proj2 (subnet_and_key_are_checked_by_one_query
                                    _ Sim.refusing (Sim.command_line "gp2" 0 None)
                                    Sim.start Sim.start)))
               "subnet-1" eq_refl).
    reflexivity.
  - rewrite (proj2 (proj2 (proj2 (proj2 (subnet_and_key_are_checked_by_one_query
                                           _ Sim.refusing (Sim.command_line "gp2" 0 None)
                                           Sim.start Sim.start))))
               eq_refl).
    reflexivity.
Defined.

(** Seven groups on the command line: five are looked up. *)
Lemma five_of_seven_groups_are_looked_up :
  requests (log (validate_security_group (Sim.client (Sim.web01_account true))
                   (Sim.command_line "gp2" 0 (Some Sim.seven_groups)) Sim.start))
  = map DescribeSecurityGroups
        ["sg-00000001"; "sg-00000002"; "sg-00000003"; "sg-00000004"; "sg-00000005"].
Proof.
  destruct (security_groups_are_looked_up_in_order
              _ (Sim.client (Sim.web01_account true))
              (Sim.command_line "gp2" 0 (Some Sim.seven_groups))
              Sim.seven_groups Sim.start eq_refl)
    as (n & _ & Hkept).
  destruct (Hkept ["sg-00000001"; "sg-00000002"; "sg-00000003";
                   "sg-00000004"; "sg-00000005"])
    as [_ Hrequests]; [vm_compute; reflexivity | exact Hrequests].
Defined.

(** Seven groups on the command line: five are set on the instance. *)
Lemma five_of_seven_groups_are_set :
  In (ModifyInstanceGroups
        ["sg-00000001"; "sg-00000002"; "sg-00000003"; "sg-00000004"; "sg-00000005"]
        "i-new")
     (requests (log (sim_main (Sim.web01_account true)
                              (Sim.command_line "gp2" 0 (Some Sim.seven_groups))
                              5 Sim.start))) /\
  ["sg-00000001"; "sg-00000002"; "sg-00000003"; "sg-00000004"; "sg-00000005"]
  = firstn 5 (split_on "," Sim.seven_groups).
Proof.
  assert (Hin : In (ModifyInstanceGroups
                      ["sg-00000001"; "sg-00000002"; "sg-00000003";
                       "sg-00000004"; "sg-00000005"] "i-new")
                   (requests (log (sim_main (Sim.web01_account true)
                                            (Sim.command_line "gp2" 0
                                               (Some Sim.seven_groups))
                                            5 Sim.start))))
    by find_event.
  split; [exact Hin|].
  exact (groups_set_are_the_groups_kept
           _ (Sim.client (Sim.web01_account true))
           (Sim.read_file (Sim.web01_account true)) Sim.b64decode
           (Sim.command_line "gp2" 0 (Some Sim.seven_groups))
           Sim.seven_groups eq_refl 5%nat Sim.start _ "i-new" Hin).
Defined.

(** The scenario with a user-data file: what the file holds is what is
    set. *)
Lemma the_file_of_the_scenario_is_what_is_set :
  In (ModifyInstanceUserData "i-new" "#!/bin/sh")
     (requests (log (sim_main Sim.scripted_account
                              (Sim.with_user_data
                                 (Sim.command_line "gp2" 0 (Some "sg-0123abcd"))
                                 false (Some "boot.sh"))
                              5 Sim.start))) /\
  exists file,
    USERDATA_FILE (Sim.with_user_data (Sim.command_line "gp2" 0 (Some "sg-0123abcd"))
                                      false (Some "boot.sh")) = Some file /\
    file <> "" /\
    Sim.read_file Sim.scripted_account Sim.start file = Some "#!/bin/sh".
Proof.
  assert (Hin : In (ModifyInstanceUserData "i-new" "#!/bin/sh")
                   (requests (log (sim_main Sim.scripted_account
                                            (Sim.with_user_data
                                               (Sim.command_line "gp2" 0
                                                  (Some "sg-0123abcd"))
                                               false (Some "boot.sh"))
                                            5 Sim.start))))
    by find_event.
  split; [exact Hin|].
  exact (user_data_set_is_the_file_read_at_the_start
           _ (Sim.client Sim.scripted_account)
           (Sim.read_file Sim.scripted_account) Sim.b64decode
           (Sim.with_user_data (Sim.command_line "gp2" 0 (Some "sg-0123abcd"))
                               false (Some "boot.sh"))
           5%nat Sim.start eq_refl "i-new" "#!/bin/sh" Hin).
Defined.

(** The scenario without the image flag. *)
Lemma scenario_without_image_asks_nothing :
  out (sim_main (Sim.web01_account true)
                (Sim.without_image (Sim.command_line "gp2" 0 (Some "sg-0123abcd")))
                5 Sim.start)
  = Halt (Raise TypeError) /\
  requests (log (sim_main (Sim.web01_account true)
                          (Sim.without_image
                             (Sim.command_line "gp2" 0 (Some "sg-0123abcd")))
                          5 Sim.start))
  = [].
Proof.
  split; [vm_compute; reflexivity|].
  exact (proj1 (proj2 (absent_image_stops_the_run_unasked
                         _ (Sim.client (Sim.web01_account true))
                         (Sim.read_file (Sim.web01_account true)) Sim.b64decode
                         (Sim.without_image
                            (Sim.command_line "gp2" 0 (Some "sg-0123abcd")))
                         eq_refl)
                      5%nat Sim.start)).
Defined.

(** The image of the scenario is not reported as an invalid value. *)
Lemma image_of_the_scenario_is_not_an_invalid_value :
  out (validate_ami_id (Sim.client (Sim.web01_account true))
                       (Sim.command_line "gp2" 0 None) Sim.start)
  <> Halt (Exit (ami_invalid_value "ami-0123abcd")).
Proof.
  exact (invalid_value_message_is_never_given
           _ (Sim.client (Sim.web01_account true)) (Sim.command_line "gp2" 0 None)
           "ami-0123abcd" Sim.start eq_refl).
Defined.

(** A tag named VolumeSize takes the place of the size; of two tags of
    one name the later one counts. *)
Example shadowed_size_and_repeated_tag :
  dict_get "VolumeSize"
           (snap_attributes_of {| SnapshotId := "snap-9"; VolumeSize := 10;
                                  Tags := [("VolumeSize", "big")] |})
  = Some (VStr "big") /\
  dict_get "Original Attachment"
           (snap_attributes_of
              {| SnapshotId := "snap-9"; VolumeSize := 10;
                 Tags := [("Original Attachment", "/dev/sdf");
                          ("Original Attachment", "/dev/sdg")] |})
  = Some (VStr "/dev/sdg").
Proof. split; reflexivity. Qed.

